(** * ETL expression evaluation: selectors, functors, evaluator, gemm selection

    A shallow embedding of the evaluation core of the ETL library
    (include/etl/eval_selectors.hpp, eval_functors.hpp, evaluator.hpp,
    op/scalar.hpp, op/sub_matrix_2d.hpp, impl/mmul.hpp, expr/gemm_expr.hpp).

    Conventions.
    - [std::size_t] values are numbers of [N].  Every index of the source is a
      position inside one allocation, so the sums the source computes on them
      stay far below [2^64]; they are written with the operations of [N].
      The masks [x & size_t(-k)] clear the bits of [k - 1] and are written
      [N.ldiff x (k - 1)].
    - Raw memory ([value_type*]) is a total map from indices to elements.
    - A source expression is read through its element reader (an index to
      element function): the pre-assign phase of the evaluator materializes
      the operands before a functor runs.
    - A SIMD vector is the map from lane number to element; the lane count is
      [IT::size].  *)

From Stdlib Require Import NArith List Bool String Lia.
Import ListNotations.
Local Open Scope N_scope.

Set Implicit Arguments.

(** ** Loops of the source *)

(** [for (; cond(i); i += step) body(i)], run on a state [s] from index [i];
    the index the loop stops at is returned with the state, since the source
    chains several loops on the same index variable. *)
Fixpoint for_loop {S : Type} (fuel : nat) (cond : N -> bool) (step : N)
         (body : N -> S -> S) (i : N) (s : S) : N * S :=
  match fuel with
  | O => (i, s)
  | Datatypes.S fuel' =>
      if cond i then for_loop fuel' cond step body (i + step) (body i s)
      else (i, s)
  end.

(** Enough fuel for a loop that runs below [bound] from [i]. *)
Definition fuel_for (bound i : N) : nat := Datatypes.S (N.to_nat (bound - i)).

Notation "s |> f" := (f s) (at level 45, left associativity, only parsing).

(** ** include/etl/eval_functors.hpp *)

Module Functors.

(** Build configuration read by the functors (etl/config.hpp). *)
Record config := {
  unroll_normal_loops : bool;
  streaming : bool;
  padding : bool;
  cache_size : N
}.

(** Static facts of the pair of operand types. *)
Record operand_traits := {
  IT_size : positive;      (* IT::size, lanes of the selected vector mode *)
  all_padded : bool;       (* all_padded<L_Expr, R_Expr>::value *)
  sizeof_value : N;        (* sizeof(lhs_value_type) *)
  default_size : positive  (* lanes of the widest mode, the padding unit *)
}.

(** The kinds of writes to the destination. *)
Inductive store_kind := ScalarWrite | VectorStore | StreamStore.

Section Memory.
Variable T : Type.

Definition memory := N -> T.
Definition vec := N -> T.
Definition reader := N -> T.

(** The destination: its memory and the writes done so far, newest first. *)
Record dest := { mem : memory; writes : list (store_kind * N) }.

Definition upd (m : memory) (i : N) (v : T) : memory :=
  fun j => if j =? i then v else m j.

(** [lhs[i] = v] *)
Definition write (i : N) (v : T) (d : dest) : dest :=
  {| mem := upd (mem d) i v; writes := (ScalarWrite, i) :: writes d |}.

Section Vectors.
Variable W : N.

(** Modelled from the spec: [load<V>(i)], not in the sources; the lanes of
    the vector are the [W] elements that start at [i]. *)
Definition load (r : reader) (i : N) : vec := fun k => r (i + k).

(** Modelled from the spec: [store<V>(v, i)] and [stream<V>(v, i)], not in the
    sources; both write the [W] lanes of [v] at [i .. i + W - 1], [stream]
    with a non-temporal store. *)
Definition put (k : store_kind) (v : vec) (i : N) (d : dest) : dest :=
  {| mem := fun j => if (i <=? j) && (j <? i + W) then v (j - i) else mem d j;
     writes := (k, i) :: writes d |}.

(** Modelled from the spec: [vect_impl::add], [sub], [mul<Cx>], [div<Cx>],
    not in the sources; the vector operator combines the vectors lane by
    lane with the operator of the elements. *)
Definition lanewise (op : T -> T -> T) (a b : vec) : vec :=
  fun k => op (a k) (b k).

End Vectors.

Section Functors.
Variable cfg : config.
Variable tr : operand_traits.

Definition W : N := N.pos (IT_size tr).

(** [constexpr bool remainder = !padding || !all_padded<L_Expr, R_Expr>::value] *)
Definition remainder : bool := negb (padding cfg) || negb (all_padded tr).

(** Modelled from the spec: [alloc_size<T>(size)], not in the sources; a
    padded container is allocated to the next multiple of the widest lane
    count. *)
Definition alloc_size (size : N) : N :=
  let p := N.pos (default_size tr) in
  if padding cfg
  then size + (if size mod p =? 0 then 0 else p - size mod p)
  else size.

(** *** Assign *)

Definition Assign (lhs : dest) (rhs : reader) (_size : N) : dest :=
  let set i d := write i (rhs i) d in
  let iend := if unroll_normal_loops cfg then N.ldiff _size 3 else 0 in
  let d1 :=
    if unroll_normal_loops cfg
    then snd (for_loop (fuel_for iend 0) (fun i => i <? iend) 4
                (fun i d => d |> set i |> set (i + 1) |> set (i + 2) |> set (i + 3))
                0 lhs)
    else lhs in
  snd (for_loop (fuel_for _size iend) (fun i => i <? _size) 1 set iend d1).

(** *** VectorizedAssign *)

(** The test of the streaming path:
    [streaming && _size > cache_size / (sizeof(lhs_value_type) * 3) && !rhs.alias(lhs)] *)
Definition use_streaming (alias : bool) (_size : N) : bool :=
  streaming cfg && (cache_size cfg / (sizeof_value tr * 3) <? _size) && negb alias.

Definition VectorizedAssign_stream (lhs : dest) (rhs : reader) (_first _last : N) : dest :=
  let _size := _last - _first in
  let last := if remainder then _first + N.ldiff _size (W - 1) else _last in
  let fuel := fuel_for (N.max last _last) _first in
  let '(i, d) := for_loop fuel (fun i => i <? last) W
                   (fun i d => put W StreamStore (load rhs i) i d) _first lhs in
  let '(i, d) := for_loop fuel (fun i => remainder && (i <? _last)) 1
                   (fun i d => write i (rhs i) d) i d in
  d.

Definition VectorizedAssign_store (lhs : dest) (rhs : reader) (_first _last : N) : dest :=
  let _size := _last - _first in
  let last := if remainder then _first + N.ldiff _size (W - 1) else _last in
  let fuel := fuel_for (N.max last _last) _first in
  let st i d := put W VectorStore (load rhs i) i d in
  let '(i, d) := for_loop fuel (fun i => i + W * 3 <? last) (4 * W)
                   (fun i d => d |> st (i + 0 * W) |> st (i + 1 * W)
                                 |> st (i + 2 * W) |> st (i + 3 * W)) _first lhs in
  let '(i, d) := for_loop fuel (fun i => i <? last) W st i d in
  let '(i, d) := for_loop fuel (fun i => remainder && (i <? _last)) 1
                   (fun i d => write i (rhs i) d) i d in
  d.

(** [alias] is the value of [rhs.alias(lhs)]. *)
Definition VectorizedAssign (lhs : dest) (rhs : reader) (alias : bool)
           (_first _last : N) : dest :=
  if use_streaming alias (_last - _first)
  then VectorizedAssign_stream lhs rhs _first _last
  else VectorizedAssign_store lhs rhs _first _last.

(** *** AssignAdd, AssignSub, AssignMul, AssignDiv

    The four scalar compound functors are the same loop around [+=], [-=],
    [*=] and [/=]. *)
Section Compound.
Variable op : T -> T -> T.

(** [lhs[i] op= rhs[i]] *)
Definition modify (rhs : reader) (i : N) (d : dest) : dest :=
  write i (op (mem d i) (rhs i)) d.

Definition scalar_compound (lhs : dest) (rhs : reader) (_first _last : N) : dest :=
  let _size := _last - _first in
  let iend := if unroll_normal_loops cfg then _first + N.ldiff _size 3 else _first in
  let d1 :=
    if unroll_normal_loops cfg
    then snd (for_loop (fuel_for iend _first) (fun i => i <? iend) 4
                (fun i d => d |> modify rhs i |> modify rhs (i + 1)
                              |> modify rhs (i + 2) |> modify rhs (i + 3))
                _first lhs)
    else lhs in
  snd (for_loop (fuel_for _last iend) (fun i => i <? _last) 1 (modify rhs) iend d1).

(** [lhs.store<vect_impl>(vect_impl::op(lhs_load(i), rhs_load(i)), i)] *)
Definition vmodify (rhs : reader) (i : N) (d : dest) : dest :=
  put W VectorStore (lanewise op (load (mem d) i) (load rhs i)) i d.

Definition vectorized_compound (lhs : dest) (rhs : reader) (_first _last : N) : dest :=
  let _size := _last - _first in
  let last := if remainder then _last else _first + alloc_size _size in
  let fuel := fuel_for last _first in
  let '(i, d) := for_loop fuel (fun i => i + W * 4 - 1 <? last) (W * 4)
                   (fun i d => d |> vmodify rhs i |> vmodify rhs (i + 1 * W)
                                 |> vmodify rhs (i + 2 * W) |> vmodify rhs (i + 3 * W))
                   _first lhs in
  let '(i, d) := for_loop fuel (fun i => i + W - 1 <? last) W (vmodify rhs) i d in
  let '(i, d) := for_loop fuel (fun i => remainder && (i <? last)) 1 (modify rhs) i d in
  d.

End Compound.

Section Operators.
Variables add sub mul div : T -> T -> T.

Definition AssignAdd := scalar_compound add.
Definition AssignSub := scalar_compound sub.
Definition AssignMul := scalar_compound mul.
Definition AssignDiv := scalar_compound div.
Definition VectorizedAssignAdd := vectorized_compound add.
Definition VectorizedAssignSub := vectorized_compound sub.
Definition VectorizedAssignMul := vectorized_compound mul.
Definition VectorizedAssignDiv := vectorized_compound div.

End Operators.
End Functors.
End Memory.
End Functors.

(** ** include/etl/op/scalar.hpp *)

Module Scalar.
Section Scalar.
Variable T : Type.

(** [struct scalar { const T value; }] *)
Record scalar := { value : T }.

(** [operator[](d)] *)
Definition index (s : scalar) (d : N) : T := value s.

(** [read_flat(d)] *)
Definition read_flat (s : scalar) (d : N) : T := value s.

(** [load<V>(d)]: [V::set(value)], every lane holds the value. *)
Definition load (s : scalar) (d : N) : Functors.vec T := fun _ => value s.

(** [operator()(args...)] *)
Definition call (s : scalar) (args : list N) : T := value s.

(** [alias(rhs)], for an expression [rhs] of any type [E]. *)
Definition alias (E : Type) (s : scalar) (rhs : E) : bool := false.

End Scalar.
End Scalar.

(** ** Storage order and flat positions *)

Inductive order := RowMajor | ColumnMajor.

Definition order_eqb (a b : order) : bool :=
  match a, b with
  | RowMajor, RowMajor | ColumnMajor, ColumnMajor => true
  | _, _ => false
  end.

(** Modelled from the spec: the position of the element at row [r] and column
    [c] in the contiguous memory of a [rows] x [cols] matrix, not in the
    sources; rows follow one another in row-major order, columns in
    column-major order. *)
Definition flat_index (o : order) (rows cols r c : N) : N :=
  match o with
  | RowMajor => r * cols + c
  | ColumnMajor => r + c * rows
  end.

(** ** include/etl/op/sub_matrix_2d.hpp *)

Module SubMatrix2d.

(** The members of the view; [base_m] and [base_n] are the dimensions of the
    expression the view is made on. *)
Record sub_matrix_2d := {
  storage_order : order;
  base_i : N;
  base_j : N;
  m : N;
  n : N;
  base_m : N;
  base_n : N
}.

(** The flat index of the sub expression that [operator[](j)] and
    [read_flat(j)] read. *)
Definition sub_index (v : sub_matrix_2d) (j : N) : N :=
  match storage_order v with
  | RowMajor =>
      let ii := base_i v + j / n v in
      let jj := base_j v + j mod n v in
      ii * base_n v + jj
  | ColumnMajor =>
      let ii := base_i v + j mod m v in
      let jj := base_j v + j / m v in
      ii + jj * base_m v
  end.

Section Access.
Variable T : Type.

(** [operator[](j)]; [sub_expr] is the element reader of the sub expression. *)
Definition index (v : sub_matrix_2d) (sub_expr : N -> T) (j : N) : T :=
  sub_expr (sub_index v j).

(** [read_flat(j)] *)
Definition read_flat (v : sub_matrix_2d) (sub_expr : N -> T) (j : N) : T :=
  sub_expr (sub_index v j).

(** [operator()(i, j)]: [sub_expr(base_i + i, base_j + j)]. *)
Definition call (v : sub_matrix_2d) (sub_expr : N -> T) (i j : N) : T :=
  sub_expr (flat_index (storage_order v) (base_m v) (base_n v)
              (base_i v + i) (base_j v + j)).

End Access.

(** [etl_traits<sub_matrix_2d>::size(v)] *)
Definition size (v : sub_matrix_2d) : N := m v * n v.

(** [etl_traits<sub_matrix_2d>::dim(v, d)] *)
Definition dim (v : sub_matrix_2d) (d : N) : N :=
  if d =? 0 then m v else n v.

End SubMatrix2d.

(** ** Capability traits *)

Inductive vector_mode_t := NONE | SSE3 | AVX | AVX512.

(** What the selectors ask of an element type ([value_t<E>]). *)
Record value_traits := {
  type_id : N;                                      (* identity, for std::is_same *)
  is_floating_t : bool;
  is_complex_t : bool;
  intrinsic_vectorizable : vector_mode_t -> bool;   (* get_intrinsic_traits<V>::type<T>::vectorizable *)
  intrinsic_type : vector_mode_t -> N               (* identity of ...::intrinsic_type *)
}.

(** What the selectors and the evaluator ask of an expression type
    ([decay_traits<E>] and the traits built on it). *)
Record etl_traits := {
  value_t : value_traits;
  has_direct_access : bool;
  gpu_computable : bool;
  vectorizable : vector_mode_t -> bool;
  storage_order : order;
  is_generator : bool;
  is_scalar : bool;
  dimensions : N
}.

(** Build configuration read by the selectors (etl/config.hpp). *)
Record build := {
  vectorize_expr : bool;
  avx512_enabled : bool;
  avx_enabled : bool;
  sse3_enabled : bool;
  ETL_CUDA : bool;
  ETL_CUBLAS_MODE : bool;
  ETL_EGBLAS_MODE : bool
}.

(** Modelled from the spec: [all_dma<E, R>], not in the sources; source and
    destination both have direct memory access. *)
Definition all_dma (E R : etl_traits) : bool :=
  has_direct_access E && has_direct_access R.

(** Modelled from the spec: [all_gpu_computable<E, R>], not in the sources;
    both operands are accelerator-computable. *)
Definition all_gpu_computable (E R : etl_traits) : bool :=
  gpu_computable E && gpu_computable R.

(** Modelled from the spec: [all_1d] and [all_2d], not in the sources; both
    operands have one, respectively two, dimensions. *)
Definition all_1d (E R : etl_traits) : bool :=
  (dimensions E =? 1) && (dimensions R =? 1).

Definition all_2d (E R : etl_traits) : bool :=
  (dimensions E =? 2) && (dimensions R =? 2).

(** [std::is_same<value_t<E>, value_t<R>>::value] *)
Definition same_value_t (E R : etl_traits) : bool :=
  type_id (value_t E) =? type_id (value_t R).

(** ** include/etl/eval_selectors.hpp *)

Module Selectors.
Section Selectors.
Variable cfg : build.

Definition are_vectorizable_select (V : vector_mode_t) (E R : etl_traits) : bool :=
  vectorize_expr cfg
  && vectorizable R V
  && vectorizable E V
  && order_eqb (storage_order E) (storage_order R)
  && intrinsic_vectorizable (value_t R) V
  && intrinsic_vectorizable (value_t E) V
  && (intrinsic_type (value_t R) V =? intrinsic_type (value_t E) V).

Definition are_vectorizable (E R : etl_traits) : bool :=
  (avx512_enabled cfg && are_vectorizable_select AVX512 E R)
  || (avx_enabled cfg && are_vectorizable_select AVX E R)
  || (sse3_enabled cfg && are_vectorizable_select SSE3 E R).

Definition select_vector_mode (E R : etl_traits) : vector_mode_t :=
  if avx512_enabled cfg && are_vectorizable_select AVX512 E R then AVX512
  else if avx_enabled cfg && are_vectorizable_select AVX E R then AVX
  else if sse3_enabled cfg && are_vectorizable_select SSE3 E R then SSE3
  else NONE.

(** Selectors for assign *)

Definition fast_assign (E R : etl_traits) : bool := all_dma E R.

Definition gpu_assign (E R : etl_traits) : bool :=
  negb (fast_assign E R) && all_gpu_computable E R.

Definition vectorized_assign (E R : etl_traits) : bool :=
  negb (gpu_assign E R) && are_vectorizable E R.

Definition direct_assign (E R : etl_traits) : bool :=
  negb (gpu_assign E R) && negb (are_vectorizable E R)
  && negb (has_direct_access E) && has_direct_access R.

Definition standard_assign (E R : etl_traits) : bool :=
  negb (has_direct_access R).

(** Selectors for compound operations *)

Definition vectorized_compound (E R : etl_traits) : bool := are_vectorizable E R.

Definition direct_compound (E R : etl_traits) : bool :=
  negb (vectorized_compound E R) && has_direct_access R.

Definition standard_compound (E R : etl_traits) : bool :=
  negb (vectorized_compound E R) && negb (direct_compound E R).

(** Selectors for compound div operation *)

Definition vectorized_compound_div (E R : etl_traits) : bool :=
  (is_floating_t (value_t E) || is_complex_t (value_t E)) && are_vectorizable E R.

Definition direct_compound_div (E R : etl_traits) : bool :=
  negb (vectorized_compound_div E R) && has_direct_access R.

Definition standard_compound_div (E R : etl_traits) : bool :=
  negb (vectorized_compound_div E R) && negb (direct_compound_div E R).

End Selectors.

(** The strategies of the specification, in its order of precedence. *)
Inductive strategy := FastCopy | Accelerator | Vectorized | Direct | Standard.

(** The selector of each strategy for the plain assignment. *)
Definition assign_selector (cfg : build) (s : strategy) : etl_traits -> etl_traits -> bool :=
  match s with
  | FastCopy => fast_assign
  | Accelerator => gpu_assign
  | Vectorized => vectorized_assign cfg
  | Direct => direct_assign cfg
  | Standard => standard_assign
  end.

Definition strategies : list strategy :=
  [FastCopy; Accelerator; Vectorized; Direct; Standard].

(** The strategies whose selector holds for the pair of types. *)
Definition selected (cfg : build) (E R : etl_traits) : list strategy :=
  filter (fun s => assign_selector cfg s E R) strategies.

(** The strategy the specification names for a pair of types, in its words:
    the first that applies of fast-copy (both operands with direct memory
    access), accelerator (both accelerator-computable), vectorized (the
    operands vectorizable together), direct (the destination with direct
    memory access); standard otherwise. *)
Definition first_applicable (cfg : build) (E R : etl_traits) : strategy :=
  if all_dma E R then FastCopy
  else if all_gpu_computable E R then Accelerator
  else if are_vectorizable cfg E R then Vectorized
  else if has_direct_access R then Direct
  else Standard.

End Selectors.

(** ** Overload resolution

    The evaluator declares one overload of a function per selector, enabled
    ([cpp_enable_iff]) when the selector holds.  A call compiles when exactly
    one overload is enabled, and then runs it. *)
Definition resolve {A : Type} (overloads : list (bool * A)) : option A :=
  match filter fst overloads with
  | [(_, f)] => Some f
  | _ => None
  end.

(** ** include/etl/evaluator.hpp *)

Module Evaluator.
Section Evaluator.
Variable T : Type.

Abbreviation memory := (Functors.memory T).
Abbreviation reader := (Functors.reader T).
Abbreviation dest := (Functors.dest T).

(** A container with its two memories and its two coherency flags. *)
Record container := {
  size : N;
  cpu_memory : memory;
  gpu_memory : memory;
  gpu_allocated : bool;
  cpu_up_to_date : bool;
  gpu_up_to_date : bool
}.

(** Modelled from the spec: the coherency protocol of the containers
    ([validate_cpu], [invalidate_cpu], [validate_gpu], [invalidate_gpu],
    [ensure_gpu_allocated], [gpu_copy_from], [ensure_cpu_up_to_date],
    [ensure_gpu_up_to_date]), not in the sources.  The validations and
    invalidations set one flag; [gpu_copy_from] makes the device memory the
    authoritative one (fast_assign_impl_full restores the CPU flag after it);
    the [ensure] operations copy in from the other side when the side asked
    for is stale. *)
Definition set_flags (c g : bool) (r : container) : container :=
  {| size := size r; cpu_memory := cpu_memory r; gpu_memory := gpu_memory r;
     gpu_allocated := gpu_allocated r; cpu_up_to_date := c; gpu_up_to_date := g |}.

Definition validate_cpu (r : container) := set_flags true (gpu_up_to_date r) r.
Definition invalidate_cpu (r : container) := set_flags false (gpu_up_to_date r) r.
Definition validate_gpu (r : container) := set_flags (cpu_up_to_date r) true r.
Definition invalidate_gpu (r : container) := set_flags (cpu_up_to_date r) false r.

Definition set_cpu_memory (m : memory) (r : container) : container :=
  {| size := size r; cpu_memory := m; gpu_memory := gpu_memory r;
     gpu_allocated := gpu_allocated r; cpu_up_to_date := cpu_up_to_date r;
     gpu_up_to_date := gpu_up_to_date r |}.

Definition set_gpu_memory (m : memory) (r : container) : container :=
  {| size := size r; cpu_memory := cpu_memory r; gpu_memory := m;
     gpu_allocated := gpu_allocated r; cpu_up_to_date := cpu_up_to_date r;
     gpu_up_to_date := gpu_up_to_date r |}.

Definition ensure_gpu_allocated (r : container) : container :=
  {| size := size r; cpu_memory := cpu_memory r; gpu_memory := gpu_memory r;
     gpu_allocated := true; cpu_up_to_date := cpu_up_to_date r;
     gpu_up_to_date := gpu_up_to_date r |}.

Definition gpu_copy_from (src : memory) (r : container) : container :=
  set_flags false true (set_gpu_memory src r).

Definition ensure_cpu_up_to_date (r : container) : container :=
  if cpu_up_to_date r then r
  else validate_cpu (set_cpu_memory (gpu_memory r) r).

Definition ensure_gpu_up_to_date (r : container) : container :=
  if gpu_up_to_date r then r
  else validate_gpu (set_gpu_memory (cpu_memory r) (ensure_gpu_allocated r)).

(** [safe_ensure_cpu_up_to_date(result)] *)
Definition safe_ensure_cpu_up_to_date (r : container) : container :=
  ensure_cpu_up_to_date r.

(** Modelled from the spec: [direct_copy(first, last, target)], not in the
    sources; the raw copy of the [n] elements of the source memory. *)
Definition direct_copy (src : memory) (n : N) (target : memory) : memory :=
  fun j => if j <? n then src j else target j.

(** The source of an operation, once [pre_assign_rhs] has materialized its
    temporaries.  [read] is the element reader of the source ([read_flat] and
    [operator[]]) after [safe_ensure_cpu_up_to_date(expr)] has brought its
    operands to the CPU; [read_unsynced] is the same reader without that
    call: it reads the host memories of the operands as they are, stale or
    not, and is the reader of the implementations that do not make the call.
    [store] is the memory and the flags of the source when it has direct
    memory access, [gpu_compute] the device memory of its evaluation on the
    accelerator, [value] the value of a scalar and [alias] the answer of
    [expr.alias(result)]. *)
Record expression := {
  read : reader;
  read_unsynced : reader;
  store : container;
  gpu_compute : memory;
  value : T;
  alias : bool
}.

(** Runs a functor on the CPU memory of the destination. *)
Definition on_cpu (f : dest -> dest) (r : container) : container :=
  set_cpu_memory (Functors.mem (f {| Functors.mem := cpu_memory r; Functors.writes := [] |})) r.

(** [for (size_t i = 0; i < etl::size(result); ++i) result[i] op= expr[i];]
    with [rhs] the reader of the source at this point of the function. *)
Definition standard_loop (step : reader -> N -> dest -> dest) (rhs : reader)
           (r : container) : container :=
  on_cpu (fun d => snd (for_loop (fuel_for (size r) 0) (fun i => i <? size r) 1
                          (step rhs) 0 d)) r.

Section Implementations.
Variable cuda : bool.                      (* ETL_CUDA *)
Variable fcfg : Functors.config.
Variable tr : Functors.operand_traits.     (* for V = select_vector_mode<E, R>() *)
Variables add sub mul div modulo : T -> T -> T.
Variables one minus_one : T.
Variable neg : T -> T.

(** The accelerator libraries, outside the repository. *)
Variable cublas_axpy : N -> T -> memory -> memory -> memory.
Variable cublas_scal : N -> T -> memory -> memory.
Variable egblas_scalar_add : memory -> N -> T -> memory.
Variable egblas_axmy : N -> T -> memory -> memory -> memory.
Variable egblas_axdy : N -> T -> memory -> memory -> memory.

(** The non-parallel [par_exec] of the sources, [Fun::apply(result, expr)];
    the slicing engine of the parallel one is not in the sources. *)
Definition par_exec (f : dest -> dest) (r : container) : container := on_cpu f r.

(** *** Assign *)

(** No [safe_ensure_cpu_up_to_date] here, neither of the source nor of the
    destination, and no flag is set. *)
Definition standard_assign_impl (e : expression) (r : container) : container :=
  standard_loop (fun rd i d => Functors.write i (rd i) d) (read_unsynced e) r.

Definition fast_assign_impl_full (e : expression) (r : container) : container :=
  let expr := store e in
  if cuda then
    let r :=
      if cpu_up_to_date expr
      then validate_cpu (set_cpu_memory (direct_copy (cpu_memory expr) (size expr) (cpu_memory r)) r)
      else r in
    let r :=
      if gpu_up_to_date expr
      then
        let cpu_status := cpu_up_to_date expr in
        let r := gpu_copy_from (gpu_memory expr) (ensure_gpu_allocated r) in
        if cpu_status then validate_cpu r else r
      else r in
    let r := if negb (cpu_up_to_date expr) then invalidate_cpu r else r in
    let r := if negb (gpu_up_to_date expr) then invalidate_gpu r else r in
    r
  else
    set_cpu_memory (direct_copy (cpu_memory expr) (size expr) (cpu_memory r)) r.

Definition fast_assign_impl (e : expression) (r : container) : container :=
  let expr := ensure_cpu_up_to_date (store e) in
  let r := set_cpu_memory (direct_copy (cpu_memory expr) (size expr) (cpu_memory r)) r in
  invalidate_gpu (validate_cpu r).

Definition gpu_assign_impl (e : expression) (r : container) : container :=
  let r := ensure_gpu_allocated r in
  let t1 := gpu_compute e in
  let r := gpu_copy_from t1 r in
  invalidate_cpu (validate_gpu r).

Definition direct_assign_impl (e : expression) (r : container) : container :=
  let r := safe_ensure_cpu_up_to_date r in
  let r := par_exec (fun d => Functors.Assign fcfg d (read e) (size r)) r in
  invalidate_gpu (validate_cpu r).

Definition vectorized_assign_impl (e : expression) (r : container) : container :=
  let r := safe_ensure_cpu_up_to_date r in
  let r := par_exec (fun d => Functors.VectorizedAssign fcfg tr d (read e) (alias e) 0 (size r)) r in
  invalidate_gpu (validate_cpu r).

(** *** Compound operations on the CPU *)

(** [standard_compound_add_impl] makes no call of
    [safe_ensure_cpu_up_to_date], neither of the source nor of the
    destination: the loop reads both as they are. *)
Definition standard_compound_add_impl (e : expression) (r : container) : container :=
  let r := standard_loop (Functors.modify add) (read_unsynced e) r in
  invalidate_gpu (validate_cpu r).

(** [standard_compound_sub_impl], [standard_compound_mul_impl],
    [standard_compound_div_impl] and [mod_evaluate] are this function at
    [-=], [*=], [/=] and [%=]. *)
Definition standard_compound_impl (op : T -> T -> T) (e : expression) (r : container) : container :=
  let r := safe_ensure_cpu_up_to_date r in
  let r := standard_loop (Functors.modify op) (read e) r in
  invalidate_gpu (validate_cpu r).

(** [direct_compound_add_impl] ... [direct_compound_div_impl] *)
Definition direct_compound_impl (op : T -> T -> T) (e : expression) (r : container) : container :=
  let r := safe_ensure_cpu_up_to_date r in
  let r := par_exec (fun d => Functors.scalar_compound fcfg op d (read e) 0 (size r)) r in
  invalidate_gpu (validate_cpu r).

(** [vectorized_compound_add_impl] ... [vectorized_compound_div_impl] *)
Definition vectorized_compound_impl (op : T -> T -> T) (e : expression) (r : container) : container :=
  let r := safe_ensure_cpu_up_to_date r in
  let r := par_exec (fun d => Functors.vectorized_compound fcfg tr op d (read e) 0 (size r)) r in
  invalidate_gpu (validate_cpu r).

Definition standard_compound_sub_impl := standard_compound_impl sub.
Definition standard_compound_mul_impl := standard_compound_impl mul.
Definition standard_compound_div_impl := standard_compound_impl div.
Definition mod_evaluate := standard_compound_impl modulo.
Definition direct_compound_add_impl := direct_compound_impl add.
Definition direct_compound_sub_impl := direct_compound_impl sub.
Definition direct_compound_mul_impl := direct_compound_impl mul.
Definition direct_compound_div_impl := direct_compound_impl div.
Definition vectorized_compound_add_impl := vectorized_compound_impl add.
Definition vectorized_compound_sub_impl := vectorized_compound_impl sub.
Definition vectorized_compound_mul_impl := vectorized_compound_impl mul.
Definition vectorized_compound_div_impl := vectorized_compound_impl div.

(** *** Compound operations on the accelerator *)

(** The shape of the GPU implementations: bring the device memory of the
    result up to date, run the kernel on it, validate GPU, invalidate CPU. *)
Definition gpu_kernel_impl (kernel : memory -> memory) (r : container) : container :=
  let r := ensure_gpu_up_to_date r in
  let r := set_gpu_memory (kernel (gpu_memory r)) r in
  invalidate_cpu (validate_gpu r).

Definition gpu_assign_add_impl (e : expression) (r : container) : container :=
  gpu_kernel_impl (cublas_axpy (size r) one (gpu_compute e)) r.

Definition gpu_assign_add_scalar_impl (e : expression) (r : container) : container :=
  gpu_kernel_impl (fun y => egblas_scalar_add y (size r) (value e)) r.

Definition gpu_compound_sub_impl (e : expression) (r : container) : container :=
  gpu_kernel_impl (cublas_axpy (size r) minus_one (gpu_compute e)) r.

Definition gpu_compound_sub_scalar_impl (e : expression) (r : container) : container :=
  gpu_kernel_impl (fun y => egblas_scalar_add y (size r) (neg (value e))) r.

Definition gpu_compound_mul_impl (e : expression) (r : container) : container :=
  gpu_kernel_impl (egblas_axmy (size r) one (gpu_compute e)) r.

Definition gpu_compound_mul_scalar_impl (e : expression) (r : container) : container :=
  gpu_kernel_impl (cublas_scal (size r) (value e)) r.

Definition gpu_compound_div_impl (e : expression) (r : container) : container :=
  gpu_kernel_impl (egblas_axdy (size r) one (gpu_compute e)) r.

Definition gpu_compound_div_scalar_impl (e : expression) (r : container) : container :=
  gpu_kernel_impl (cublas_scal (size r) (div one (value e))) r.

(** *** The implementations by the memory they leave authoritative

    [fast_assign_impl_full] and [standard_assign_impl] are in neither list:
    the first hands the flags of the source over to the destination, the
    second does not touch the flags. *)
Definition host_implementations : list (expression -> container -> container) :=
  [ fast_assign_impl; direct_assign_impl; vectorized_assign_impl;
    standard_compound_add_impl; standard_compound_sub_impl;
    standard_compound_mul_impl; standard_compound_div_impl; mod_evaluate;
    direct_compound_add_impl; direct_compound_sub_impl;
    direct_compound_mul_impl; direct_compound_div_impl;
    vectorized_compound_add_impl; vectorized_compound_sub_impl;
    vectorized_compound_mul_impl; vectorized_compound_div_impl ].

Definition gpu_implementations : list (expression -> container -> container) :=
  [ gpu_assign_impl;
    gpu_assign_add_impl; gpu_assign_add_scalar_impl;
    gpu_compound_sub_impl; gpu_compound_sub_scalar_impl;
    gpu_compound_mul_impl; gpu_compound_mul_scalar_impl;
    gpu_compound_div_impl; gpu_compound_div_scalar_impl ].

End Implementations.

(** The two coherency flags of a container. *)
Definition flags (r : container) : bool * bool :=
  (cpu_up_to_date r, gpu_up_to_date r).

End Evaluator.
End Evaluator.

(** *** The selector versions: which implementation a call runs *)

Module Dispatch.

Inductive implementation :=
| standard_impl | direct_impl | vectorized_impl
| fast_impl_full | fast_impl | gpu_impl | gpu_scalar_impl.

Section Dispatch.
Variable cfg : build.

(** [detail::gpu_compound] and [detail::gpu_compound_div] are named by the
    evaluator and are not in the sources; they are taken as given. *)
Variable gpu_compound : etl_traits -> etl_traits -> bool.
Variable gpu_compound_div : etl_traits -> etl_traits -> bool.

(** The six overloads of [assign_evaluate_impl]. *)
Definition assign_evaluate_impl (E R : etl_traits) : option implementation :=
  resolve
    [ (Selectors.standard_assign E R, standard_impl);
      (same_value_t E R && Selectors.fast_assign E R, fast_impl_full);
      (negb (same_value_t E R) && Selectors.fast_assign E R, fast_impl);
      (Selectors.gpu_assign E R, gpu_impl);
      (Selectors.direct_assign cfg E R, direct_impl);
      (Selectors.vectorized_assign cfg E R, vectorized_impl) ].

(** The overloads of [div_evaluate]; the two GPU ones are compiled under
    [ETL_EGBLAS_MODE] and [ETL_CUBLAS_MODE]. *)
Definition div_overloads (E R : etl_traits) : list (bool * implementation) :=
  [ (Selectors.standard_compound_div cfg E R, standard_impl);
    (Selectors.direct_compound_div cfg E R, direct_impl);
    (Selectors.vectorized_compound_div cfg E R, vectorized_impl) ]
  ++ (if ETL_EGBLAS_MODE cfg
      then [ (gpu_compound_div E R && negb (is_scalar E), gpu_impl) ] else [])
  ++ (if ETL_CUBLAS_MODE cfg
      then [ (gpu_compound_div E R && is_scalar E, gpu_scalar_impl) ] else []).

Definition div_evaluate (E R : etl_traits) : option implementation :=
  resolve (div_overloads E R).

(** The overloads of [add_evaluate] and of [sub_evaluate]. *)
Definition add_evaluate (E R : etl_traits) : option implementation :=
  resolve
    ([ (Selectors.standard_compound cfg E R, standard_impl);
       (Selectors.direct_compound cfg E R, direct_impl);
       (Selectors.vectorized_compound cfg E R, vectorized_impl) ]
     ++ (if ETL_CUBLAS_MODE cfg
         then [ (gpu_compound E R && negb (is_scalar E), gpu_impl) ] else [])
     ++ (if ETL_EGBLAS_MODE cfg
         then [ (gpu_compound E R && is_scalar E, gpu_scalar_impl) ] else [])).

(** The overloads of [mul_evaluate]. *)
Definition mul_evaluate (E R : etl_traits) : option implementation :=
  resolve
    ([ (Selectors.standard_compound cfg E R, standard_impl);
       (Selectors.direct_compound cfg E R, direct_impl);
       (Selectors.vectorized_compound cfg E R, vectorized_impl) ]
     ++ (if ETL_EGBLAS_MODE cfg
         then [ (gpu_compound E R && negb (is_scalar E), gpu_impl) ] else [])
     ++ (if ETL_CUBLAS_MODE cfg
         then [ (gpu_compound E R && is_scalar E, gpu_scalar_impl) ] else [])).

End Dispatch.

(** [direct_assign_compatible<Expr, Result>] *)
Definition direct_assign_compatible (E R : etl_traits) : bool :=
  is_generator E
  || order_eqb (storage_order E) (storage_order R)
  || all_1d E R.

End Dispatch.

(** *** The evaluations: the overload that is enabled, run *)

Module StandardEvaluator.

(** The compound operations of the evaluator. *)
Inductive compound := Add | Sub | Mul | Div | Mod.

Section StandardEvaluator.
Variable T : Type.

(** The arithmetic of the element type and the accelerator libraries, as
    the implementations of the evaluator take them. *)
Record operations := {
  add : T -> T -> T;
  sub : T -> T -> T;
  mul : T -> T -> T;
  div : T -> T -> T;
  modulo : T -> T -> T;
  one : T;
  minus_one : T;
  neg : T -> T
}.

Record libraries := {
  cublas_axpy : N -> T -> Functors.memory T -> Functors.memory T -> Functors.memory T;
  cublas_scal : N -> T -> Functors.memory T -> Functors.memory T;
  egblas_scalar_add : Functors.memory T -> N -> T -> Functors.memory T;
  egblas_axmy : N -> T -> Functors.memory T -> Functors.memory T -> Functors.memory T;
  egblas_axdy : N -> T -> Functors.memory T -> Functors.memory T -> Functors.memory T
}.

Variable cfg : build.
Variable fcfg : Functors.config.
Variable tr : Functors.operand_traits.   (* for V = select_vector_mode<E, R>() *)
Variable ops : operations.
Variable libs : libraries.
Variable gpu_compound : etl_traits -> etl_traits -> bool.
Variable gpu_compound_div : etl_traits -> etl_traits -> bool.

Abbreviation body := (Evaluator.expression T -> Evaluator.container T -> Evaluator.container T).

(** A call of an overloaded function: it compiles when exactly one overload
    is enabled, and runs the body of that overload. *)
Definition call (enabled : option Dispatch.implementation)
           (bodies : Dispatch.implementation -> option body)
           (e : Evaluator.expression T) (r : Evaluator.container T)
  : option (Evaluator.container T) :=
  match enabled with
  | Some i => option_map (fun f => f e r) (bodies i)
  | None => None
  end.

(** The bodies of the six overloads of [assign_evaluate_impl]. *)
Definition assign_bodies (i : Dispatch.implementation) : option body :=
  match i with
  | Dispatch.standard_impl => Some (@Evaluator.standard_assign_impl T)
  | Dispatch.fast_impl_full => Some (@Evaluator.fast_assign_impl_full T (ETL_CUDA cfg))
  | Dispatch.fast_impl => Some (@Evaluator.fast_assign_impl T)
  | Dispatch.gpu_impl => Some (@Evaluator.gpu_assign_impl T)
  | Dispatch.direct_impl => Some (@Evaluator.direct_assign_impl T fcfg)
  | Dispatch.vectorized_impl => Some (@Evaluator.vectorized_assign_impl T fcfg tr)
  | Dispatch.gpu_scalar_impl => None
  end.

(** [assign_evaluate(expr, result)]: [pre_assign_rhs(expr)], then
    [assign_evaluate_impl(expr, result)]. *)
Definition assign_evaluate (E R : etl_traits)
           (e : Evaluator.expression T) (r : Evaluator.container T)
  : option (Evaluator.container T) :=
  call (Dispatch.assign_evaluate_impl cfg E R) assign_bodies e r.

(** The bodies of the overloads of [add_evaluate], [sub_evaluate],
    [mul_evaluate] and [div_evaluate]. *)
Definition add_bodies (i : Dispatch.implementation) : option body :=
  match i with
  | Dispatch.standard_impl => Some (Evaluator.standard_compound_add_impl (add ops))
  | Dispatch.direct_impl => Some (Evaluator.direct_compound_add_impl fcfg (add ops))
  | Dispatch.vectorized_impl => Some (Evaluator.vectorized_compound_add_impl fcfg tr (add ops))
  | Dispatch.gpu_impl => Some (Evaluator.gpu_assign_add_impl (one ops) (cublas_axpy libs))
  | Dispatch.gpu_scalar_impl => Some (Evaluator.gpu_assign_add_scalar_impl (egblas_scalar_add libs))
  | _ => None
  end.

Definition sub_bodies (i : Dispatch.implementation) : option body :=
  match i with
  | Dispatch.standard_impl => Some (Evaluator.standard_compound_sub_impl (sub ops))
  | Dispatch.direct_impl => Some (Evaluator.direct_compound_sub_impl fcfg (sub ops))
  | Dispatch.vectorized_impl => Some (Evaluator.vectorized_compound_sub_impl fcfg tr (sub ops))
  | Dispatch.gpu_impl => Some (Evaluator.gpu_compound_sub_impl (minus_one ops) (cublas_axpy libs))
  | Dispatch.gpu_scalar_impl =>
      Some (Evaluator.gpu_compound_sub_scalar_impl (neg ops) (egblas_scalar_add libs))
  | _ => None
  end.

Definition mul_bodies (i : Dispatch.implementation) : option body :=
  match i with
  | Dispatch.standard_impl => Some (Evaluator.standard_compound_mul_impl (mul ops))
  | Dispatch.direct_impl => Some (Evaluator.direct_compound_mul_impl fcfg (mul ops))
  | Dispatch.vectorized_impl => Some (Evaluator.vectorized_compound_mul_impl fcfg tr (mul ops))
  | Dispatch.gpu_impl => Some (Evaluator.gpu_compound_mul_impl (one ops) (egblas_axmy libs))
  | Dispatch.gpu_scalar_impl => Some (Evaluator.gpu_compound_mul_scalar_impl (cublas_scal libs))
  | _ => None
  end.

Definition div_bodies (i : Dispatch.implementation) : option body :=
  match i with
  | Dispatch.standard_impl => Some (Evaluator.standard_compound_div_impl (div ops))
  | Dispatch.direct_impl => Some (Evaluator.direct_compound_div_impl fcfg (div ops))
  | Dispatch.vectorized_impl => Some (Evaluator.vectorized_compound_div_impl fcfg tr (div ops))
  | Dispatch.gpu_impl => Some (Evaluator.gpu_compound_div_impl (one ops) (egblas_axdy libs))
  | Dispatch.gpu_scalar_impl =>
      Some (Evaluator.gpu_compound_div_scalar_impl (div ops) (one ops) (cublas_scal libs))
  | _ => None
  end.

(** [add_evaluate], [sub_evaluate], [mul_evaluate], [div_evaluate] and
    [mod_evaluate], which has one body. *)
Definition compound_evaluate (o : compound) (E R : etl_traits)
           (e : Evaluator.expression T) (r : Evaluator.container T)
  : option (Evaluator.container T) :=
  match o with
  | Add => call (Dispatch.add_evaluate cfg gpu_compound E R) add_bodies e r
  | Sub => call (Dispatch.add_evaluate cfg gpu_compound E R) sub_bodies e r
  | Mul => call (Dispatch.mul_evaluate cfg gpu_compound E R) mul_bodies e r
  | Div => call (Dispatch.div_evaluate cfg gpu_compound_div E R) div_bodies e r
  | Mod => Some (Evaluator.mod_evaluate (modulo ops) e r)
  end.

(** The operator of a compound operation. *)
Definition operator (o : compound) : T -> T -> T :=
  match o with
  | Add => add ops
  | Sub => sub ops
  | Mul => mul ops
  | Div => div ops
  | Mod => modulo ops
  end.

End StandardEvaluator.
End StandardEvaluator.

(** *** std_assign_evaluate and the compound std evaluations *)

Module Transposition.
Section Transposition.
Variable T : Type.

(** An expression seen by the evaluator: its traits, its dimensions when it
    has two, and the expression itself. *)
Record expr := {
  traits : etl_traits;
  rows : N;
  cols : N;
  node : Evaluator.expression T
}.

(** [read_flat(k)] *)
Definition read_flat (e : expr) (k : N) : T := Evaluator.read (node e) k.

(** The element at row [r] and column [c] of a 2-D expression. *)
Definition at2 (e : expr) (r c : N) : T :=
  read_flat e (flat_index (storage_order (traits e)) (rows e) (cols e) r c).

(** Modelled from the spec: [transpose(expr)] and the type of its result are
    not in the sources.  The transposed expression has the dimensions
    swapped and the storage order of its operand, and its element at [(r, c)]
    is the element at [(c, r)] of the operand; [transposed_elements] lists
    them in its storage order.  It is taken as a temporary expression, the
    kind gemm_expr.hpp treats it as ([is_transpose_expr], operand read with
    [a()]): [pre_assign_rhs] materializes it on the host, so it has direct
    memory access, its memory is valid on the host, and its readers, its
    memory and its evaluation all yield the transposed elements.  Its other
    traits are those the temporary expressions of the sources have: not a
    generator, vectorizable in every mode. *)
Definition transposed_elements (e : expr) : Functors.reader T :=
  fun k =>
    match storage_order (traits e) with
    | RowMajor => at2 e (k mod rows e) (k / rows e)
    | ColumnMajor => at2 e (k / cols e) (k mod cols e)
    end.

Definition transposed_traits (E : etl_traits) : etl_traits :=
  {| value_t := value_t E;
     has_direct_access := true;
     gpu_computable := gpu_computable E;
     vectorizable := fun _ => true;
     storage_order := storage_order E;
     is_generator := false;
     is_scalar := false;
     dimensions := dimensions E |}.

Definition transpose (e : expr) : expr :=
  let t := transposed_elements e in
  {| traits := transposed_traits (traits e);
     rows := cols e;
     cols := rows e;
     node :=
       {| Evaluator.read := t;
          Evaluator.read_unsynced := t;
          Evaluator.store :=
            {| Evaluator.size := rows e * cols e;
               Evaluator.cpu_memory := t;
               Evaluator.gpu_memory := t;
               Evaluator.gpu_allocated := false;
               Evaluator.cpu_up_to_date := true;
               Evaluator.gpu_up_to_date := false |};
          Evaluator.gpu_compute := t;
          Evaluator.value := Evaluator.value (node e);
          Evaluator.alias := Evaluator.alias (node e) |} |}.

Variable cfg : build.
Variable fcfg : Functors.config.
Variable tr : Functors.operand_traits.

(** The two overloads of [std_assign_evaluate]: the first calls
    [standard_evaluator::assign_evaluate(expr, result)], the second
    [standard_evaluator::assign_evaluate(transpose(expr), result)] and holds
    [static_assert(all_2d<Expr, Result>)]: no result when it fails. *)
Definition std_assign_evaluate (result_traits : etl_traits) (e : expr)
           (result : Evaluator.container T) : option (Evaluator.container T) :=
  if Dispatch.direct_assign_compatible (traits e) result_traits
  then StandardEvaluator.assign_evaluate cfg fcfg tr (traits e) result_traits (node e) result
  else if all_2d (traits e) result_traits
       then StandardEvaluator.assign_evaluate cfg fcfg tr
              (traits (transpose e)) result_traits (node (transpose e)) result
       else None.

Variable ops : StandardEvaluator.operations T.
Variable libs : StandardEvaluator.libraries T.
Variable gpu_compound : etl_traits -> etl_traits -> bool.
Variable gpu_compound_div : etl_traits -> etl_traits -> bool.

(** The two overloads of [std_add_evaluate], [std_sub_evaluate],
    [std_mul_evaluate], [std_div_evaluate] and [std_mod_evaluate], which call
    [add_evaluate] ... [mod_evaluate] of the standard evaluator on the
    expression or on its transposition.  These hold no [static_assert]. *)
Definition std_compound_evaluate (o : StandardEvaluator.compound)
           (result_traits : etl_traits) (e : expr) (result : Evaluator.container T)
  : option (Evaluator.container T) :=
  if Dispatch.direct_assign_compatible (traits e) result_traits
  then StandardEvaluator.compound_evaluate cfg fcfg tr ops libs gpu_compound gpu_compound_div
         o (traits e) result_traits (node e) result
  else StandardEvaluator.compound_evaluate cfg fcfg tr ops libs gpu_compound gpu_compound_div
         o (traits (transpose e)) result_traits (node (transpose e)) result.

End Transposition.
End Transposition.

(** ** Forced selection of a gemm implementation *)

(** What a selector returns with the lines it wrote on [std::cerr]. *)
Record selection (I : Type) := { diagnostics : list string; chosen : I }.

(** ** include/etl/impl/mmul.hpp *)

Module Mmul.

Inductive gemm_impl := STD | FAST | BLAS | CUBLAS.

(** [local_context().gemm_selector] *)
Record gemm_selector := { forced : bool; impl : gemm_impl }.

(** Build configuration and thresholds (etl/config.hpp, etl/threshold.hpp). *)
Record config := {
  is_cblas_enabled : bool;
  is_cublas_enabled : bool;
  gemm_cublas_min : N;
  gemm_std_max : N
}.

Section Select.
Variable cfg : config.
Variable DMA : bool.            (* template parameter DMA *)
Variable is_complex : bool.     (* is_complex_t<T>::value *)

Definition select_default_gemm_impl (n1 n2 n3 : N) : gemm_impl :=
  if negb DMA then STD
  else
    let blas := is_cblas_enabled cfg in
    let cublas := is_cublas_enabled cfg in
    if cublas then
      if n1 * n3 <? gemm_cublas_min cfg then
        if blas then BLAS
        else if n1 * n3 <? gemm_std_max cfg then STD
        else CUBLAS
      else CUBLAS
    else if blas then BLAS
    else if (n1 * n3 <? gemm_std_max cfg) || is_complex then STD
    else FAST.

Definition select_gemm_impl (ctx : gemm_selector) (n1 n2 n3 : N) : selection gemm_impl :=
  if forced ctx then
    let forced := impl ctx in
    match forced with
    | CUBLAS =>
        if negb (is_cublas_enabled cfg) || negb DMA
        then {| diagnostics := ["Forced selection to CUBLAS gemm implementation, but not possible for this expression"%string];
                chosen := select_default_gemm_impl n1 n2 n3 |}
        else {| diagnostics := []; chosen := forced |}
    | BLAS =>
        if negb (is_cblas_enabled cfg) || negb DMA
        then {| diagnostics := ["Forced selection to BLAS gemm implementation, but not possible for this expression"%string];
                chosen := select_default_gemm_impl n1 n2 n3 |}
        else {| diagnostics := []; chosen := forced |}
    | FAST =>
        if negb (is_cblas_enabled cfg) || negb DMA || is_complex
        then {| diagnostics := ["Forced selection to EBLAS gemm implementation, but not possible for this expression"%string];
                chosen := select_default_gemm_impl n1 n2 n3 |}
        else {| diagnostics := []; chosen := forced |}
    | _ => {| diagnostics := []; chosen := forced |}
    end
  else {| diagnostics := []; chosen := select_default_gemm_impl n1 n2 n3 |}.

(** The forced implementations the selector finds not possible for the
    operands. *)
Definition not_possible (forced : gemm_impl) : bool :=
  match forced with
  | CUBLAS => negb (is_cublas_enabled cfg) || negb DMA
  | BLAS => negb (is_cblas_enabled cfg) || negb DMA
  | FAST => negb (is_cblas_enabled cfg) || negb DMA || is_complex
  | STD => false
  end.

Variable is_complex_single : bool.   (* is_complex_single_t<T>::value *)

Definition select_default_gemv_impl (n1 n2 : N) : gemm_impl :=
  if negb DMA then STD
  else
    let blas := is_cblas_enabled cfg in
    let cublas := is_cublas_enabled cfg in
    if blas then BLAS
    else if cublas && (is_complex_single && (1000 * 1000 <? n1 * n2)) then CUBLAS
    else STD.

Definition select_gemv_impl (ctx : gemm_selector) (n1 n2 : N) : selection gemm_impl :=
  if forced ctx then
    let forced := impl ctx in
    match forced with
    | CUBLAS =>
        if negb (is_cublas_enabled cfg) || negb DMA
        then {| diagnostics := ["Forced selection to CUBLAS gemv implementation, but not possible for this expression"%string];
                chosen := select_default_gemv_impl n1 n2 |}
        else {| diagnostics := []; chosen := forced |}
    | BLAS =>
        if negb (is_cblas_enabled cfg) || negb DMA
        then {| diagnostics := ["Forced selection to BLAS gemv implementation, but not possible for this expression"%string];
                chosen := select_default_gemv_impl n1 n2 |}
        else {| diagnostics := []; chosen := forced |}
    | FAST =>
        {| diagnostics := ["Forced selection to EBLAS gemv implementation, but there is no such implementation"%string];
           chosen := select_default_gemv_impl n1 n2 |}
    | _ => {| diagnostics := []; chosen := forced |}
    end
  else {| diagnostics := []; chosen := select_default_gemv_impl n1 n2 |}.

Definition select_default_gevm_impl (n1 n2 : N) : gemm_impl :=
  if negb DMA then STD
  else
    let blas := is_cblas_enabled cfg in
    let cublas := is_cublas_enabled cfg in
    if blas then BLAS
    else if cublas && (is_complex_single && (1000 * 1000 <? n1 * n2)) then CUBLAS
    else STD.

Definition select_gevm_impl (ctx : gemm_selector) (n1 n2 : N) : selection gemm_impl :=
  if forced ctx then
    let forced := impl ctx in
    match forced with
    | CUBLAS =>
        if negb (is_cublas_enabled cfg) || negb DMA
        then {| diagnostics := ["Forced selection to CUBLAS gevm implementation, but not possible for this expression"%string];
                chosen := select_default_gevm_impl n1 n2 |}
        else {| diagnostics := []; chosen := forced |}
    | BLAS =>
        if negb (is_cblas_enabled cfg) || negb DMA
        then {| diagnostics := ["Forced selection to BLAS gevm implementation, but not possible for this expression"%string];
                chosen := select_default_gevm_impl n1 n2 |}
        else {| diagnostics := []; chosen := forced |}
    | FAST =>
        {| diagnostics := ["Forced selection to EBLAS gevm implementation, but there is no such implementation"%string];
           chosen := select_default_gevm_impl n1 n2 |}
    | _ => {| diagnostics := []; chosen := forced |}
    end
  else {| diagnostics := []; chosen := select_default_gevm_impl n1 n2 |}.

End Select.

(** The kernels of the implementation namespaces, outside these files. *)
Inductive kernel :=
| standard_mm_mul | eblas_gemm | blas_gemm | cublas_gemm
| standard_vm_mul | blas_gevm | cublas_gevm
| standard_mv_mul | blas_gemv | cublas_gemv.

(** The chains of [if (impl == ...)] of [mm_mul_impl::apply],
    [vm_mul_impl::apply] and [mv_mul_impl::apply]: the kernel that runs, none
    when no branch is taken. *)
Definition mm_mul_kernel (i : gemm_impl) : option kernel :=
  match i with
  | STD => Some standard_mm_mul
  | FAST => Some eblas_gemm
  | BLAS => Some blas_gemm
  | CUBLAS => Some cublas_gemm
  end.

Definition vm_mul_kernel (i : gemm_impl) : option kernel :=
  match i with
  | STD => Some standard_vm_mul
  | BLAS => Some blas_gevm
  | CUBLAS => Some cublas_gevm
  | FAST => None
  end.

Definition mv_mul_kernel (i : gemm_impl) : option kernel :=
  match i with
  | STD => Some standard_mv_mul
  | BLAS => Some blas_gemv
  | CUBLAS => Some cublas_gemv
  | FAST => None
  end.

End Mmul.

(** ** include/etl/expr/gemm_expr.hpp *)

Module GemmExpr.

Inductive gemm_impl := STD | VEC | BLAS | CUBLAS.

Record gemm_selector := { forced : bool; impl : gemm_impl }.

Record config := {
  cblas_enabled : bool;
  cublas_enabled : bool;
  vec_enabled : bool
}.

Section Select.
Variable cfg : config.
Variable all_homogeneous : bool.      (* all_homogeneous<AA, BB, C> *)
Variable all_vectorizable_t : bool.   (* all_vectorizable_t<vector_mode, AA, BB, C> *)

Definition select_default_gemm_impl (n1 n2 n3 : N) : gemm_impl :=
  let blas := cblas_enabled cfg in
  let cublas := cublas_enabled cfg in
  let homo := all_homogeneous in
  if cublas && homo then CUBLAS
  else if blas && homo then BLAS
  else if vec_enabled cfg && homo && all_vectorizable_t then VEC
  else STD.

Definition select_gemm_impl (ctx : gemm_selector) (n1 n2 n3 : N) : selection gemm_impl :=
  let def := select_default_gemm_impl n1 n2 n3 in
  if forced ctx then
    let forced := impl ctx in
    match forced with
    | CUBLAS =>
        if negb (cublas_enabled cfg) || negb all_homogeneous
        then {| diagnostics := ["Forced selection to CUBLAS gemm implementation, but not possible for this expression"%string];
                chosen := def |}
        else {| diagnostics := []; chosen := forced |}
    | BLAS =>
        if negb (cblas_enabled cfg) || negb all_homogeneous
        then {| diagnostics := ["Forced selection to BLAS gemm implementation, but not possible for this expression"%string];
                chosen := def |}
        else {| diagnostics := []; chosen := forced |}
    | VEC =>
        if negb (vec_enabled cfg) || negb all_vectorizable_t || negb all_homogeneous
        then {| diagnostics := ["Forced selection to VEC gemm implementation, but not possible for this expression"%string];
                chosen := def |}
        else {| diagnostics := []; chosen := forced |}
    | _ => {| diagnostics := []; chosen := forced |}
    end
  else {| diagnostics := []; chosen := def |}.

Definition not_possible (forced : gemm_impl) : bool :=
  match forced with
  | CUBLAS => negb (cublas_enabled cfg) || negb all_homogeneous
  | BLAS => negb (cblas_enabled cfg) || negb all_homogeneous
  | VEC => negb (vec_enabled cfg) || negb all_vectorizable_t || negb all_homogeneous
  | STD => false
  end.

End Select.

(** The dimensions of the two operands of the expression, [_a] and [_b]. *)
Record gemm_expr := {
  a_dim0 : N;
  a_dim1 : N;
  b_dim0 : N;
  b_dim1 : N
}.

(** [check(a, b, c)]: whether the assertion on the dimensions of the
    operands and of the destination [c] holds. *)
Definition check (e : gemm_expr) (c_dim0 c_dim1 : N) : bool :=
  (a_dim1 e =? b_dim0 e) && (a_dim0 e =? c_dim0) && (b_dim1 e =? c_dim1).

(** [etl_traits<gemm_expr>::dim(e, d)] *)
Definition dim (e : gemm_expr) (d : N) : N :=
  if d =? 0 then a_dim0 e else b_dim1 e.

(** [etl_traits<gemm_expr>::size(e)] *)
Definition size (e : gemm_expr) : N := a_dim0 e * b_dim1 e.

End GemmExpr.

(** ** include/etl/expr/dyn_conv_2d_valid_expr.hpp *)

Module DynConv2dValid.

(** The dimensions of this expression are computed with a subtraction of
    [std::size_t] values, so here the 64-bit wrap-around is written out. *)
Definition wrap (x : N) : N := x mod 2 ^ 64.

Definition add64 (x y : N) : N := wrap (x + y).
Definition sub64 (x y : N) : N := wrap (x + 2 ^ 64 - wrap y).
Definition mul64 (x y : N) : N := wrap (x * y).

(** [x / y]: no result for a zero divisor. *)
Definition div64 (x y : N) : option N :=
  if y =? 0 then None else Some (x / y).

(** The members of the expression ([s1], [s2], [p1], [p2]) and the
    dimensions of its two sub expressions, the input [_a] and the kernel
    [_b]. *)
Record dyn_conv_2d_valid_expr := {
  a_dim0 : N;
  a_dim1 : N;
  b_dim0 : N;
  b_dim1 : N;
  s1 : N;
  s2 : N;
  p1 : N;
  p2 : N
}.

(** [(etl::dim(a, d) - etl::dim(b, d) + 2 * p) / s + 1] *)
Definition valid_dim (a b p s : N) : option N :=
  option_map (fun q => add64 q 1) (div64 (add64 (sub64 a b) (mul64 2 p)) s).

(** [etl_traits<dyn_conv_2d_valid_expr>::dim(e, d)] *)
Definition dim (e : dyn_conv_2d_valid_expr) (d : N) : option N :=
  if d =? 0 then valid_dim (a_dim0 e) (b_dim0 e) (p1 e) (s1 e)
  else valid_dim (a_dim1 e) (b_dim1 e) (p2 e) (s2 e).

(** [etl_traits<dyn_conv_2d_valid_expr>::size(e)] *)
Definition size (e : dyn_conv_2d_valid_expr) : option N :=
  match valid_dim (a_dim0 e) (b_dim0 e) (p1 e) (s1 e),
        valid_dim (a_dim1 e) (b_dim1 e) (p2 e) (s2 e) with
  | Some d0, Some d1 => Some (mul64 d0 d1)
  | _, _ => None
  end.

(** [check(input, kernel, conv)]: whether the two assertions on the
    dimensions of the destination [conv] hold. *)
Definition check (e : dyn_conv_2d_valid_expr) (conv_dim0 conv_dim1 : N) : option bool :=
  match valid_dim (a_dim0 e) (b_dim0 e) (p1 e) (s1 e),
        valid_dim (a_dim1 e) (b_dim1 e) (p2 e) (s2 e) with
  | Some d0, Some d1 => Some ((conv_dim0 =? d0) && (conv_dim1 =? d1))
  | _, _ => None
  end.

End DynConv2dValid.

(** ** Vector modes

    Whether the build enables a vector mode, and the width of its registers
    in bits. *)
Definition mode_enabled (cfg : build) (V : vector_mode_t) : bool :=
  match V with
  | AVX512 => avx512_enabled cfg
  | AVX => avx_enabled cfg
  | SSE3 => sse3_enabled cfg
  | NONE => false
  end.

Definition mode_width (V : vector_mode_t) : N :=
  match V with
  | NONE => 0
  | SSE3 => 128
  | AVX => 256
  | AVX512 => 512
  end.

(** ** What a functor computes

    The memory in which the elements of [a .. b - 1] have been combined with
    the elements the source holds at the same indices; the rest is the
    memory [m]. *)
Definition combined {T : Type} (op : T -> T -> T) (rhs : N -> T) (a b : N)
           (m : N -> T) : N -> T :=
  fun j => if (a <=? j) && (j <? b) then op (m j) (rhs j) else m j.

(** The indices [a, a + 1, ..., a + n - 1]. *)
Definition indices (a : N) (n : nat) : list N :=
  map (fun k => a + N.of_nat k) (seq 0 n).

(** The operator of the plain assignment: the element of the source. *)
Definition assigned {T : Type} (_ x : T) : T := x.

(** The destination has received no non-temporal store beyond those of [d0]. *)
Definition no_new_stream {T : Type} (d0 d : Functors.dest T) : Prop :=
  forall i, In (Functors.StreamStore, i) (Functors.writes d) ->
            In (Functors.StreamStore, i) (Functors.writes d0).

(** ** Operands and builds used as examples *)

(** The view of two rows and three columns at (1, 2) of a 4 x 6 matrix. *)
Definition window_2x3 : SubMatrix2d.sub_matrix_2d :=
  {| SubMatrix2d.storage_order := RowMajor;
     SubMatrix2d.base_i := 1; SubMatrix2d.base_j := 2;
     SubMatrix2d.m := 2; SubMatrix2d.n := 3;
     SubMatrix2d.base_m := 4; SubMatrix2d.base_n := 6 |}.

(** A build with cblas only, operands with direct memory access. *)
Definition cblas_only : Mmul.config :=
  {| Mmul.is_cblas_enabled := true; Mmul.is_cublas_enabled := false;
     Mmul.gemm_cublas_min := 90000; Mmul.gemm_std_max := 2500 |}.

Definition vec_only : GemmExpr.config :=
  {| GemmExpr.cblas_enabled := false; GemmExpr.cublas_enabled := false;
     GemmExpr.vec_enabled := true |}.

(** Padded operands of four lanes, and the same operands without padding. *)
Definition padded_build : Functors.config :=
  {| Functors.unroll_normal_loops := true; Functors.streaming := true;
     Functors.padding := true; Functors.cache_size := 3 * 1024 * 1024 |}.

Definition plain_build : Functors.config :=
  {| Functors.unroll_normal_loops := true; Functors.streaming := true;
     Functors.padding := false; Functors.cache_size := 3 * 1024 * 1024 |}.

Definition four_lanes : Functors.operand_traits :=
  {| Functors.IT_size := 4; Functors.all_padded := true;
     Functors.sizeof_value := 4; Functors.default_size := 4 |}.

(** A destination of zeros and a source of ones. *)
Definition zeros : Functors.dest N := {| Functors.mem := fun _ => 0; Functors.writes := [] |}.

Definition ones : Functors.reader N := fun _ => 1.

(** A container of four elements whose two memories are both up to date,
    and a destination that holds zeros on the CPU and nothing on the GPU. *)
Definition synced : Evaluator.container N :=
  {| Evaluator.size := 4; Evaluator.cpu_memory := fun i => i + 1;
     Evaluator.gpu_memory := fun i => i + 1; Evaluator.gpu_allocated := true;
     Evaluator.cpu_up_to_date := true; Evaluator.gpu_up_to_date := true |}.

Definition blank : Evaluator.container N :=
  {| Evaluator.size := 4; Evaluator.cpu_memory := fun _ => 0;
     Evaluator.gpu_memory := fun _ => 0; Evaluator.gpu_allocated := false;
     Evaluator.cpu_up_to_date := true; Evaluator.gpu_up_to_date := false |}.

(** A destination of four elements that is valid on the device only. *)
Definition device_only : Evaluator.container N :=
  {| Evaluator.size := 4; Evaluator.cpu_memory := fun _ => 0;
     Evaluator.gpu_memory := fun _ => 7; Evaluator.gpu_allocated := true;
     Evaluator.cpu_up_to_date := false; Evaluator.gpu_up_to_date := true |}.

Definition synced_source : Evaluator.expression N :=
  {| Evaluator.read := Evaluator.cpu_memory synced;
     Evaluator.read_unsynced := Evaluator.cpu_memory synced; Evaluator.store := synced;
     Evaluator.gpu_compute := Evaluator.gpu_memory synced; Evaluator.value := 0;
     Evaluator.alias := false |}.

(** The element types [float] and [int], and the traits of a matrix with
    direct memory access of each. *)
Definition float_t : value_traits :=
  {| type_id := 1; is_floating_t := true; is_complex_t := false;
     intrinsic_vectorizable := fun V => match V with NONE => false | _ => true end;
     intrinsic_type := fun V => match V with NONE => 0 | SSE3 => 1 | AVX => 2 | AVX512 => 3 end |}.

Definition int_t : value_traits :=
  {| type_id := 2; is_floating_t := false; is_complex_t := false;
     intrinsic_vectorizable := fun V => match V with NONE => false | _ => true end;
     intrinsic_type := fun V => match V with NONE => 0 | SSE3 => 4 | AVX => 5 | AVX512 => 6 end |}.

Definition dense_matrix (v : value_traits) (o : order) : etl_traits :=
  {| value_t := v; has_direct_access := true; gpu_computable := false;
     vectorizable := fun _ => true; storage_order := o; is_generator := false;
     is_scalar := false; dimensions := 2 |}.

(** A build that vectorizes expressions with AVX, without GPU. *)
Definition avx_build : build :=
  {| vectorize_expr := true; avx512_enabled := false; avx_enabled := true;
     sse3_enabled := true; ETL_CUDA := false; ETL_CUBLAS_MODE := false;
     ETL_EGBLAS_MODE := false |}.

(** The matrix [[1, 2, 3], [4, 5, 6]] stored in column-major order, valid
    on the host. *)
Definition column_major_elements : Functors.reader N :=
  fun k => nth (N.to_nat k) [1; 4; 2; 5; 3; 6] 0.

Definition column_major_2x3 : Transposition.expr N :=
  {| Transposition.traits := dense_matrix float_t ColumnMajor;
     Transposition.rows := 2; Transposition.cols := 3;
     Transposition.node :=
       {| Evaluator.read := column_major_elements;
          Evaluator.read_unsynced := column_major_elements;
          Evaluator.store :=
            {| Evaluator.size := 6; Evaluator.cpu_memory := column_major_elements;
               Evaluator.gpu_memory := fun _ => 0; Evaluator.gpu_allocated := false;
               Evaluator.cpu_up_to_date := true; Evaluator.gpu_up_to_date := false |};
          Evaluator.gpu_compute := column_major_elements;
          Evaluator.value := 0; Evaluator.alias := false |} |}.

(** A source of four elements that is valid on the device only: its host
    memory holds zeros, its device memory 1, 2, 3, 4. *)
Definition device_source : Evaluator.expression N :=
  {| Evaluator.read := fun i => i + 1;
     Evaluator.read_unsynced := fun _ => 0;
     Evaluator.store :=
       {| Evaluator.size := 4; Evaluator.cpu_memory := fun _ => 0;
          Evaluator.gpu_memory := fun i => i + 1; Evaluator.gpu_allocated := true;
          Evaluator.cpu_up_to_date := false; Evaluator.gpu_up_to_date := true |};
     Evaluator.gpu_compute := fun i => i + 1;
     Evaluator.value := 0; Evaluator.alias := false |}.

(** The arithmetic of the natural numbers, and libraries that do nothing. *)
Definition natural_numbers : StandardEvaluator.operations N :=
  {| StandardEvaluator.add := N.add; StandardEvaluator.sub := N.sub;
     StandardEvaluator.mul := N.mul; StandardEvaluator.div := N.div;
     StandardEvaluator.modulo := N.modulo; StandardEvaluator.one := 1;
     StandardEvaluator.minus_one := 0; StandardEvaluator.neg := fun x => x |}.

Definition no_libraries : StandardEvaluator.libraries N :=
  {| StandardEvaluator.cublas_axpy := fun _ _ _ y => y;
     StandardEvaluator.cublas_scal := fun _ _ y => y;
     StandardEvaluator.egblas_scalar_add := fun y _ _ => y;
     StandardEvaluator.egblas_axmy := fun _ _ _ y => y;
     StandardEvaluator.egblas_axdy := fun _ _ _ y => y |}.

(** A row-major matrix type without direct memory access. *)
Definition lazy_matrix (v : value_traits) (o : order) : etl_traits :=
  {| value_t := v; has_direct_access := false; gpu_computable := false;
     vectorizable := fun _ => true; storage_order := o; is_generator := false;
     is_scalar := false; dimensions := 2 |}.

Definition six_zeros : Evaluator.container N :=
  {| Evaluator.size := 6; Evaluator.cpu_memory := fun _ => 0;
     Evaluator.gpu_memory := fun _ => 0; Evaluator.gpu_allocated := false;
     Evaluator.cpu_up_to_date := true; Evaluator.gpu_up_to_date := false |}.

(** The sum of the sequences 1 .. 6 and 10 .. 60, read by index. *)
Definition sum_of_sequences : Functors.reader N :=
  fun k => nth (N.to_nat k) [1; 2; 3; 4; 5; 6] 0 + nth (N.to_nat k) [10; 20; 30; 40; 50; 60] 0.

(** A build whose cache holds twelve bytes, so that ranges of more than one
    float element stream. *)
Definition tiny_cache : Functors.config :=
  {| Functors.unroll_normal_loops := true; Functors.streaming := true;
     Functors.padding := false; Functors.cache_size := 12 |}.

(** A 3 x 5 input convolved with a 5 x 3 kernel, padding 1 and 0, strides
    1 and 2: the kernel is taller than the input and fits once padded. *)
Definition padded_conv : DynConv2dValid.dyn_conv_2d_valid_expr :=
  {| DynConv2dValid.a_dim0 := 3; DynConv2dValid.a_dim1 := 5;
     DynConv2dValid.b_dim0 := 5; DynConv2dValid.b_dim1 := 3;
     DynConv2dValid.s1 := 1; DynConv2dValid.s2 := 2;
     DynConv2dValid.p1 := 1; DynConv2dValid.p2 := 0 |}.

(** * Properties *)

Unset Implicit Arguments.

(** ** The functors on concrete ranges *)

(** The destination of six elements assigned the sum of the two sequences,
    by the scalar and by the vectorized functor. *)
Example assign_scenario_scalar :
  map (Functors.mem (Functors.Assign plain_build zeros sum_of_sequences 6)) [0; 1; 2; 3; 4; 5; 6]
  = [11; 22; 33; 44; 55; 66; 0].
Proof. reflexivity. Qed.

Example assign_scenario_vectorized :
  map (Functors.mem (Functors.VectorizedAssign plain_build four_lanes zeros
                       sum_of_sequences false 0 6)) [0; 1; 2; 3; 4; 5; 6]
  = [11; 22; 33; 44; 55; 66; 0].
Proof. reflexivity. Qed.

(** The writes of the vectorized assign on [0, 6): one vector of four lanes
    and two scalar writes; non-temporal when the range is larger than the
    cache allows and the source does not alias the destination. *)
Example assign_writes_cached :
  rev (Functors.writes (Functors.VectorizedAssign tiny_cache four_lanes zeros
                          sum_of_sequences true 0 6))
  = [(Functors.VectorStore, 0); (Functors.ScalarWrite, 4); (Functors.ScalarWrite, 5)].
Proof. reflexivity. Qed.

Example assign_writes_streamed :
  rev (Functors.writes (Functors.VectorizedAssign tiny_cache four_lanes zeros
                          sum_of_sequences false 0 6))
  = [(Functors.StreamStore, 0); (Functors.ScalarWrite, 4); (Functors.ScalarWrite, 5)].
Proof. reflexivity. Qed.

(** The compound add on [3, 8) of a memory of zeros with a source of ones. *)
Example add_scenario :
  map (Functors.mem (Functors.VectorizedAssignAdd plain_build four_lanes N.add zeros ones 3 8))
      [2; 3; 4; 5; 6; 7; 8]
  = [0; 1; 1; 1; 1; 1; 0]
  /\ map (Functors.mem (Functors.AssignAdd plain_build N.add zeros ones 3 8))
         [2; 3; 4; 5; 6; 7; 8]
     = [0; 1; 1; 1; 1; 1; 0].
Proof. split; reflexivity. Qed.

(** ** Loops *)

Section LoopFacts.
Context {S : Type}.
Variables (cond : N -> bool) (step : N) (body : N -> S -> S).

Lemma for_loop_stop fuel i s :
  cond i = false -> for_loop fuel cond step body i s = (i, s).
Proof. intros H. destruct fuel; simpl; [ reflexivity | now rewrite H ]. Qed.

Lemma for_loop_step fuel i s :
  cond i = true ->
  for_loop (Datatypes.S fuel) cond step body i s
  = for_loop fuel cond step body (i + step) (body i s).
Proof. intros H. simpl. now rewrite H. Qed.

(** A property kept by the body is kept by the loop. *)
Lemma for_loop_invariant (P : N -> S -> Prop) :
  (forall i s, P i s -> cond i = true -> P (i + step) (body i s)) ->
  forall fuel i s, P i s ->
    P (fst (for_loop fuel cond step body i s))
      (snd (for_loop fuel cond step body i s)).
Proof.
  intros Hbody fuel. induction fuel as [| fuel IH]; intros i s HP; simpl.
  - exact HP.
  - destruct (cond i) eqn:Hc; simpl.
    + apply IH. now apply Hbody.
    + exact HP.
Qed.

(** With the fuel of [fuel_for], a loop that only runs below [bound] and
    moves forward stops because its condition fails. *)
Lemma for_loop_exit (bound : N) :
  0 < step ->
  (forall i, cond i = true -> i < bound) ->
  forall fuel i s, (N.to_nat (bound - i) < fuel)%nat ->
    cond (fst (for_loop fuel cond step body i s)) = false.
Proof.
  intros Hstep Hbound fuel. induction fuel as [| fuel IH]; intros i s Hfuel.
  - lia.
  - simpl. destruct (cond i) eqn:Hc; simpl.
    + apply IH. specialize (Hbound _ Hc). lia.
    + exact Hc.
Qed.

End LoopFacts.

Arguments for_loop : simpl never.
Arguments fuel_for : simpl never.

(** ** Masks *)

(** [x & size_t(-4)] is [x] rounded down to a multiple of four. *)
Lemma ldiff_3 (x : N) : N.ldiff x 3 = 4 * (x / 4).
Proof.
  change 3 with (N.ones 2).
  rewrite N.ldiff_ones_r, N.shiftl_mul_pow2, N.shiftr_div_pow2.
  change (2 ^ 2) with 4. lia.
Qed.

Lemma ldiff_3_le (x : N) : N.ldiff x 3 <= x.
Proof.
  rewrite ldiff_3. pose proof (N.Div0.mul_div_le x 4). lia.
Qed.

(** ** Functors on an empty range *)

Section EmptyRange.
Variable T : Type.
Variable cfg : Functors.config.
Variable tr : Functors.operand_traits.

Lemma alloc_size_0 : Functors.alloc_size cfg tr 0 = 0.
Proof. unfold Functors.alloc_size. destruct (Functors.padding cfg); reflexivity. Qed.

Lemma Assign_empty (lhs : Functors.dest T) rhs :
  Functors.Assign cfg lhs rhs 0 = lhs.
Proof.
  unfold Functors.Assign.
  destruct (Functors.unroll_normal_loops cfg); simpl; reflexivity.
Qed.

Lemma scalar_compound_empty op (lhs : Functors.dest T) rhs first :
  Functors.scalar_compound cfg op lhs rhs first first = lhs.
Proof.
  unfold Functors.scalar_compound.
  rewrite N.sub_diag, N.ldiff_0_l, N.add_0_r.
  destruct (Functors.unroll_normal_loops cfg);
    rewrite ?for_loop_stop by apply N.ltb_irrefl; reflexivity.
Qed.

Lemma vectorized_compound_empty op (lhs : Functors.dest T) rhs first :
  Functors.vectorized_compound cfg tr op lhs rhs first first = lhs.
Proof.
  unfold Functors.vectorized_compound.
  rewrite N.sub_diag, alloc_size_0, N.add_0_r.
  assert (Hlast : (if Functors.remainder cfg tr then first else first) = first)
    by now destruct (Functors.remainder cfg tr).
  rewrite Hlast.
  rewrite for_loop_stop by (apply N.ltb_ge; unfold Functors.W; lia).
  rewrite for_loop_stop by (apply N.ltb_ge; unfold Functors.W; lia).
  rewrite for_loop_stop
    by (rewrite N.ltb_irrefl; apply andb_false_r).
  reflexivity.
Qed.

Lemma VectorizedAssign_stream_empty (lhs : Functors.dest T) rhs first :
  Functors.VectorizedAssign_stream cfg tr lhs rhs first first = lhs.
Proof.
  unfold Functors.VectorizedAssign_stream.
  rewrite N.sub_diag, N.ldiff_0_l, N.add_0_r.
  assert (Hlast : (if Functors.remainder cfg tr then first else first) = first)
    by now destruct (Functors.remainder cfg tr).
  rewrite Hlast.
  rewrite for_loop_stop by apply N.ltb_irrefl.
  rewrite for_loop_stop by (rewrite N.ltb_irrefl; apply andb_false_r).
  reflexivity.
Qed.

Lemma VectorizedAssign_store_empty (lhs : Functors.dest T) rhs first :
  Functors.VectorizedAssign_store cfg tr lhs rhs first first = lhs.
Proof.
  unfold Functors.VectorizedAssign_store.
  rewrite N.sub_diag, N.ldiff_0_l, N.add_0_r.
  assert (Hlast : (if Functors.remainder cfg tr then first else first) = first)
    by now destruct (Functors.remainder cfg tr).
  rewrite Hlast.
  rewrite for_loop_stop by (apply N.ltb_ge; lia).
  rewrite for_loop_stop by apply N.ltb_irrefl.
  rewrite for_loop_stop by (rewrite N.ltb_irrefl; apply andb_false_r).
  reflexivity.
Qed.

Lemma VectorizedAssign_empty (lhs : Functors.dest T) rhs alias first :
  Functors.VectorizedAssign cfg tr lhs rhs alias first first = lhs.
Proof.
  unfold Functors.VectorizedAssign.
  destruct (Functors.use_streaming cfg tr alias (first - first)).
  - apply VectorizedAssign_stream_empty.
  - apply VectorizedAssign_store_empty.
Qed.

End EmptyRange.

(** C8.  Every execution functor run on a range of length zero returns the
    destination as it received it: the memory is the same and no write was
    added to the record of the writes, so no iteration of any of its loops
    ran.  This holds for the scalar assign (size 0), the vectorized assign
    (on both the streaming and the cached path), and the scalar and
    vectorized compound add, sub, mul and div ([first = last]), for every
    value of the unrolling, streaming and padding switches and for every
    lane count. *)
Theorem zero_length_range_is_noop :
  forall (T : Type) (cfg : Functors.config) (tr : Functors.operand_traits)
         (add sub mul div : T -> T -> T)
         (lhs : Functors.dest T) (rhs : Functors.reader T) (alias : bool) (first : N),
    Functors.Assign cfg lhs rhs 0 = lhs
    /\ Functors.VectorizedAssign cfg tr lhs rhs alias first first = lhs
    /\ Functors.AssignAdd cfg add lhs rhs first first = lhs
    /\ Functors.AssignSub cfg sub lhs rhs first first = lhs
    /\ Functors.AssignMul cfg mul lhs rhs first first = lhs
    /\ Functors.AssignDiv cfg div lhs rhs first first = lhs
    /\ Functors.VectorizedAssignAdd cfg tr add lhs rhs first first = lhs
    /\ Functors.VectorizedAssignSub cfg tr sub lhs rhs first first = lhs
    /\ Functors.VectorizedAssignMul cfg tr mul lhs rhs first first = lhs
    /\ Functors.VectorizedAssignDiv cfg tr div lhs rhs first first = lhs.
Proof.
  intros. unfold Functors.AssignAdd, Functors.AssignSub, Functors.AssignMul,
    Functors.AssignDiv, Functors.VectorizedAssignAdd, Functors.VectorizedAssignSub,
    Functors.VectorizedAssignMul, Functors.VectorizedAssignDiv.
  repeat split;
    auto using Assign_empty, VectorizedAssign_empty, scalar_compound_empty,
      vectorized_compound_empty.
Qed.

(** ** The scalar expression *)

(** C9.  A scalar expression holding [v] returns [v] from [read_flat],
    [operator[]] and [operator()] at every index, every lane of its vectors
    is [v], and [alias] answers false for every expression of every type.  A
    vectorized assignment of a scalar therefore takes the streaming path
    exactly when streaming is enabled and the range is larger than the
    threshold, whatever the destination is; the reads take no memory as
    input, so no write to a destination changes them. *)
Theorem scalar_reads_value_never_aliases :
  forall (T : Type) (v : T) (d k : N) (args : list N),
    let s := {| Scalar.value := v |} in
    Scalar.read_flat s d = v
    /\ Scalar.index s d = v
    /\ Scalar.call s args = v
    /\ Scalar.load s d k = v
    /\ Scalar.load s d k = Functors.load (Scalar.read_flat s) d k
    /\ (forall (E : Type) (e : E), Scalar.alias s e = false)
    /\ (forall cfg tr (lhs : Functors.dest T) first last,
          Functors.use_streaming cfg tr (Scalar.alias s lhs) (last - first)
          = Functors.streaming cfg
            && (Functors.cache_size cfg / (Functors.sizeof_value tr * 3) <? last - first)
          /\ Functors.VectorizedAssign cfg tr lhs (Scalar.read_flat s)
               (Scalar.alias s lhs) first last
             = if Functors.streaming cfg
                  && (Functors.cache_size cfg / (Functors.sizeof_value tr * 3) <? last - first)
               then Functors.VectorizedAssign_stream cfg tr lhs (Scalar.read_flat s) first last
               else Functors.VectorizedAssign_store cfg tr lhs (Scalar.read_flat s) first last).
Proof.
  intros T v d k args s. repeat split.
  - unfold Functors.use_streaming, Scalar.alias. simpl. apply andb_true_r.
  - unfold Functors.VectorizedAssign, Functors.use_streaming, Scalar.alias. simpl.
    now rewrite andb_true_r.
Qed.

(** ** The 2-D sub matrix view *)

Section SubMatrixFacts.
Import SubMatrix2d.

Lemma window_nonzero (v : sub_matrix_2d) (j : N) :
  j < m v * n v -> m v <> 0 /\ n v <> 0.
Proof. intros H. split; intros E; rewrite E in H; lia. Qed.

(** The flat index of the window cell [(i, jj)] reads the element that the
    2-D accessor of the view reads. *)
Lemma index_call (T : Type) (v : sub_matrix_2d) (sub_expr : N -> T) (i jj : N) :
  i < m v -> jj < n v ->
  index v sub_expr (flat_index (storage_order v) (m v) (n v) i jj)
  = call v sub_expr i jj.
Proof.
  intros Hi Hj. unfold index, call, sub_index, flat_index.
  destruct (storage_order v).
  - replace ((i * n v + jj) / n v) with i.
    replace ((i * n v + jj) mod n v) with jj.
    reflexivity.
    + rewrite N.add_comm, N.Div0.mod_add. symmetry. now apply N.mod_small.
    + rewrite N.add_comm, N.div_add by lia. rewrite N.div_small by lia. lia.
  - replace ((i + jj * m v) / m v) with jj.
    replace ((i + jj * m v) mod m v) with i.
    reflexivity.
    + rewrite N.Div0.mod_add. symmetry. now apply N.mod_small.
    + rewrite N.div_add by lia. rewrite N.div_small by lia. lia.
Qed.

End SubMatrixFacts.

(** C10.  For a flat index [j] below [m * n], [operator[](j)] of a
    sub_matrix_2d view reads the element of the sub expression at row
    [base_i + j / n] and column [base_j + j % n] when the storage order is
    row-major, and at row [base_i + j % m] and column [base_j + j / m] when it
    is column-major; the row offset is below [m] and the column offset below
    [n], so the access stays inside the window. *)
Theorem sub_matrix_2d_index_in_window :
  forall (T : Type) (v : SubMatrix2d.sub_matrix_2d) (sub_expr : N -> T) (j : N),
    j < SubMatrix2d.m v * SubMatrix2d.n v ->
    match SubMatrix2d.storage_order v with
    | RowMajor =>
        SubMatrix2d.index v sub_expr j
        = sub_expr (flat_index RowMajor (SubMatrix2d.base_m v) (SubMatrix2d.base_n v)
                      (SubMatrix2d.base_i v + j / SubMatrix2d.n v)
                      (SubMatrix2d.base_j v + j mod SubMatrix2d.n v))
        /\ j / SubMatrix2d.n v < SubMatrix2d.m v
        /\ j mod SubMatrix2d.n v < SubMatrix2d.n v
    | ColumnMajor =>
        SubMatrix2d.index v sub_expr j
        = sub_expr (flat_index ColumnMajor (SubMatrix2d.base_m v) (SubMatrix2d.base_n v)
                      (SubMatrix2d.base_i v + j mod SubMatrix2d.m v)
                      (SubMatrix2d.base_j v + j / SubMatrix2d.m v))
        /\ j mod SubMatrix2d.m v < SubMatrix2d.m v
        /\ j / SubMatrix2d.m v < SubMatrix2d.n v
    end.
Proof.
  intros T v sub_expr j Hj.
  destruct (window_nonzero v j Hj) as [Hm Hn].
  unfold SubMatrix2d.index, SubMatrix2d.sub_index.
  destruct (SubMatrix2d.storage_order v); simpl; repeat split.
  - apply N.Div0.div_lt_upper_bound. lia.
  - now apply N.mod_lt.
  - now apply N.mod_lt.
  - apply N.Div0.div_lt_upper_bound. lia.
Qed.

Lemma sub_matrix_2d_index_in_window_witness :
  4 < SubMatrix2d.m window_2x3 * SubMatrix2d.n window_2x3
  /\ SubMatrix2d.index window_2x3 (fun k => k) 4
     = flat_index RowMajor 4 6 (1 + 4 / 3) (2 + 4 mod 3)
  /\ 4 / 3 < 2 /\ 4 mod 3 < 3.
Proof.
  split; [ reflexivity | ].
  apply (sub_matrix_2d_index_in_window N window_2x3 (fun k => k) 4).
  reflexivity.
Defined.

(** ** Forced gemm implementations *)

(** C7.  When the local context forces a gemm implementation that the
    selector finds not possible for the operands (CUBLAS without cublas or
    without direct memory access, BLAS likewise, EBLAS for a complex element
    type; in gemm_expr CUBLAS, BLAS or VEC without the build switch or with
    operands that are not homogeneous or not vectorizable), the selector
    writes one line on the error channel and returns the implementation that
    the default selection gives for the same operands.  Both selectors are
    total functions of their inputs: there is no failure result. *)
Theorem forced_gemm_not_possible_falls_back :
  (forall (cfg : Mmul.config) (DMA is_complex : bool) (ctx : Mmul.gemm_selector)
          (n1 n2 n3 : N),
      Mmul.forced ctx = true ->
      Mmul.not_possible cfg DMA is_complex (Mmul.impl ctx) = true ->
      exists line,
        Mmul.select_gemm_impl cfg DMA is_complex ctx n1 n2 n3
        = {| diagnostics := [line];
             chosen := Mmul.select_default_gemm_impl cfg DMA is_complex n1 n2 n3 |})
  /\
  (forall (cfg : GemmExpr.config) (homogeneous vectorizable : bool)
          (ctx : GemmExpr.gemm_selector) (n1 n2 n3 : N),
      GemmExpr.forced ctx = true ->
      GemmExpr.not_possible cfg homogeneous vectorizable (GemmExpr.impl ctx) = true ->
      exists line,
        GemmExpr.select_gemm_impl cfg homogeneous vectorizable ctx n1 n2 n3
        = {| diagnostics := [line];
             chosen := GemmExpr.select_default_gemm_impl cfg homogeneous vectorizable n1 n2 n3 |}).
Proof.
  split.
  - intros cfg DMA cx [f i] n1 n2 n3 Hf Hn. simpl in Hf, Hn. subst f.
    unfold Mmul.select_gemm_impl. simpl.
    destruct i; simpl in Hn; try discriminate; rewrite Hn; eexists; reflexivity.
  - intros cfg homo vect [f i] n1 n2 n3 Hf Hn. simpl in Hf, Hn. subst f.
    unfold GemmExpr.select_gemm_impl. simpl.
    destruct i; simpl in Hn; try discriminate; rewrite Hn; eexists; reflexivity.
Qed.

(** EBLAS forced for a complex element type, and CUBLAS forced in a build
    without cublas. *)
Lemma forced_gemm_not_possible_falls_back_witness :
  (exists line,
      Mmul.select_gemm_impl cblas_only true true
        {| Mmul.forced := true; Mmul.impl := Mmul.FAST |} 100 100 100
      = {| diagnostics := [line]; chosen := Mmul.BLAS |})
  /\
  (exists line,
      GemmExpr.select_gemm_impl vec_only true true
        {| GemmExpr.forced := true; GemmExpr.impl := GemmExpr.CUBLAS |} 100 100 100
      = {| diagnostics := [line]; chosen := GemmExpr.VEC |}).
Proof.
  split.
  - apply (proj1 forced_gemm_not_possible_falls_back cblas_only true true
             {| Mmul.forced := true; Mmul.impl := Mmul.FAST |} 100 100 100);
      reflexivity.
  - apply (proj2 forced_gemm_not_possible_falls_back vec_only true true
             {| GemmExpr.forced := true; GemmExpr.impl := GemmExpr.CUBLAS |} 100 100 100);
      reflexivity.
Defined.

(** A forced implementation that is possible is returned without a line. *)
Lemma forced_gemm_possible (cfg : Mmul.config) (DMA is_complex : bool)
      (ctx : Mmul.gemm_selector) (n1 n2 n3 : N) :
  Mmul.forced ctx = true ->
  Mmul.not_possible cfg DMA is_complex (Mmul.impl ctx) = false ->
  Mmul.select_gemm_impl cfg DMA is_complex ctx n1 n2 n3
  = {| diagnostics := []; chosen := Mmul.impl ctx |}.
Proof.
  destruct ctx as [f i]. simpl. intros -> Hn.
  unfold Mmul.select_gemm_impl. simpl.
  destruct i; simpl in Hn; try rewrite Hn; reflexivity.
Qed.

(** ** Selection of the compound divide *)

Section DivFacts.
Variable cfg : build.
Variables E R : etl_traits.

(** The three CPU selectors of the compound divide split the cases. *)
Lemma div_selectors_exclusive :
  (Selectors.vectorized_compound_div cfg E R = true
   /\ Selectors.direct_compound_div cfg E R = false
   /\ Selectors.standard_compound_div cfg E R = false)
  \/ (Selectors.vectorized_compound_div cfg E R = false
      /\ Selectors.direct_compound_div cfg E R = true
      /\ Selectors.standard_compound_div cfg E R = false)
  \/ (Selectors.vectorized_compound_div cfg E R = false
      /\ Selectors.direct_compound_div cfg E R = false
      /\ Selectors.standard_compound_div cfg E R = true).
Proof.
  unfold Selectors.standard_compound_div, Selectors.direct_compound_div.
  destruct (Selectors.vectorized_compound_div cfg E R), (has_direct_access R);
    simpl; tauto.
Qed.

Lemma integer_not_vectorized_div :
  is_floating_t (value_t E) = false -> is_complex_t (value_t E) = false ->
  Selectors.vectorized_compound_div cfg E R = false.
Proof. unfold Selectors.vectorized_compound_div. now intros -> ->. Qed.

End DivFacts.

(** C6.  Whatever the build and the operand types, a compound divide that
    runs the vectorized implementation has a source whose element type is
    floating-point or complex.  For an element type that is neither, a
    compound divide that compiles runs the direct or the standard
    implementation, and in a build without the two GPU overloads it always
    compiles: it runs the direct implementation when the destination has
    direct memory access and the standard one otherwise. *)
Theorem compound_div_vectorized_only_floating_or_complex :
  forall (cfg : build) (gpu_compound_div : etl_traits -> etl_traits -> bool)
         (E R : etl_traits),
    (Dispatch.div_evaluate cfg gpu_compound_div E R = Some Dispatch.vectorized_impl ->
     is_floating_t (value_t E) = true \/ is_complex_t (value_t E) = true)
    /\ (Selectors.vectorized_compound_div cfg E R = true ->
        is_floating_t (value_t E) = true \/ is_complex_t (value_t E) = true)
    /\ (is_floating_t (value_t E) = false -> is_complex_t (value_t E) = false ->
        (forall i, Dispatch.div_evaluate cfg gpu_compound_div E R = Some i ->
                   i = Dispatch.direct_impl \/ i = Dispatch.standard_impl)
        /\ (ETL_EGBLAS_MODE cfg = false -> ETL_CUBLAS_MODE cfg = false ->
            Dispatch.div_evaluate cfg gpu_compound_div E R
            = Some (if has_direct_access R then Dispatch.direct_impl
                    else Dispatch.standard_impl))).
Proof.
  intros cfg g E R.
  assert (Hsel : Selectors.vectorized_compound_div cfg E R = true ->
                 is_floating_t (value_t E) = true \/ is_complex_t (value_t E) = true).
  { unfold Selectors.vectorized_compound_div. intros H.
    apply andb_prop in H. destruct H as [H _]. now apply orb_prop in H. }
  assert (Hint : is_floating_t (value_t E) = false -> is_complex_t (value_t E) = false ->
                 (forall i, Dispatch.div_evaluate cfg g E R = Some i ->
                            i = Dispatch.direct_impl \/ i = Dispatch.standard_impl)
                 /\ (ETL_EGBLAS_MODE cfg = false -> ETL_CUBLAS_MODE cfg = false ->
                     Dispatch.div_evaluate cfg g E R
                     = Some (if has_direct_access R then Dispatch.direct_impl
                             else Dispatch.standard_impl))).
  { intros Hf Hc.
    pose proof (integer_not_vectorized_div cfg E R Hf Hc) as Hv.
    unfold Dispatch.div_evaluate, Dispatch.div_overloads, resolve,
      Selectors.standard_compound_div, Selectors.direct_compound_div.
    rewrite Hv. simpl.
    split.
    - intros i.
      destruct (has_direct_access R), (ETL_EGBLAS_MODE cfg), (ETL_CUBLAS_MODE cfg),
        (g E R), (is_scalar E); simpl; intros H; inversion H; auto.
    - intros -> ->. destruct (has_direct_access R); reflexivity. }
  split; [ | split; assumption ].
  intros Hd.
  destruct (is_floating_t (value_t E)) eqn:Hf; [ now left | ].
  destruct (is_complex_t (value_t E)) eqn:Hc; [ now right | ].
  destruct (Hint eq_refl eq_refl) as [Hi _].
  destruct (Hi _ Hd); discriminate.
Qed.

(** ** What the compound functors write *)

Ltac by_cases :=
  repeat match goal with
         | |- context [N.eqb ?a ?b] => destruct (N.eqb_spec a b)
         | |- context [N.leb ?a ?b] => destruct (N.leb_spec a b)
         | |- context [N.ltb ?a ?b] => destruct (N.ltb_spec a b)
         end;
  simpl; try reflexivity; try lia.

Section CompoundFacts.
Variable T : Type.
Variable cfg : Functors.config.
Variable tr : Functors.operand_traits.
Variable op : T -> T -> T.
Variable rhs : Functors.reader T.

Local Abbreviation W := (Functors.W tr).

Lemma W_pos : 0 < W.
Proof. unfold Functors.W. lia. Qed.

Lemma modify_mem (i : N) (d : Functors.dest T) (j : N) :
  Functors.mem (Functors.modify op rhs i d) j
  = if j =? i then op (Functors.mem d i) (rhs i) else Functors.mem d j.
Proof. reflexivity. Qed.

Lemma vmodify_mem (i : N) (d : Functors.dest T) (j : N) :
  Functors.mem (Functors.vmodify tr op rhs i d) j
  = if (i <=? j) && (j <? i + W) then op (Functors.mem d j) (rhs j)
    else Functors.mem d j.
Proof.
  unfold Functors.vmodify, Functors.put, Functors.lanewise, Functors.load. simpl.
  by_cases. now replace (i + (j - i)) with j by lia.
Qed.

(** One scalar step extends the part already combined by one element. *)
Lemma modify_extends (m0 : Functors.memory T) (a i : N) (d : Functors.dest T) :
  a <= i ->
  (forall j, Functors.mem d j = combined op rhs a i m0 j) ->
  forall j, Functors.mem (Functors.modify op rhs i d) j = combined op rhs a (i + 1) m0 j.
Proof.
  intros Ha H j. rewrite modify_mem, !H. unfold combined.
  by_cases; subst; reflexivity || lia.
Qed.

(** One vector step extends it by the lanes of a vector. *)
Lemma vmodify_extends (m0 : Functors.memory T) (a i : N) (d : Functors.dest T) :
  a <= i ->
  (forall j, Functors.mem d j = combined op rhs a i m0 j) ->
  forall j, Functors.mem (Functors.vmodify tr op rhs i d) j = combined op rhs a (i + W) m0 j.
Proof.
  intros Ha H j. rewrite vmodify_mem, !H. unfold combined.
  pose proof W_pos. by_cases.
Qed.

(** The scalar tail loop, from a memory combined on [a, i), leaves it
    combined on [a, last). *)
Lemma tail_loop (m0 : Functors.memory T) (a last i : N) (d : Functors.dest T) (fuel : nat) :
  a <= i -> i <= last ->
  (N.to_nat (last - i) < fuel)%nat ->
  (forall j, Functors.mem d j = combined op rhs a i m0 j) ->
  forall j,
    Functors.mem (snd (for_loop fuel (fun i => i <? last) 1 (Functors.modify op rhs) i d)) j
    = combined op rhs a last m0 j.
Proof.
  intros Ha Hi Hfuel Hd.
  set (r := for_loop fuel (fun i => i <? last) 1 (Functors.modify op rhs) i d).
  assert (Hinv : (a <= fst r /\ fst r <= last)
                 /\ forall j, Functors.mem (snd r) j = combined op rhs a (fst r) m0 j).
  { apply (for_loop_invariant (fun i => i <? last) 1 (Functors.modify op rhs)
             (fun i d => (a <= i /\ i <= last)
                         /\ forall j, Functors.mem d j = combined op rhs a i m0 j)).
    - intros i' d' [[Ha' Hi'] Hd'] Hc. apply N.ltb_lt in Hc.
      split; [ lia | ]. now apply modify_extends.
    - now split. }
  assert (Hexit : (fst r <? last) = false).
  { apply (for_loop_exit (fun i => i <? last) 1 (Functors.modify op rhs) last).
    - lia.
    - intros i' Hc. now apply N.ltb_lt.
    - exact Hfuel. }
  apply N.ltb_ge in Hexit. destruct Hinv as [[_ Hle] Hmem].
  intros j. rewrite Hmem. now replace (fst r) with last by lia.
Qed.

(** The loop unrolled four times, on a range of a multiple of four elements. *)
Lemma unrolled_loop (m0 : Functors.memory T) (a i k : N) (d : Functors.dest T) (fuel : nat) :
  a <= i ->
  (N.to_nat (4 * k) < fuel)%nat ->
  (forall j, Functors.mem d j = combined op rhs a i m0 j) ->
  forall j,
    Functors.mem
      (snd (for_loop fuel (fun x => x <? i + 4 * k) 4
              (fun x d => Functors.modify op rhs (x + 3)
                            (Functors.modify op rhs (x + 2)
                               (Functors.modify op rhs (x + 1)
                                  (Functors.modify op rhs x d)))) i d)) j
    = combined op rhs a (i + 4 * k) m0 j.
Proof.
  intros Ha Hfuel Hd.
  set (iend := i + 4 * k).
  set (body := fun x d => Functors.modify op rhs (x + 3)
                            (Functors.modify op rhs (x + 2)
                               (Functors.modify op rhs (x + 1)
                                  (Functors.modify op rhs x d)))).
  set (r := for_loop fuel (fun x => x <? iend) 4 body i d).
  assert (Hinv : (a <= fst r /\ exists q, iend = fst r + 4 * q)
                 /\ forall j, Functors.mem (snd r) j = combined op rhs a (fst r) m0 j).
  { apply (for_loop_invariant (fun x => x <? iend) 4 body
             (fun x d => (a <= x /\ exists q, iend = x + 4 * q)
                         /\ forall j, Functors.mem d j = combined op rhs a x m0 j)).
    - intros x d' [[Ha' [q Hq]] Hd'] Hc. apply N.ltb_lt in Hc.
      split.
      + split; [ lia | ]. exists (q - 1). lia.
      + unfold body.
        replace (x + 4) with (x + 3 + 1) by lia.
        apply modify_extends; [ lia | ].
        replace (x + 3) with (x + 2 + 1) by lia.
        apply modify_extends; [ lia | ].
        replace (x + 2) with (x + 1 + 1) by lia.
        apply modify_extends; [ lia | ].
        now apply modify_extends.
    - split; [ split; [ exact Ha | now exists k ] | exact Hd ]. }
  assert (Hexit : (fst r <? iend) = false).
  { apply (for_loop_exit (fun x => x <? iend) 4 body iend).
    - lia.
    - intros x Hc. now apply N.ltb_lt.
    - unfold iend. replace (i + 4 * k - i) with (4 * k) by lia. exact Hfuel. }
  apply N.ltb_ge in Hexit. destruct Hinv as [[_ [q Hq]] Hmem].
  intros j. rewrite Hmem. now replace (fst r) with iend by lia.
Qed.

(** The scalar compound functor combines every element of its range with
    the element of the source, and nothing else. *)
Lemma scalar_compound_mem (lhs : Functors.dest T) (first last : N) :
  first <= last ->
  forall j,
    Functors.mem (Functors.scalar_compound cfg op lhs rhs first last) j
    = combined op rhs first last (Functors.mem lhs) j.
Proof.
  intros Hle. unfold Functors.scalar_compound.
  assert (H0 : forall j, Functors.mem lhs j = combined op rhs first first (Functors.mem lhs) j).
  { intros j. unfold combined. by_cases. }
  destruct (Functors.unroll_normal_loops cfg).
  - pose proof (ldiff_3_le (last - first)) as Hmask.
    apply tail_loop.
    + lia.
    + lia.
    + unfold fuel_for. lia.
    + rewrite ldiff_3. generalize ((last - first) / 4). intros q.
      apply unrolled_loop; [ lia | | exact H0 ].
      unfold fuel_for. lia.
  - apply tail_loop; [ lia | lia | unfold fuel_for; lia | exact H0 ].
Qed.

(** A loop of vector steps: while its condition leaves room for a step
    below [bound], it extends the combined part by whole vectors. *)
Lemma vector_loop (cond : N -> bool) (c : N) (body : N -> Functors.dest T -> Functors.dest T)
      (m0 : Functors.memory T) (a bound : N) :
  0 < c ->
  (forall i, cond i = true -> i + c * W <= bound) ->
  (forall i d, a <= i ->
     (forall j, Functors.mem d j = combined op rhs a i m0 j) ->
     forall j, Functors.mem (body i d) j = combined op rhs a (i + c * W) m0 j) ->
  forall (fuel : nat) (i : N) (d : Functors.dest T),
    a <= i -> i <= bound -> (exists k, i = a + k * W) ->
    (forall j, Functors.mem d j = combined op rhs a i m0 j) ->
    (N.to_nat (bound - i) < fuel)%nat ->
    let r := for_loop fuel cond (c * W) body i d in
    a <= fst r /\ fst r <= bound /\ (exists k, fst r = a + k * W)
    /\ (forall j, Functors.mem (snd r) j = combined op rhs a (fst r) m0 j)
    /\ cond (fst r) = false.
Proof.
  intros Hc Hroom Hbody fuel i d Ha Hi Hk Hd Hfuel r.
  pose proof W_pos as HW.
  assert (Hinv : (a <= fst r /\ fst r <= bound /\ exists k, fst r = a + k * W)
                 /\ forall j, Functors.mem (snd r) j = combined op rhs a (fst r) m0 j).
  { apply (for_loop_invariant cond (c * W) body
             (fun i d => (a <= i /\ i <= bound /\ exists k, i = a + k * W)
                         /\ forall j, Functors.mem d j = combined op rhs a i m0 j)).
    - intros x d' [[Ha' [Hx [k Hk']]] Hd'] Hcond.
      specialize (Hroom _ Hcond).
      split; [ | now apply Hbody ].
      split; [ lia | split; [ exact Hroom | ] ].
      exists (k + c). lia.
    - now repeat split. }
  assert (Hexit : cond (fst r) = false).
  { apply (for_loop_exit cond (c * W) body bound).
    - lia.
    - intros x Hcond. specialize (Hroom _ Hcond). lia.
    - exact Hfuel. }
  destruct Hinv as [[H1 [H2 H3]] H4]. now repeat split.
Qed.

Lemma four_vectors (m0 : Functors.memory T) (a i : N) (d : Functors.dest T) :
  a <= i ->
  (forall j, Functors.mem d j = combined op rhs a i m0 j) ->
  forall j,
    Functors.mem
      (Functors.vmodify tr op rhs (i + 3 * W)
         (Functors.vmodify tr op rhs (i + 2 * W)
            (Functors.vmodify tr op rhs (i + 1 * W)
               (Functors.vmodify tr op rhs i d)))) j
    = combined op rhs a (i + 4 * W) m0 j.
Proof.
  intros Ha Hd.
  replace (i + 4 * W) with (i + 3 * W + W) by lia.
  apply vmodify_extends; [ lia | ].
  replace (i + 3 * W) with (i + 2 * W + W) by lia.
  apply vmodify_extends; [ lia | ].
  replace (i + 2 * W) with (i + 1 * W + W) by lia.
  apply vmodify_extends; [ lia | ].
  replace (i + 1 * W) with (i + W) by lia.
  now apply vmodify_extends.
Qed.

(** The two vector loops of the vectorized compound functor, run below
    [bound] from [first]. *)
Lemma vector_loops (lhs : Functors.dest T) (first bound : N) :
  first <= bound ->
  let fuel := fuel_for bound first in
  let r1 := for_loop fuel (fun i => i + W * 4 - 1 <? bound) (W * 4)
              (fun i d => Functors.vmodify tr op rhs (i + 3 * W)
                            (Functors.vmodify tr op rhs (i + 2 * W)
                               (Functors.vmodify tr op rhs (i + 1 * W)
                                  (Functors.vmodify tr op rhs i d)))) first lhs in
  let r2 := for_loop fuel (fun i => i + W - 1 <? bound) W
              (Functors.vmodify tr op rhs) (fst r1) (snd r1) in
  first <= fst r2 /\ fst r2 <= bound /\ bound < fst r2 + W
  /\ (exists k, fst r2 = first + k * W)
  /\ (forall j, Functors.mem (snd r2) j
                = combined op rhs first (fst r2) (Functors.mem lhs) j).
Proof.
  intros Hle fuel r1 r2. pose proof W_pos as HW.
  assert (H0 : forall j, Functors.mem lhs j
                         = combined op rhs first first (Functors.mem lhs) j).
  { intros j. unfold combined. by_cases. }
  assert (H1 : first <= fst r1 /\ fst r1 <= bound /\ (exists k, fst r1 = first + k * W)
               /\ (forall j, Functors.mem (snd r1) j
                             = combined op rhs first (fst r1) (Functors.mem lhs) j)
               /\ (fst r1 + W * 4 - 1 <? bound) = false).
  { unfold r1. replace (W * 4) with (4 * W) by lia.
    apply (vector_loop (fun i => i + 4 * W - 1 <? bound) 4).
    - lia.
    - intros i Hc. apply N.ltb_lt in Hc. lia.
    - intros i d Ha Hd. now apply four_vectors.
    - lia.
    - exact Hle.
    - exists 0. lia.
    - exact H0.
    - unfold fuel, fuel_for. lia. }
  destruct H1 as [Ha1 [Hb1 [Hk1 [Hm1 _]]]].
  assert (H2 : first <= fst r2 /\ fst r2 <= bound /\ (exists k, fst r2 = first + k * W)
               /\ (forall j, Functors.mem (snd r2) j
                             = combined op rhs first (fst r2) (Functors.mem lhs) j)
               /\ (fst r2 + W - 1 <? bound) = false).
  { unfold r2. replace W with (1 * W) at 2 4 by lia.
    apply (vector_loop (fun i => i + W - 1 <? bound) 1).
    - lia.
    - intros i Hc. apply N.ltb_lt in Hc. lia.
    - intros i d Ha Hd. replace (i + 1 * W) with (i + W) by lia.
      now apply vmodify_extends.
    - exact Ha1.
    - exact Hb1.
    - exact Hk1.
    - exact Hm1.
    - unfold fuel, fuel_for. lia. }
  destruct H2 as [Ha2 [Hb2 [Hk2 [Hm2 Hx2]]]].
  apply N.ltb_ge in Hx2.
  repeat split; try assumption. lia.
Qed.

(** With the scalar remainder tail compiled in, the vectorized compound
    functor combines every element of its range, and nothing else. *)
Lemma vectorized_compound_mem (lhs : Functors.dest T) (first last : N) :
  Functors.remainder cfg tr = true ->
  first <= last ->
  forall j,
    Functors.mem (Functors.vectorized_compound cfg tr op lhs rhs first last) j
    = combined op rhs first last (Functors.mem lhs) j.
Proof.
  intros Hrem Hle. unfold Functors.vectorized_compound. rewrite Hrem.
  pose proof (vector_loops lhs first last Hle) as H. cbv zeta in H.
  destruct (for_loop (fuel_for last first) (fun i => i + W * 4 - 1 <? last) (W * 4) _ first lhs)
    as [i1 d1] eqn:E1.
  cbn [fst snd] in H.
  destruct (for_loop (fuel_for last first) (fun i => i + W - 1 <? last) W _ i1 d1)
    as [i2 d2] eqn:E2.
  cbn [fst snd] in H. destruct H as [Ha [Hb [_ [_ Hm]]]].
  pose proof (tail_loop (Functors.mem lhs) first last i2 d2 (fuel_for last first)
                Ha Hb) as Ht.
  destruct (for_loop (fuel_for last first) (fun i => true && (i <? last)) 1 _ i2 d2)
    as [i3 d3] eqn:E3.
  change (fun i => true && (i <? last)) with (fun i => i <? last) in E3.
  rewrite E3 in Ht. simpl in Ht. apply Ht; [ unfold fuel_for; lia | exact Hm ].
Qed.

(** The size a padded container is allocated with is a multiple of the
    padding unit and is not below the size asked for. *)
Lemma alloc_size_padded (size : N) :
  Functors.padding cfg = true ->
  size <= Functors.alloc_size cfg tr size
  /\ exists q, Functors.alloc_size cfg tr size = q * N.pos (Functors.default_size tr).
Proof.
  intros Hp. unfold Functors.alloc_size. rewrite Hp.
  set (p := N.pos (Functors.default_size tr)).
  assert (Hp0 : p <> 0) by (unfold p; lia).
  pose proof (N.div_mod size p Hp0) as Hdm.
  pose proof (N.mod_lt size p Hp0) as Hlt.
  destruct (N.eqb_spec (size mod p) 0) as [E | E].
  - split; [ lia | ]. exists (size / p). lia.
  - split; [ lia | ]. exists (size / p + 1). lia.
Qed.

(** With the remainder tail eliminated (padded operands), the vectorized
    compound functor combines whole vectors up to the allocated size of the
    range, which may lie beyond [last]. *)
Lemma vectorized_compound_mem_padded (lhs : Functors.dest T) (first last : N) :
  Functors.remainder cfg tr = false ->
  (exists c, N.pos (Functors.default_size tr) = c * W) ->
  forall j,
    Functors.mem (Functors.vectorized_compound cfg tr op lhs rhs first last) j
    = combined op rhs first (first + Functors.alloc_size cfg tr (last - first))
        (Functors.mem lhs) j.
Proof.
  intros Hrem [c Hc]. unfold Functors.vectorized_compound. rewrite Hrem.
  assert (Hpad : Functors.padding cfg = true).
  { unfold Functors.remainder in Hrem. destruct (Functors.padding cfg); [ reflexivity | discriminate ]. }
  destruct (alloc_size_padded (last - first) Hpad) as [_ [q Hq]].
  set (bound := first + Functors.alloc_size cfg tr (last - first)).
  assert (Hle : first <= bound) by (unfold bound; lia).
  pose proof (vector_loops lhs first bound Hle) as H. cbv zeta in H.
  destruct (for_loop (fuel_for bound first) (fun i => i + W * 4 - 1 <? bound) (W * 4) _ first lhs)
    as [i1 d1] eqn:E1.
  cbn [fst snd] in H.
  destruct (for_loop (fuel_for bound first) (fun i => i + W - 1 <? bound) W _ i1 d1)
    as [i2 d2] eqn:E2.
  cbn [fst snd] in H. destruct H as [Ha [Hb [Hx [[k Hk] Hm]]]].
  rewrite for_loop_stop by reflexivity.
  assert (Hi2 : i2 = bound).
  { assert (Hb' : bound = first + (q * c) * W) by (unfold bound; rewrite Hq, Hc; lia).
    pose proof W_pos as HW.
    assert (q * c < k + 1) by nia.
    assert (k <= q * c) by nia.
    assert (k = q * c) by lia. subst k. lia. }
  intros j. rewrite Hm. now rewrite Hi2.
Qed.

End CompoundFacts.

(** ** Vectorized against scalar compound add *)

(** C3.  For every element count [N] (so for every [N] from 0 up to
    [4 * IT::size * 3 + 1]) and every range [first, first + N), the
    vectorized compound add leaves over the range the contents that the
    scalar compound add leaves:
    - when the scalar remainder tail is compiled in ([remainder], that is
      padding disabled or operands not both padded), the vectorized functor
      (loop of four vectors, loop of one vector, scalar tail) leaves the
      destination memory equal to the one the scalar functor leaves, at every
      index, in the range and outside of it;
    - when the tail is eliminated (padded operands, the padding unit a
      multiple of the lane count), the two memories agree at every index of
      the range (and before it, and from [first + alloc_size(N)] on); the
      whole vectors of the vectorized functor also reach the elements from
      [first + N] up to [first + alloc_size(N)], past the end of the range,
      where the padding of the destination lies. *)
Theorem vectorized_add_matches_scalar_add :
  forall (T : Type) (cfg : Functors.config) (tr : Functors.operand_traits)
         (add : T -> T -> T) (lhs : Functors.dest T) (rhs : Functors.reader T)
         (first N : N),
    (Functors.remainder cfg tr = true ->
     forall j,
       Functors.mem (Functors.VectorizedAssignAdd cfg tr add lhs rhs first (first + N)) j
       = Functors.mem (Functors.AssignAdd cfg add lhs rhs first (first + N)) j)
    /\ (Functors.remainder cfg tr = false ->
        (exists c, N.pos (Functors.default_size tr) = c * Functors.W tr) ->
        forall j,
          (j < first + N \/ first + Functors.alloc_size cfg tr N <= j ->
           Functors.mem (Functors.VectorizedAssignAdd cfg tr add lhs rhs first (first + N)) j
           = Functors.mem (Functors.AssignAdd cfg add lhs rhs first (first + N)) j)
          /\ (first + N <= j < first + Functors.alloc_size cfg tr N ->
              Functors.mem (Functors.VectorizedAssignAdd cfg tr add lhs rhs first (first + N)) j
              = add (Functors.mem lhs j) (rhs j))).
Proof.
  intros T cfg tr add lhs rhs first n.
  unfold Functors.VectorizedAssignAdd, Functors.AssignAdd.
  assert (Hle : first <= first + n) by lia.
  split.
  - intros Hrem j.
    rewrite vectorized_compound_mem by assumption.
    now rewrite scalar_compound_mem by assumption.
  - intros Hrem Hc j.
    rewrite vectorized_compound_mem_padded by assumption.
    rewrite scalar_compound_mem by assumption.
    replace (first + n - first) with n by lia.
    assert (Hpad : Functors.padding cfg = true).
    { unfold Functors.remainder in Hrem.
      destruct (Functors.padding cfg); [ reflexivity | discriminate ]. }
    destruct (alloc_size_padded cfg tr n Hpad) as [Hge _].
    unfold combined. split; intros Hj; by_cases.
Qed.

(** The range [3, 8) with the tail compiled in, and the range [0, 5) of
    padded operands. *)
Lemma vectorized_add_matches_scalar_add_witness :
  (Functors.remainder plain_build four_lanes = true
   /\ forall j,
        Functors.mem (Functors.VectorizedAssignAdd plain_build four_lanes N.add zeros ones 3 (3 + 5)) j
        = Functors.mem (Functors.AssignAdd plain_build N.add zeros ones 3 (3 + 5)) j)
  /\ (Functors.remainder padded_build four_lanes = false
      /\ (exists c, N.pos (Functors.default_size four_lanes) = c * Functors.W four_lanes)
      /\ forall j, j < 0 + 5 ->
           Functors.mem (Functors.VectorizedAssignAdd padded_build four_lanes N.add zeros ones
                           0 (0 + 5)) j
           = Functors.mem (Functors.AssignAdd padded_build N.add zeros ones 0 (0 + 5)) j).
Proof.
  split.
  - split; [ reflexivity | ].
    apply (proj1 (vectorized_add_matches_scalar_add N plain_build four_lanes N.add zeros ones 3 5)).
    reflexivity.
  - split; [ reflexivity | ].
    assert (Hc : exists c, N.pos (Functors.default_size four_lanes) = c * Functors.W four_lanes)
      by (exists 1; reflexivity).
    split; [ exact Hc | ].
    intros j Hj.
    apply (proj1 (proj2 (vectorized_add_matches_scalar_add N padded_build four_lanes N.add
                           zeros ones 0 5) eq_refl Hc j)).
    left. exact Hj.
Defined.

(** Past the end of the range: with the tail eliminated, on the range
    [0, 5) the vectorized compound add runs two vectors of four lanes and
    also adds the source to the elements 5, 6 and 7, which are not in the
    range and which the scalar compound add leaves alone. *)
Lemma vectorized_add_differs_when_padded :
  5 <= 4 * Functors.W four_lanes * 3 + 1
  /\ Functors.mem (Functors.VectorizedAssignAdd padded_build four_lanes N.add zeros ones 0 5) 5 = 1
  /\ Functors.mem (Functors.AssignAdd padded_build N.add zeros ones 0 5) 5 = 0
  /\ ~ (forall j,
          Functors.mem (Functors.VectorizedAssignAdd padded_build four_lanes N.add zeros ones 0 5) j
          = Functors.mem (Functors.AssignAdd padded_build N.add zeros ones 0 5) j).
Proof.
  split; [ vm_compute; discriminate | ].
  split; [ reflexivity | ]. split; [ reflexivity | ].
  intros H. specialize (H 5). vm_compute in H. discriminate.
Qed.

(** ** The streaming path of the vectorized assign *)

Section StreamingFacts.
Variable T : Type.
Variable cfg : Functors.config.
Variable tr : Functors.operand_traits.

(** A property of the state that every iteration keeps holds after a loop. *)
Lemma for_loop_keeps {S : Type} (P : S -> Prop) cond step (body : N -> S -> S) :
  (forall i s, P s -> P (body i s)) ->
  forall fuel i s, P s -> P (snd (for_loop fuel cond step body i s)).
Proof.
  intros Hbody fuel i s Hs.
  apply (for_loop_invariant cond step body (fun _ s => P s)); auto.
Qed.

Lemma put_vector_no_stream (d0 : Functors.dest T) W v i (d : Functors.dest T) :
  no_new_stream d0 d -> no_new_stream d0 (Functors.put W Functors.VectorStore v i d).
Proof.
  intros H x [E | Hin]; [ discriminate | now apply H ].
Qed.

Lemma write_no_stream (d0 : Functors.dest T) i v (d : Functors.dest T) :
  no_new_stream d0 d -> no_new_stream d0 (Functors.write i v d).
Proof.
  intros H x [E | Hin]; [ discriminate | now apply H ].
Qed.

(** The cached path does no non-temporal store. *)
Lemma store_path_no_stream (lhs : Functors.dest T) rhs first last :
  no_new_stream lhs (Functors.VectorizedAssign_store cfg tr lhs rhs first last).
Proof.
  unfold Functors.VectorizedAssign_store.
  match goal with
  | |- context [for_loop ?f ?c ?s ?b first lhs] =>
      pose proof (for_loop_keeps (no_new_stream lhs) c s b) as H1;
      specialize (H1 (fun i d Hd =>
                        put_vector_no_stream _ _ _ _ _
                          (put_vector_no_stream _ _ _ _ _
                             (put_vector_no_stream _ _ _ _ _
                                (put_vector_no_stream _ _ _ _ _ Hd)))) f first lhs
                     (fun _ Hin => Hin));
      destruct (for_loop f c s b first lhs) as [i1 d1]
  end.
  cbn [snd] in H1.
  match goal with
  | |- context [for_loop ?f ?c ?s ?b i1 d1] =>
      pose proof (for_loop_keeps (no_new_stream lhs) c s b) as H2;
      specialize (H2 (fun i d Hd => put_vector_no_stream _ _ _ _ _ Hd) f i1 d1 H1);
      destruct (for_loop f c s b i1 d1) as [i2 d2]
  end.
  cbn [snd] in H2.
  match goal with
  | |- context [for_loop ?f ?c ?s ?b i2 d2] =>
      pose proof (for_loop_keeps (no_new_stream lhs) c s b) as H3;
      specialize (H3 (fun i d Hd => write_no_stream _ _ _ _ Hd) f i2 d2 H2);
      destruct (for_loop f c s b i2 d2) as [i3 d3]
  end.
  exact H3.
Qed.

Lemma use_streaming_iff alias size :
  Functors.use_streaming cfg tr alias size = true
  <-> Functors.streaming cfg = true
      /\ Functors.cache_size cfg / (Functors.sizeof_value tr * 3) < size
      /\ alias = false.
Proof.
  unfold Functors.use_streaming.
  rewrite !andb_true_iff, N.ltb_lt, negb_true_iff. tauto.
Qed.

End StreamingFacts.

(** C4.  A vectorized plain assignment whose source aliases the destination
    fails the test of the streaming path: it runs the cached path, its
    result is the result of the cached path, and it adds no non-temporal
    store to the writes of the destination.  For every answer of the alias
    test, the streaming path is taken exactly when streaming is enabled, the
    size of the range exceeds the cache size divided by three times the size
    of an element, and the source does not alias the destination; an
    assignment that did a non-temporal store meets the three conditions. *)
Theorem aliased_assign_never_streams :
  forall (T : Type) (cfg : Functors.config) (tr : Functors.operand_traits)
         (lhs : Functors.dest T) (rhs : Functors.reader T) (first last : N),
    Functors.use_streaming cfg tr true (last - first) = false
    /\ Functors.VectorizedAssign cfg tr lhs rhs true first last
       = Functors.VectorizedAssign_store cfg tr lhs rhs first last
    /\ (forall i,
          In (Functors.StreamStore, i)
             (Functors.writes (Functors.VectorizedAssign cfg tr lhs rhs true first last)) ->
          In (Functors.StreamStore, i) (Functors.writes lhs))
    /\ (forall alias,
          Functors.VectorizedAssign cfg tr lhs rhs alias first last
          = if Functors.use_streaming cfg tr alias (last - first)
            then Functors.VectorizedAssign_stream cfg tr lhs rhs first last
            else Functors.VectorizedAssign_store cfg tr lhs rhs first last)
    /\ (forall alias,
          Functors.use_streaming cfg tr alias (last - first) = true
          <-> Functors.streaming cfg = true
              /\ Functors.cache_size cfg / (Functors.sizeof_value tr * 3) < last - first
              /\ alias = false)
    /\ (forall alias i,
          In (Functors.StreamStore, i)
             (Functors.writes (Functors.VectorizedAssign cfg tr lhs rhs alias first last)) ->
          ~ In (Functors.StreamStore, i) (Functors.writes lhs) ->
          Functors.streaming cfg = true
          /\ Functors.cache_size cfg / (Functors.sizeof_value tr * 3) < last - first
          /\ alias = false).
Proof.
  intros T cfg tr lhs rhs first last.
  assert (Hno : Functors.use_streaming cfg tr true (last - first) = false).
  { unfold Functors.use_streaming. apply andb_false_r. }
  assert (Hst : Functors.VectorizedAssign cfg tr lhs rhs true first last
                = Functors.VectorizedAssign_store cfg tr lhs rhs first last).
  { unfold Functors.VectorizedAssign. now rewrite Hno. }
  split; [ exact Hno | ]. split; [ exact Hst | ].
  split; [ rewrite Hst; apply store_path_no_stream | ].
  split; [ reflexivity | ].
  split; [ intros alias; apply use_streaming_iff | ].
  intros alias i Hin Hnew.
  apply use_streaming_iff.
  destruct (Functors.use_streaming cfg tr alias (last - first)) eqn:Hu; [ reflexivity | ].
  exfalso. apply Hnew.
  unfold Functors.VectorizedAssign in Hin. rewrite Hu in Hin.
  now apply (store_path_no_stream T cfg tr lhs rhs first last).
Qed.

(** ** Coherency flags after an operation *)

Section CoherencyFacts.
Variable T : Type.
Variable fcfg : Functors.config.
Variable tr : Functors.operand_traits.
Variables add sub mul div modulo : T -> T -> T.
Variables one minus_one : T.
Variable neg : T -> T.
Variable cublas_axpy : N -> T -> Functors.memory T -> Functors.memory T -> Functors.memory T.
Variable cublas_scal : N -> T -> Functors.memory T -> Functors.memory T.
Variable egblas_scalar_add : Functors.memory T -> N -> T -> Functors.memory T.
Variable egblas_axmy : N -> T -> Functors.memory T -> Functors.memory T -> Functors.memory T.
Variable egblas_axdy : N -> T -> Functors.memory T -> Functors.memory T -> Functors.memory T.

Lemma host_implementations_flags f e r :
  In f (Evaluator.host_implementations fcfg tr add sub mul div modulo) ->
  Evaluator.flags (f e r) = (true, false).
Proof.
  unfold Evaluator.host_implementations. simpl.
  intros H. repeat (destruct H as [<- | H]; [ reflexivity | ]). contradiction.
Qed.

Lemma gpu_implementations_flags f e r :
  In f (Evaluator.gpu_implementations div one minus_one neg cublas_axpy cublas_scal
          egblas_scalar_add egblas_axmy egblas_axdy) ->
  Evaluator.flags (f e r) = (false, true).
Proof.
  unfold Evaluator.gpu_implementations. simpl.
  intros H. repeat (destruct H as [<- | H]; [ reflexivity | ]). contradiction.
Qed.

(** The same-type fast copy of a CUDA build hands over the flags of the
    source; without CUDA it copies the memory and leaves the flags. *)
Lemma fast_assign_impl_full_flags (cuda : bool) (e : Evaluator.expression T)
      (r : Evaluator.container T) :
  Evaluator.flags (Evaluator.fast_assign_impl_full cuda e r)
  = if cuda then Evaluator.flags (Evaluator.store e) else Evaluator.flags r.
Proof.
  unfold Evaluator.fast_assign_impl_full, Evaluator.flags.
  destruct cuda; [ | reflexivity ].
  destruct (Evaluator.cpu_up_to_date (Evaluator.store e)),
    (Evaluator.gpu_up_to_date (Evaluator.store e)); reflexivity.
Qed.

(** The plain standard assignment writes the elements and leaves the flags. *)
Lemma standard_assign_impl_flags (e : Evaluator.expression T) (r : Evaluator.container T) :
  Evaluator.flags (Evaluator.standard_assign_impl e r) = Evaluator.flags r.
Proof. reflexivity. Qed.

End CoherencyFacts.

(** C1, as amended.  After the converting fast copy, the direct and the
    vectorized plain assignment, and every standard, direct and vectorized
    compound operation (add, sub, mul, div) and the modulo, the destination
    is host-valid and device-invalid.  After every accelerator
    implementation (plain assignment and compound add, sub, mul, div, on an
    expression or on a scalar) it is device-valid and host-invalid.  After
    the same-type fast copy of a CUDA build ([fast_assign_impl_full]) the
    destination has the two flags of the source, whatever they are. *)
Theorem coherency_flags_after_operation :
  forall (T : Type) (fcfg : Functors.config) (tr : Functors.operand_traits)
         (add sub mul div modulo : T -> T -> T) (one minus_one : T) (neg : T -> T)
         (cublas_axpy : N -> T -> Functors.memory T -> Functors.memory T -> Functors.memory T)
         (cublas_scal : N -> T -> Functors.memory T -> Functors.memory T)
         (egblas_scalar_add : Functors.memory T -> N -> T -> Functors.memory T)
         (egblas_axmy egblas_axdy : N -> T -> Functors.memory T -> Functors.memory T -> Functors.memory T)
         (e : Evaluator.expression T) (r : Evaluator.container T),
    (forall f, In f (Evaluator.host_implementations fcfg tr add sub mul div modulo) ->
               Evaluator.cpu_up_to_date (f e r) = true
               /\ Evaluator.gpu_up_to_date (f e r) = false)
    /\ (forall f, In f (Evaluator.gpu_implementations div one minus_one neg cublas_axpy
                          cublas_scal egblas_scalar_add egblas_axmy egblas_axdy) ->
                  Evaluator.gpu_up_to_date (f e r) = true
                  /\ Evaluator.cpu_up_to_date (f e r) = false)
    /\ Evaluator.cpu_up_to_date (Evaluator.fast_assign_impl_full true e r)
       = Evaluator.cpu_up_to_date (Evaluator.store e)
    /\ Evaluator.gpu_up_to_date (Evaluator.fast_assign_impl_full true e r)
       = Evaluator.gpu_up_to_date (Evaluator.store e).
Proof.
  intros. split; [ | split ].
  - intros f Hf.
    pose proof (host_implementations_flags T fcfg tr add sub mul div modulo f e r Hf) as H.
    split; [ exact (f_equal fst H) | exact (f_equal snd H) ].
  - intros f Hf.
    pose proof (gpu_implementations_flags T div one minus_one neg cublas_axpy cublas_scal
                  egblas_scalar_add egblas_axmy egblas_axdy f e r Hf) as H.
    split; [ exact (f_equal snd H) | exact (f_equal fst H) ].
  - pose proof (fast_assign_impl_full_flags T true e r) as H.
    split; [ exact (f_equal fst H) | exact (f_equal snd H) ].
Qed.

Lemma coherency_flags_after_operation_witness :
  In (Evaluator.direct_assign_impl plain_build)
     (Evaluator.host_implementations plain_build four_lanes N.add N.sub N.mul N.div N.modulo)
  /\ Evaluator.cpu_up_to_date (Evaluator.direct_assign_impl plain_build synced_source blank) = true
  /\ Evaluator.gpu_up_to_date (Evaluator.direct_assign_impl plain_build synced_source blank) = false.
Proof.
  split; [ right; left; reflexivity | ].
  apply (proj1 (coherency_flags_after_operation N plain_build four_lanes
                  N.add N.sub N.mul N.div N.modulo 1 0 (fun x => x)
                  (fun _ _ _ y => y) (fun _ _ y => y) (fun y _ _ => y)
                  (fun _ _ _ y => y) (fun _ _ _ y => y) synced_source blank)).
  right; left; reflexivity.
Defined.

(** C1, as stated, fails on the same-type fast copy: a source whose host
    and device memories are both valid leaves the destination with both
    flags set, not with exactly one.  It also fails on the plain standard
    assignment, which writes the elements and sets no flag: a destination
    that was valid on the device only stays so. *)
Lemma plain_assign_leaves_other_flags :
  (Evaluator.cpu_up_to_date (Evaluator.fast_assign_impl_full true synced_source blank) = true
   /\ Evaluator.gpu_up_to_date (Evaluator.fast_assign_impl_full true synced_source blank) = true
   /\ ~ (Evaluator.cpu_up_to_date (Evaluator.fast_assign_impl_full true synced_source blank) = true
         /\ Evaluator.gpu_up_to_date (Evaluator.fast_assign_impl_full true synced_source blank) = false))
  /\ (Evaluator.cpu_up_to_date (Evaluator.standard_assign_impl synced_source device_only) = false
      /\ Evaluator.gpu_up_to_date (Evaluator.standard_assign_impl synced_source device_only) = true
      /\ ~ (Evaluator.cpu_up_to_date (Evaluator.standard_assign_impl synced_source device_only) = true
            /\ Evaluator.gpu_up_to_date (Evaluator.standard_assign_impl synced_source device_only) = false)).
Proof.
  split.
  - split; [ reflexivity | ]. split; [ reflexivity | ].
    intros [_ H]. discriminate H.
  - split; [ reflexivity | ]. split; [ reflexivity | ].
    intros [H _]. discriminate H.
Qed.

(** ** What the plain assignments write *)

Section AssignFacts.
Variable T : Type.
Variable fcfg : Functors.config.

Lemma Assign_as_compound (lhs : Functors.dest T) rhs size :
  Functors.Assign fcfg lhs rhs size
  = Functors.scalar_compound fcfg assigned lhs rhs 0 size.
Proof.
  unfold Functors.Assign, Functors.scalar_compound.
  rewrite N.sub_0_r, N.add_0_l. reflexivity.
Qed.

Lemma Assign_mem (lhs : Functors.dest T) rhs size j :
  Functors.mem (Functors.Assign fcfg lhs rhs size) j
  = if j <? size then rhs j else Functors.mem lhs j.
Proof.
  rewrite Assign_as_compound, scalar_compound_mem by lia.
  unfold combined, assigned. by_cases.
Qed.

Lemma standard_assign_impl_mem (e : Evaluator.expression T) (r : Evaluator.container T) j :
  Evaluator.cpu_memory (Evaluator.standard_assign_impl e r) j
  = if j <? Evaluator.size r then Evaluator.read_unsynced e j else Evaluator.cpu_memory r j.
Proof.
  unfold Evaluator.standard_assign_impl, Evaluator.standard_loop, Evaluator.on_cpu.
  simpl.
  change (fun (i : N) (d : Functors.dest T) => Functors.write i (Evaluator.read_unsynced e i) d)
    with (Functors.modify (@assigned T) (Evaluator.read_unsynced e)).
  rewrite (tail_loop T assigned (Evaluator.read_unsynced e) (Evaluator.cpu_memory r) 0
             (Evaluator.size r) 0).
  - unfold combined, assigned. by_cases.
  - lia.
  - lia.
  - unfold fuel_for. lia.
  - intros k. unfold combined. by_cases.
Qed.

Lemma direct_assign_impl_mem (e : Evaluator.expression T) (r : Evaluator.container T) j :
  j < Evaluator.size r ->
  Evaluator.cpu_memory (Evaluator.direct_assign_impl fcfg e r) j = Evaluator.read e j.
Proof.
  intros Hj.
  unfold Evaluator.direct_assign_impl, Evaluator.par_exec, Evaluator.on_cpu. simpl.
  rewrite Assign_mem.
  assert (Hs : Evaluator.size (Evaluator.safe_ensure_cpu_up_to_date r) = Evaluator.size r).
  { unfold Evaluator.safe_ensure_cpu_up_to_date, Evaluator.ensure_cpu_up_to_date.
    now destruct (Evaluator.cpu_up_to_date r). }
  rewrite Hs. apply N.ltb_lt in Hj. now rewrite Hj.
Qed.

End AssignFacts.

(** ** Transposition fallback *)

Section TranspositionFacts.
Variable T : Type.

Lemma order_eqb_eq (a b : order) : order_eqb a b = true <-> a = b.
Proof. destruct a, b; simpl; split; congruence. Qed.

Lemma all_2d_not_1d (E R : etl_traits) : all_2d E R = true -> all_1d E R = false.
Proof.
  unfold all_2d, all_1d. intros H. apply andb_prop in H. destruct H as [H _].
  apply N.eqb_eq in H. now rewrite H.
Qed.

(** At the flat position a destination of the other storage order gives to
    the cell [(i, j)], the transposed expression holds the element [(i, j)]
    of its operand. *)
Lemma transpose_read (e : Transposition.expr T) (o : order) (i j : N) :
  storage_order (Transposition.traits e) <> o ->
  i < Transposition.rows e -> j < Transposition.cols e ->
  Transposition.transposed_elements e
    (flat_index o (Transposition.rows e) (Transposition.cols e) i j)
  = Transposition.at2 e i j.
Proof.
  intros Ho Hi Hj. unfold Transposition.transposed_elements.
  destruct (storage_order (Transposition.traits e)) eqn:Eo, o; try congruence;
    unfold flat_index.
  - (* row-major source, column-major destination *)
    rewrite N.Div0.mod_add, N.mod_small by lia.
    rewrite N.div_add, N.div_small by lia.
    reflexivity.
  - (* column-major source, row-major destination *)
    rewrite (N.add_comm (i * _)), N.div_add, N.div_small by lia.
    rewrite N.Div0.mod_add, N.mod_small by lia.
    reflexivity.
Qed.

(** Two types of different storage orders are not vectorizable together. *)
Lemma order_mismatch_not_vectorizable (cfg : build) (E R : etl_traits) :
  storage_order E <> storage_order R -> Selectors.are_vectorizable cfg E R = false.
Proof.
  intros H.
  assert (Hsel : forall V, Selectors.are_vectorizable_select cfg V E R = false).
  { intros V. unfold Selectors.are_vectorizable_select.
    destruct (order_eqb (storage_order E) (storage_order R)) eqn:Eo.
    - apply order_eqb_eq in Eo. contradiction.
    - now rewrite !andb_false_r. }
  unfold Selectors.are_vectorizable. now rewrite !Hsel, !andb_false_r.
Qed.





End TranspositionFacts.


(** The column-major matrix assigned to a row-major destination: with direct
    memory access on both sides the fast copy of the materialized
    transposition runs, with a destination without direct memory access the
    standard loop; the destination holds 1 2 3 4 5 6 either way. *)
Example transposition_scenario :
  option_map (fun r => map (Evaluator.cpu_memory r) [0; 1; 2; 3; 4; 5])
    (Transposition.std_assign_evaluate avx_build plain_build four_lanes
       (dense_matrix float_t RowMajor) column_major_2x3 six_zeros)
  = Some [1; 2; 3; 4; 5; 6]
  /\ Dispatch.assign_evaluate_impl avx_build
       (Transposition.traits (Transposition.transpose column_major_2x3))
       (dense_matrix float_t RowMajor) = Some Dispatch.fast_impl_full
  /\ option_map (fun r => map (Evaluator.cpu_memory r) [0; 1; 2; 3; 4; 5])
       (Transposition.std_assign_evaluate avx_build plain_build four_lanes
          (lazy_matrix float_t RowMajor) column_major_2x3 six_zeros)
     = Some [1; 2; 3; 4; 5; 6]
  /\ Dispatch.assign_evaluate_impl avx_build
       (Transposition.traits (Transposition.transpose column_major_2x3))
       (lazy_matrix float_t RowMajor) = Some Dispatch.standard_impl.
Proof. repeat split. Qed.


(** ** The selectors of the plain assignment *)

(** C2.  The selectors at the types of two float matrices with direct
    memory access, in a build that vectorizes: [fast_assign] and
    [vectorized_assign] both hold, so two of the five strategies are
    selected, two overloads of [assign_evaluate_impl] are enabled and the
    call has no single implementation to run. *)
Theorem fast_and_vectorized_assign_both_selected :
  let E := dense_matrix float_t RowMajor in
  let R := dense_matrix float_t RowMajor in
  Selectors.fast_assign E R = true
  /\ Selectors.gpu_assign E R = false
  /\ Selectors.vectorized_assign avx_build E R = true
  /\ Selectors.direct_assign avx_build E R = false
  /\ Selectors.standard_assign E R = false
  /\ Selectors.selected avx_build E R = [Selectors.FastCopy; Selectors.Vectorized]
  /\ Selectors.first_applicable avx_build E R = Selectors.FastCopy
  /\ Dispatch.assign_evaluate_impl avx_build E R = None.
Proof. repeat split. Qed.

(** Away from the two overlaps (operands that are both dense and
    vectorizable together; a destination without direct memory access whose
    operands are accelerator-computable or vectorizable together), exactly
    one selector holds, and it is the one of the first strategy that
    applies. *)
Lemma selectors_follow_precedence (cfg : build) (E R : etl_traits) :
  all_dma E R && Selectors.are_vectorizable cfg E R = false ->
  has_direct_access R = true
  \/ (all_gpu_computable E R = false /\ Selectors.are_vectorizable cfg E R = false) ->
  Selectors.selected cfg E R = [Selectors.first_applicable cfg E R].
Proof.
  unfold Selectors.selected, Selectors.first_applicable, Selectors.strategies,
    Selectors.assign_selector. simpl.
  unfold Selectors.direct_assign, Selectors.vectorized_assign, Selectors.gpu_assign,
    Selectors.standard_assign, Selectors.fast_assign, all_dma.
  destruct (has_direct_access E), (has_direct_access R), (all_gpu_computable E R),
    (Selectors.are_vectorizable cfg E R); simpl; intros H1 H2;
    try reflexivity; try discriminate;
    destruct H2 as [H2 | [H2 H3]]; discriminate.
Qed.

(** For every pair of types at least one selector of the plain assignment
    holds. *)
Lemma some_assign_selector_holds (cfg : build) (E R : etl_traits) :
  Selectors.selected cfg E R <> [].
Proof.
  unfold Selectors.selected, Selectors.strategies, Selectors.assign_selector. simpl.
  unfold Selectors.direct_assign, Selectors.vectorized_assign, Selectors.gpu_assign,
    Selectors.standard_assign, Selectors.fast_assign, all_dma.
  destruct (has_direct_access E), (has_direct_access R), (all_gpu_computable E R),
    (Selectors.are_vectorizable cfg E R); simpl; discriminate.
Qed.

(** An integer matrix divided in place in the AVX build. *)
Lemma compound_div_vectorized_only_floating_or_complex_witness :
  is_floating_t (value_t (dense_matrix int_t RowMajor)) = false
  /\ is_complex_t (value_t (dense_matrix int_t RowMajor)) = false
  /\ Selectors.are_vectorizable avx_build (dense_matrix int_t RowMajor)
       (dense_matrix int_t RowMajor) = true
  /\ Dispatch.div_evaluate avx_build (fun _ _ => false)
       (dense_matrix int_t RowMajor) (dense_matrix int_t RowMajor)
     = Some Dispatch.direct_impl.
Proof.
  split; [ reflexivity | ]. split; [ reflexivity | ]. split; [ reflexivity | ].
  apply (proj2 (proj2 (compound_div_vectorized_only_floating_or_complex avx_build
                         (fun _ _ => false)
                         (dense_matrix int_t RowMajor) (dense_matrix int_t RowMajor))));
    reflexivity.
Defined.

(** An aliased and a free source on a range that is large for the cache. *)
Lemma aliased_assign_never_streams_witness :
  Functors.use_streaming tiny_cache four_lanes true (6 - 0) = false
  /\ Functors.use_streaming tiny_cache four_lanes false (6 - 0) = true
  /\ Functors.VectorizedAssign tiny_cache four_lanes zeros sum_of_sequences true 0 6
     = Functors.VectorizedAssign_store tiny_cache four_lanes zeros sum_of_sequences 0 6.
Proof.
  pose proof (aliased_assign_never_streams N tiny_cache four_lanes zeros
                sum_of_sequences 0 6) as [H1 [H2 _]].
  split; [ exact H1 | ]. split; [ reflexivity | exact H2 ].
Defined.

(** * Further properties of the functors *)

(** X1.  The scalar compound functors ([AssignAdd], [AssignSub],
    [AssignMul], [AssignDiv]) combine every element of [first, last) with
    the element of the source at the same index, once, and leave every other
    element of the memory as it was; unrolling the loop by four changes
    nothing of this. *)
Theorem scalar_compound_functors_write_range :
  forall (T : Type) (cfg : Functors.config) (add sub mul div : T -> T -> T)
         (lhs : Functors.dest T) (rhs : Functors.reader T) (first last : N),
    first <= last ->
    forall j,
      Functors.mem (Functors.AssignAdd cfg add lhs rhs first last) j
      = (if (first <=? j) && (j <? last) then add (Functors.mem lhs j) (rhs j)
         else Functors.mem lhs j)
      /\ Functors.mem (Functors.AssignSub cfg sub lhs rhs first last) j
         = (if (first <=? j) && (j <? last) then sub (Functors.mem lhs j) (rhs j)
            else Functors.mem lhs j)
      /\ Functors.mem (Functors.AssignMul cfg mul lhs rhs first last) j
         = (if (first <=? j) && (j <? last) then mul (Functors.mem lhs j) (rhs j)
            else Functors.mem lhs j)
      /\ Functors.mem (Functors.AssignDiv cfg div lhs rhs first last) j
         = (if (first <=? j) && (j <? last) then div (Functors.mem lhs j) (rhs j)
            else Functors.mem lhs j).
Proof.
  intros T cfg add sub mul div lhs rhs first last Hle j.
  unfold Functors.AssignAdd, Functors.AssignSub, Functors.AssignMul, Functors.AssignDiv.
  repeat split; apply (scalar_compound_mem T cfg _ rhs lhs first last Hle j).
Qed.

Lemma scalar_compound_functors_write_range_witness :
  3 <= 8
  /\ Functors.mem (Functors.AssignAdd plain_build N.add zeros ones 3 8) 4
     = (if (3 <=? 4) && (4 <? 8) then N.add (Functors.mem zeros 4) (ones 4)
        else Functors.mem zeros 4).
Proof.
  split; [ discriminate | ].
  apply (scalar_compound_functors_write_range N plain_build N.add N.sub N.mul N.div
           zeros ones 3 8).
  discriminate.
Defined.

(** X2.  With the scalar remainder tail compiled in, the vectorized
    compound sub, mul and div leave the memory that the scalar compound sub,
    mul and div leave, at every index, for every lane count and every
    range. *)
Theorem vectorized_sub_mul_div_match_scalar :
  forall (T : Type) (cfg : Functors.config) (tr : Functors.operand_traits)
         (sub mul div : T -> T -> T)
         (lhs : Functors.dest T) (rhs : Functors.reader T) (first last : N),
    Functors.remainder cfg tr = true ->
    first <= last ->
    forall j,
      Functors.mem (Functors.VectorizedAssignSub cfg tr sub lhs rhs first last) j
      = Functors.mem (Functors.AssignSub cfg sub lhs rhs first last) j
      /\ Functors.mem (Functors.VectorizedAssignMul cfg tr mul lhs rhs first last) j
         = Functors.mem (Functors.AssignMul cfg mul lhs rhs first last) j
      /\ Functors.mem (Functors.VectorizedAssignDiv cfg tr div lhs rhs first last) j
         = Functors.mem (Functors.AssignDiv cfg div lhs rhs first last) j.
Proof.
  intros T cfg tr sub mul div lhs rhs first last Hrem Hle j.
  unfold Functors.VectorizedAssignSub, Functors.VectorizedAssignMul,
    Functors.VectorizedAssignDiv, Functors.AssignSub, Functors.AssignMul,
    Functors.AssignDiv.
  repeat split;
    rewrite vectorized_compound_mem by assumption;
    now rewrite scalar_compound_mem by assumption.
Qed.

Lemma vectorized_sub_mul_div_match_scalar_witness :
  Functors.remainder plain_build four_lanes = true
  /\ 2 <= 13
  /\ Functors.mem (Functors.VectorizedAssignMul plain_build four_lanes N.mul zeros ones 2 13) 5
     = Functors.mem (Functors.AssignMul plain_build N.mul zeros ones 2 13) 5.
Proof.
  split; [ reflexivity | ]. split; [ discriminate | ].
  apply (vectorized_sub_mul_div_match_scalar N plain_build four_lanes N.sub N.mul N.div
           zeros ones 2 13); [ reflexivity | discriminate ].
Defined.

(** X3.  The scalar [Assign] leaves the element of the source at every
    index below the size and keeps the memory from the size on, unrolled or
    not; assigning the same source a second time changes nothing. *)
Theorem Assign_writes_source_and_is_idempotent :
  forall (T : Type) (cfg : Functors.config) (lhs : Functors.dest T)
         (rhs : Functors.reader T) (size : N) (j : N),
    Functors.mem (Functors.Assign cfg lhs rhs size) j
    = (if j <? size then rhs j else Functors.mem lhs j)
    /\ Functors.mem (Functors.Assign cfg (Functors.Assign cfg lhs rhs size) rhs size) j
       = Functors.mem (Functors.Assign cfg lhs rhs size) j.
Proof.
  intros T cfg lhs rhs size j. split.
  - apply Assign_mem.
  - rewrite !Assign_mem. now destruct (j <? size).
Qed.

(** ** Slices *)

Section SliceFacts.
Variable T : Type.
Variable cfg : Functors.config.
Variable tr : Functors.operand_traits.
Variable op : T -> T -> T.
Variable rhs : Functors.reader T.

Lemma scalar_split (lhs : Functors.dest T) (a b c : N) (j : N) :
  a <= b -> b <= c ->
  Functors.mem (Functors.scalar_compound cfg op
                  (Functors.scalar_compound cfg op lhs rhs a b) rhs b c) j
  = Functors.mem (Functors.scalar_compound cfg op lhs rhs a c) j.
Proof.
  intros Hab Hbc.
  rewrite !scalar_compound_mem by lia. unfold combined.
  rewrite scalar_compound_mem by lia. unfold combined. by_cases.
Qed.

Lemma vectorized_split (lhs : Functors.dest T) (a b c : N) (j : N) :
  Functors.remainder cfg tr = true ->
  a <= b -> b <= c ->
  Functors.mem (Functors.vectorized_compound cfg tr op
                  (Functors.vectorized_compound cfg tr op lhs rhs a b) rhs b c) j
  = Functors.mem (Functors.vectorized_compound cfg tr op lhs rhs a c) j.
Proof.
  intros Hrem Hab Hbc.
  rewrite !vectorized_compound_mem by (assumption || lia). unfold combined.
  rewrite vectorized_compound_mem by (assumption || lia). unfold combined. by_cases.
Qed.

Lemma scalar_slices_commute (lhs : Functors.dest T) (a b c d : N) (j : N) :
  a <= b -> b <= c -> c <= d ->
  Functors.mem (Functors.scalar_compound cfg op
                  (Functors.scalar_compound cfg op lhs rhs a b) rhs c d) j
  = Functors.mem (Functors.scalar_compound cfg op
                    (Functors.scalar_compound cfg op lhs rhs c d) rhs a b) j.
Proof.
  intros Hab Hbc Hcd.
  rewrite !scalar_compound_mem by lia. unfold combined.
  rewrite !scalar_compound_mem by lia. unfold combined. by_cases.
Qed.

Lemma vectorized_slices_commute (lhs : Functors.dest T) (a b c d : N) (j : N) :
  Functors.remainder cfg tr = true ->
  a <= b -> b <= c -> c <= d ->
  Functors.mem (Functors.vectorized_compound cfg tr op
                  (Functors.vectorized_compound cfg tr op lhs rhs a b) rhs c d) j
  = Functors.mem (Functors.vectorized_compound cfg tr op
                    (Functors.vectorized_compound cfg tr op lhs rhs c d) rhs a b) j.
Proof.
  intros Hrem Hab Hbc Hcd.
  rewrite !vectorized_compound_mem by (assumption || lia). unfold combined.
  rewrite !vectorized_compound_mem by (assumption || lia). unfold combined. by_cases.
Qed.

End SliceFacts.

(** X4.  Splitting a range: running a compound functor on [a, b) and then
    on [b, c) leaves the memory that one run on [a, c) leaves.  This holds
    for the scalar functors, and for the vectorized ones when the remainder
    tail is compiled in, whatever [b] is (a multiple of the lane count or
    not). *)
Theorem compound_range_split :
  forall (T : Type) (cfg : Functors.config) (tr : Functors.operand_traits)
         (op : T -> T -> T) (lhs : Functors.dest T) (rhs : Functors.reader T)
         (a b c : N),
    a <= b -> b <= c ->
    forall j,
      Functors.mem (Functors.scalar_compound cfg op
                      (Functors.scalar_compound cfg op lhs rhs a b) rhs b c) j
      = Functors.mem (Functors.scalar_compound cfg op lhs rhs a c) j
      /\ (Functors.remainder cfg tr = true ->
          Functors.mem (Functors.vectorized_compound cfg tr op
                          (Functors.vectorized_compound cfg tr op lhs rhs a b) rhs b c) j
          = Functors.mem (Functors.vectorized_compound cfg tr op lhs rhs a c) j).
Proof.
  intros T cfg tr op lhs rhs a b c Hab Hbc j. split.
  - now apply scalar_split.
  - intros Hrem. now apply vectorized_split.
Qed.

Lemma compound_range_split_witness :
  0 <= 5 /\ 5 <= 11
  /\ Functors.mem (Functors.scalar_compound plain_build N.add
                     (Functors.scalar_compound plain_build N.add zeros ones 0 5) ones 5 11) 7
     = Functors.mem (Functors.scalar_compound plain_build N.add zeros ones 0 11) 7.
Proof.
  split; [ discriminate | ]. split; [ discriminate | ].
  apply (proj1 (compound_range_split N plain_build four_lanes N.add zeros ones 0 5 11
                  ltac:(discriminate) ltac:(discriminate) 7)).
Defined.

(** X5.  Two slices that do not overlap can be run in either order: the
    memory after the compound functor on [a, b) and then on [c, d), with
    [b <= c], is the memory after the two runs in the other order.  This
    holds for the scalar functors, and for the vectorized ones when the
    remainder tail is compiled in. *)
Theorem disjoint_slices_commute :
  forall (T : Type) (cfg : Functors.config) (tr : Functors.operand_traits)
         (op : T -> T -> T) (lhs : Functors.dest T) (rhs : Functors.reader T)
         (a b c d : N),
    a <= b -> b <= c -> c <= d ->
    forall j,
      Functors.mem (Functors.scalar_compound cfg op
                      (Functors.scalar_compound cfg op lhs rhs a b) rhs c d) j
      = Functors.mem (Functors.scalar_compound cfg op
                        (Functors.scalar_compound cfg op lhs rhs c d) rhs a b) j
      /\ (Functors.remainder cfg tr = true ->
          Functors.mem (Functors.vectorized_compound cfg tr op
                          (Functors.vectorized_compound cfg tr op lhs rhs a b) rhs c d) j
          = Functors.mem (Functors.vectorized_compound cfg tr op
                            (Functors.vectorized_compound cfg tr op lhs rhs c d) rhs a b) j).
Proof.
  intros T cfg tr op lhs rhs a b c d Hab Hbc Hcd j. split.
  - now apply scalar_slices_commute.
  - intros Hrem. now apply vectorized_slices_commute.
Qed.

Lemma disjoint_slices_commute_witness :
  0 <= 3 /\ 3 <= 6 /\ 6 <= 9
  /\ Functors.mem (Functors.scalar_compound plain_build N.add
                     (Functors.scalar_compound plain_build N.add zeros ones 0 3) ones 6 9) 7
     = Functors.mem (Functors.scalar_compound plain_build N.add
                       (Functors.scalar_compound plain_build N.add zeros ones 6 9) ones 0 3) 7.
Proof.
  split; [ discriminate | ]. split; [ discriminate | ]. split; [ discriminate | ].
  apply (proj1 (disjoint_slices_commute N plain_build four_lanes N.add zeros ones 0 3 6 9
                  ltac:(discriminate) ltac:(discriminate) ltac:(discriminate) 7)).
Defined.

(** When the tail is eliminated the slices of a padded destination are not
    independent: the run on [0, 5) also combines the elements 5, 6 and 7, so
    a second run on [5, 8) combines them twice. *)
Example padded_slices_overlap :
  map (Functors.mem (Functors.vectorized_compound padded_build four_lanes N.add
                       (Functors.vectorized_compound padded_build four_lanes N.add
                          zeros ones 0 5) ones 5 8)) [4; 5; 6; 7; 8]
  = [1; 2; 2; 2; 1]
  /\ map (Functors.mem (Functors.vectorized_compound padded_build four_lanes N.add
                          zeros ones 0 8)) [4; 5; 6; 7; 8]
     = [1; 1; 1; 1; 0].
Proof. split; reflexivity. Qed.

(** ** The order of the writes *)

Section WriteOrder.
Variable T : Type.
Variable cfg : Functors.config.
Variable op : T -> T -> T.
Variable rhs : Functors.reader T.

(** A property of the index reached and of the destination that one scalar
    step carries from [i] to [i + 1] is carried by the scalar compound
    functor from [first] to [last]. *)
Lemma scalar_compound_carries (Q : N -> Functors.dest T -> Prop) (first last : N)
      (lhs : Functors.dest T) :
  first <= last ->
  (forall i d, first <= i -> i < last -> Q i d -> Q (i + 1) (Functors.modify op rhs i d)) ->
  Q first lhs ->
  Q last (Functors.scalar_compound cfg op lhs rhs first last).
Proof.
  intros Hle Hstep H0. unfold Functors.scalar_compound.
  set (iend := if Functors.unroll_normal_loops cfg
               then first + N.ldiff (last - first) 3 else first).
  assert (Hiend : first <= iend /\ iend <= last /\ exists k, iend = first + 4 * k).
  { unfold iend. destruct (Functors.unroll_normal_loops cfg).
    - pose proof (ldiff_3_le (last - first)) as Hm.
      split; [ lia | split; [ lia | ] ].
      exists ((last - first) / 4). now rewrite ldiff_3.
    - split; [ lia | split; [ lia | ] ]. exists 0. lia. }
  destruct Hiend as [Hi1 [Hi2 [k Hk]]].
  match goal with
  | |- Q last (snd (for_loop _ _ _ _ iend ?x)) => set (d1 := x)
  end.
  assert (H1 : Q iend d1).
  { unfold d1. destruct (Functors.unroll_normal_loops cfg) eqn:Hu.
    - match goal with
      | |- Q iend (snd (for_loop ?f ?c ?s ?b first lhs)) =>
          set (r := for_loop f c s b first lhs);
          assert (Hinv : (first <= fst r /\ exists q, iend = fst r + 4 * q) /\ Q (fst r) (snd r));
          [ apply (for_loop_invariant c s b
                     (fun x d => (first <= x /\ exists q, iend = x + 4 * q) /\ Q x d))
          | assert (Hexit : c (fst r) = false);
            [ apply (for_loop_exit c s b iend) | ] ]
      end.
      + intros x d [[Hx [q Hq]] HQ] Hc. apply N.ltb_lt in Hc.
        split; [ split; [ lia | exists (q - 1); lia ] | ].
        replace (x + 4) with (x + 3 + 1) by lia.
        apply Hstep; [ lia | lia | ].
        replace (x + 3) with (x + 2 + 1) by lia.
        apply Hstep; [ lia | lia | ].
        replace (x + 2) with (x + 1 + 1) by lia.
        apply Hstep; [ lia | lia | ].
        apply Hstep; [ lia | lia | exact HQ ].
      + split; [ split; [ lia | now exists k ] | exact H0 ].
      + lia.
      + intros x Hc. now apply N.ltb_lt.
      + unfold fuel_for. lia.
      + apply N.ltb_ge in Hexit. destruct Hinv as [[Hx [q Hq]] HQ].
        now replace iend with (fst r) by lia.
    - unfold iend. exact H0. }
  set (r := for_loop (fuel_for last iend) (fun i => i <? last) 1 (Functors.modify op rhs) iend d1).
  assert (Hinv : (first <= fst r /\ fst r <= last) /\ Q (fst r) (snd r)).
  { apply (for_loop_invariant (fun i => i <? last) 1 (Functors.modify op rhs)
             (fun x d => (first <= x /\ x <= last) /\ Q x d)).
    - intros x d [[Hx1 Hx2] HQ] Hc. apply N.ltb_lt in Hc.
      split; [ lia | ]. now apply Hstep.
    - split; [ lia | exact H1 ]. }
  assert (Hexit : (fst r <? last) = false).
  { apply (for_loop_exit (fun i => i <? last) 1 (Functors.modify op rhs) last).
    - lia.
    - intros x Hc. now apply N.ltb_lt.
    - unfold fuel_for. lia. }
  apply N.ltb_ge in Hexit. destruct Hinv as [[_ Hx] HQ].
  now replace last with (fst r) by lia.
Qed.

Lemma indices_snoc (a : N) (n : nat) :
  indices a (Datatypes.S n) = indices a n ++ [a + N.of_nat n].
Proof.
  unfold indices. rewrite seq_S, map_app. reflexivity.
Qed.

Lemma indices_next (first i : N) :
  first <= i ->
  indices first (N.to_nat (i + 1 - first)) = indices first (N.to_nat (i - first)) ++ [i].
Proof.
  intros Hle.
  replace (N.to_nat (i + 1 - first)) with (Datatypes.S (N.to_nat (i - first))) by lia.
  rewrite indices_snoc. f_equal. f_equal. lia.
Qed.

End WriteOrder.

(** X6.  The scalar compound functors write every index of [first, last)
    exactly once and in increasing order, with or without unrolling: the
    record of the writes of the destination gains the scalar writes at
    [first], [first + 1], ..., [last - 1], in that order, and nothing else. *)
Theorem scalar_compound_writes_in_order :
  forall (T : Type) (cfg : Functors.config) (op : T -> T -> T)
         (lhs : Functors.dest T) (rhs : Functors.reader T) (first last : N),
    first <= last ->
    Functors.writes (Functors.scalar_compound cfg op lhs rhs first last)
    = rev (map (fun i => (Functors.ScalarWrite, i)) (indices first (N.to_nat (last - first))))
      ++ Functors.writes lhs.
Proof.
  intros T cfg op lhs rhs first last Hle.
  apply (scalar_compound_carries T cfg op rhs
           (fun i d => Functors.writes d
                       = rev (map (fun i => (Functors.ScalarWrite, i))
                                (indices first (N.to_nat (i - first))))
                         ++ Functors.writes lhs)).
  - exact Hle.
  - intros i d Hi _ HQ. simpl. rewrite HQ.
    rewrite (indices_next first i Hi), map_app, rev_app_distr. reflexivity.
  - now rewrite N.sub_diag.
Qed.

Lemma scalar_compound_writes_in_order_witness :
  3 <= 9
  /\ Functors.writes (Functors.scalar_compound plain_build N.add zeros ones 3 9)
     = rev (map (fun i => (Functors.ScalarWrite, i)) (indices 3 (N.to_nat (9 - 3))))
       ++ Functors.writes zeros.
Proof.
  split; [ discriminate | ].
  apply (scalar_compound_writes_in_order N plain_build N.add zeros ones 3 9).
  discriminate.
Defined.

(** ** What the vectorized assign writes *)

Section PlainVectorFacts.
Variable T : Type.
Variable cfg : Functors.config.
Variable tr : Functors.operand_traits.
Variable rhs : Functors.reader T.

Local Abbreviation W := (Functors.W tr).

Lemma put_extends (kind : Functors.store_kind) (m0 : Functors.memory T) (a i : N)
      (d : Functors.dest T) :
  a <= i ->
  (forall j, Functors.mem d j = combined assigned rhs a i m0 j) ->
  forall j, Functors.mem (Functors.put W kind (Functors.load rhs i) i d) j
            = combined assigned rhs a (i + W) m0 j.
Proof.
  intros Ha H j. unfold Functors.put, Functors.load. simpl. rewrite H.
  unfold combined, assigned. pose proof (W_pos tr).
  by_cases. now replace (i + (j - i)) with j by lia.
Qed.

(** The tail loop from an index that may lie beyond [last]. *)
Lemma tail_loop_max (op : T -> T -> T) (m0 : Functors.memory T) (a last i : N)
      (d : Functors.dest T) (fuel : nat) :
  a <= i ->
  (N.to_nat (last - i) < fuel)%nat ->
  (forall j, Functors.mem d j = combined op rhs a i m0 j) ->
  forall j,
    Functors.mem (snd (for_loop fuel (fun i => i <? last) 1 (Functors.modify op rhs) i d)) j
    = combined op rhs a (N.max i last) m0 j.
Proof.
  intros Ha Hfuel Hd j.
  destruct (N.le_gt_cases i last) as [Hle | Hgt].
  - rewrite N.max_r by exact Hle. now apply tail_loop.
  - rewrite for_loop_stop by (apply N.ltb_ge; lia).
    rewrite N.max_l by lia. apply Hd.
Qed.

(** Whole vectors from [a] cover a range that ends at [last]. *)
Lemma lanes_cover (a last : N) :
  a <= last -> exists q, last <= a + q * W /\ a + q * W < last + W.
Proof.
  intros Hle. pose proof (W_pos tr) as HW.
  assert (HW0 : W <> 0) by lia.
  exists ((last - a + W - 1) / W).
  pose proof (N.div_mod (last - a + W - 1) W HW0) as Hdm.
  pose proof (N.mod_lt (last - a + W - 1) W HW0) as Hlt.
  set (q := (last - a + W - 1) / W) in *.
  set (r := (last - a + W - 1) mod W) in *.
  nia.
Qed.

(** A loop of vector stores that starts at a whole number of vectors from
    [a] and only runs below [last]. *)
Lemma lane_loop (cond : N -> bool) (c : N)
      (body : N -> Functors.dest T -> Functors.dest T)
      (m0 : Functors.memory T) (a last q : N) :
  0 < c ->
  (forall i, cond i = true -> i < last) ->
  (forall k, cond (a + k * W) = true -> k + c <= q) ->
  (forall i d, a <= i ->
     (forall j, Functors.mem d j = combined assigned rhs a i m0 j) ->
     forall j, Functors.mem (body i d) j = combined assigned rhs a (i + c * W) m0 j) ->
  forall (fuel : nat) (k : N) (d : Functors.dest T),
    k <= q ->
    (forall j, Functors.mem d j = combined assigned rhs a (a + k * W) m0 j) ->
    (N.to_nat (last - (a + k * W)) < fuel)%nat ->
    exists k',
      k' <= q
      /\ fst (for_loop fuel cond (c * W) body (a + k * W) d) = a + k' * W
      /\ (forall j, Functors.mem (snd (for_loop fuel cond (c * W) body (a + k * W) d)) j
                    = combined assigned rhs a (a + k' * W) m0 j)
      /\ cond (a + k' * W) = false.
Proof.
  intros Hc Hbelow Hroom Hbody fuel k d Hk Hd Hfuel.
  pose proof (W_pos tr) as HW.
  set (r := for_loop fuel cond (c * W) body (a + k * W) d).
  assert (Hinv : exists k', k' <= q /\ fst r = a + k' * W
                            /\ forall j, Functors.mem (snd r) j
                                         = combined assigned rhs a (fst r) m0 j).
  { apply (for_loop_invariant cond (c * W) body
             (fun i d => exists k', k' <= q /\ i = a + k' * W
                                    /\ forall j, Functors.mem d j
                                                 = combined assigned rhs a i m0 j)).
    - intros x d' [k' [Hk' [Hx Hd']]] Hcond. subst x.
      exists (k' + c). split; [ now apply Hroom | ].
      split; [ lia | ]. apply Hbody; [ lia | exact Hd' ].
    - exists k. now repeat split. }
  assert (Hexit : cond (fst r) = false).
  { apply (for_loop_exit cond (c * W) body last).
    - lia.
    - exact Hbelow.
    - exact Hfuel. }
  destruct Hinv as [k' [Hk' [Hr Hm]]].
  exists k'. rewrite Hr in *. now repeat split.
Qed.

Lemma four_puts (kind : Functors.store_kind) (m0 : Functors.memory T) (a i : N)
      (d : Functors.dest T) :
  a <= i ->
  (forall j, Functors.mem d j = combined assigned rhs a i m0 j) ->
  forall j,
    Functors.mem
      (Functors.put W kind (Functors.load rhs (i + 3 * W)) (i + 3 * W)
         (Functors.put W kind (Functors.load rhs (i + 2 * W)) (i + 2 * W)
            (Functors.put W kind (Functors.load rhs (i + 1 * W)) (i + 1 * W)
               (Functors.put W kind (Functors.load rhs (i + 0 * W)) (i + 0 * W) d)))) j
    = combined assigned rhs a (i + 4 * W) m0 j.
Proof.
  intros Ha Hd.
  replace (i + 4 * W) with (i + 3 * W + W) by lia.
  apply put_extends; [ lia | ].
  replace (i + 3 * W) with (i + 2 * W + W) by lia.
  apply put_extends; [ lia | ].
  replace (i + 2 * W) with (i + 1 * W + W) by lia.
  apply put_extends; [ lia | ].
  replace (i + 1 * W) with (i + 0 * W + W) by lia.
  apply put_extends; [ lia | ].
  now replace (i + 0 * W) with i by lia.
Qed.

End PlainVectorFacts.

Section PlainPathFacts.
Variable T : Type.
Variable cfg : Functors.config.
Variable tr : Functors.operand_traits.
Variable rhs : Functors.reader T.

Local Abbreviation W := (Functors.W tr).

(** The bound of the vector loops of the vectorized assign. *)
Local Abbreviation vector_end first last :=
  (if Functors.remainder cfg tr then first + N.ldiff (last - first) (W - 1) else last%N).

(** The scalar tail of the vectorized assign, from the index [i] the vector
    loops stopped at. *)
Lemma assign_tail (m0 : Functors.memory T) (a last i : N) (d : Functors.dest T) (fuel : nat) :
  a <= i ->
  (N.to_nat (last - i) < fuel)%nat ->
  (forall j, Functors.mem d j = combined assigned rhs a i m0 j) ->
  forall j,
    Functors.mem
      (snd (for_loop fuel (fun i => Functors.remainder cfg tr && (i <? last)) 1
              (fun i d => Functors.write i (rhs i) d) i d)) j
    = combined assigned rhs a
        (if Functors.remainder cfg tr then N.max i last else i) m0 j.
Proof.
  intros Ha Hfuel Hd j.
  destruct (Functors.remainder cfg tr).
  - apply (tail_loop_max T rhs assigned m0 a last i d fuel Ha Hfuel Hd j).
  - rewrite for_loop_stop by reflexivity. apply Hd.
Qed.

Lemma stream_path_mem (lhs : Functors.dest T) (first last q : N) :
  first <= vector_end first last ->
  vector_end first last <= first + q * W ->
  first + q * W < vector_end first last + W ->
  forall j,
    Functors.mem (Functors.VectorizedAssign_stream cfg tr lhs rhs first last) j
    = combined assigned rhs first
        (if Functors.remainder cfg tr then N.max (first + q * W) last else first + q * W)
        (Functors.mem lhs) j.
Proof.
  intros Hfl Hq1 Hq2 j. pose proof (W_pos tr) as HW.
  unfold Functors.VectorizedAssign_stream. cbv zeta.
  set (last' := vector_end first last) in *.
  set (fuel := fuel_for (N.max last' last) first).
  assert (H0 : forall j, Functors.mem lhs j
                         = combined assigned rhs first (first + 0 * W) (Functors.mem lhs) j).
  { intros x. unfold combined. by_cases. }
  destruct (lane_loop T tr rhs (fun i => i <? last') 1
              (fun i d => Functors.put W Functors.StreamStore (Functors.load rhs i) i d)
              (Functors.mem lhs) first last' q) with (fuel := fuel) (k := 0) (d := lhs)
    as [k' [Hk' [Hfst [Hmem Hexit]]]].
  - lia.
  - intros i Hc. now apply N.ltb_lt.
  - intros k Hc. apply N.ltb_lt in Hc. nia.
  - intros i d Ha Hd. replace (i + 1 * W) with (i + W) by lia. now apply put_extends.
  - lia.
  - exact H0.
  - unfold fuel, fuel_for. lia.
  - replace (first + 0 * W) with first in * by lia.
    replace (1 * W) with W in * by lia.
    apply N.ltb_ge in Hexit.
    assert (Hkq : k' = q) by nia. subst k'.
    destruct (for_loop fuel (fun i => i <? last') W _ first lhs) as [i1 d1].
    simpl in Hfst, Hmem. subst i1.
    pose proof (assign_tail (Functors.mem lhs) first last (first + q * W) d1 fuel) as Ht.
    destruct (for_loop fuel _ 1 _ (first + q * W) d1) as [i2 d2].
    apply Ht.
    + lia.
    + unfold fuel, fuel_for. lia.
    + exact Hmem.
Qed.

Lemma store_path_mem (lhs : Functors.dest T) (first last q : N) :
  first <= vector_end first last ->
  vector_end first last <= first + q * W ->
  first + q * W < vector_end first last + W ->
  forall j,
    Functors.mem (Functors.VectorizedAssign_store cfg tr lhs rhs first last) j
    = combined assigned rhs first
        (if Functors.remainder cfg tr then N.max (first + q * W) last else first + q * W)
        (Functors.mem lhs) j.
Proof.
  intros Hfl Hq1 Hq2 j. pose proof (W_pos tr) as HW.
  unfold Functors.VectorizedAssign_store. cbv zeta.
  set (last' := vector_end first last) in *.
  set (fuel := fuel_for (N.max last' last) first).
  assert (H0 : forall j, Functors.mem lhs j
                         = combined assigned rhs first (first + 0 * W) (Functors.mem lhs) j).
  { intros x. unfold combined. by_cases. }
  destruct (lane_loop T tr rhs (fun i => i + W * 3 <? last') 4
              (fun i d =>
                 Functors.put W Functors.VectorStore (Functors.load rhs (i + 3 * W)) (i + 3 * W)
                   (Functors.put W Functors.VectorStore (Functors.load rhs (i + 2 * W)) (i + 2 * W)
                      (Functors.put W Functors.VectorStore (Functors.load rhs (i + 1 * W)) (i + 1 * W)
                         (Functors.put W Functors.VectorStore (Functors.load rhs (i + 0 * W))
                            (i + 0 * W) d))))
              (Functors.mem lhs) first last' q) with (fuel := fuel) (k := 0) (d := lhs)
    as [k1 [Hk1 [Hfst1 [Hmem1 _]]]].
  - lia.
  - intros i Hc. apply N.ltb_lt in Hc. lia.
  - intros k Hc. apply N.ltb_lt in Hc. nia.
  - intros i d Ha Hd. now apply four_puts.
  - lia.
  - exact H0.
  - unfold fuel, fuel_for. lia.
  - replace (first + 0 * W) with first in * by lia.
    destruct (for_loop fuel (fun i => i + W * 3 <? last') (4 * W) _ first lhs) as [i1 d1].
    simpl in Hfst1, Hmem1. subst i1.
    destruct (lane_loop T tr rhs (fun i => i <? last') 1
                (fun i d => Functors.put W Functors.VectorStore (Functors.load rhs i) i d)
                (Functors.mem lhs) first last' q) with (fuel := fuel) (k := k1) (d := d1)
      as [k2 [Hk2 [Hfst2 [Hmem2 Hexit]]]].
    + lia.
    + intros i Hc. now apply N.ltb_lt.
    + intros k Hc. apply N.ltb_lt in Hc. nia.
    + intros i d Ha Hd. replace (i + 1 * W) with (i + W) by lia. now apply put_extends.
    + exact Hk1.
    + exact Hmem1.
    + unfold fuel, fuel_for. lia.
    + replace (1 * W) with W in * by lia.
      apply N.ltb_ge in Hexit.
      assert (Hkq : k2 = q) by nia. subst k2.
      destruct (for_loop fuel (fun i => i <? last') W _ (first + k1 * W) d1) as [i2 d2].
      simpl in Hfst2, Hmem2. subst i2.
      pose proof (assign_tail (Functors.mem lhs) first last (first + q * W) d2 fuel) as Ht.
      destruct (for_loop fuel _ 1 _ (first + q * W) d2) as [i3 d3].
      apply Ht.
      * lia.
      * unfold fuel, fuel_for. lia.
      * exact Hmem2.
Qed.

(** [x & size_t(-W)] for a lane count that is a power of two. *)
Lemma ldiff_pow2 (x k : N) : N.ldiff x (2 ^ k - 1) = 2 ^ k * (x / 2 ^ k).
Proof.
  replace (2 ^ k - 1) with (N.ones k)
    by (rewrite N.ones_equiv; apply N.pred_sub).
  rewrite N.ldiff_ones_r, N.shiftl_mul_pow2, N.shiftr_div_pow2. lia.
Qed.

Lemma vector_end_ge (first last : N) :
  first <= last -> first <= vector_end first last.
Proof. intros H. destruct (Functors.remainder cfg tr); lia. Qed.

(** The two paths of the vectorized assign leave the same memory. *)
Lemma stream_store_same_mem (lhs : Functors.dest T) (first last : N) (j : N) :
  first <= last ->
  Functors.mem (Functors.VectorizedAssign_stream cfg tr lhs rhs first last) j
  = Functors.mem (Functors.VectorizedAssign_store cfg tr lhs rhs first last) j.
Proof.
  intros Hle.
  destruct (lanes_cover tr first (vector_end first last) (vector_end_ge first last Hle))
    as [q [H1 H2]].
  rewrite (stream_path_mem lhs first last q) by (assumption || now apply vector_end_ge).
  now rewrite (store_path_mem lhs first last q) by (assumption || now apply vector_end_ge).
Qed.

(** With the remainder tail and a lane count that is a power of two, the
    vectorized assign leaves the source on its range and nothing else. *)
Lemma VectorizedAssign_mem (lhs : Functors.dest T) (alias : bool) (first last k : N) (j : N) :
  Functors.remainder cfg tr = true ->
  W = 2 ^ k ->
  first <= last ->
  Functors.mem (Functors.VectorizedAssign cfg tr lhs rhs alias first last) j
  = if (first <=? j) && (j <? last) then rhs j else Functors.mem lhs j.
Proof.
  intros Hrem HW Hle.
  assert (Hst : Functors.mem (Functors.VectorizedAssign cfg tr lhs rhs alias first last) j
                = Functors.mem (Functors.VectorizedAssign_store cfg tr lhs rhs first last) j).
  { unfold Functors.VectorizedAssign.
    destruct (Functors.use_streaming cfg tr alias (last - first));
      [ now apply stream_store_same_mem | reflexivity ]. }
  rewrite Hst.
  pose proof (W_pos tr) as HWp.
  assert (Hend : vector_end first last = first + (last - first) / W * W).
  { rewrite Hrem, HW, ldiff_pow2. f_equal. apply N.mul_comm. }
  pose proof (N.Div0.mul_div_le (last - first) W) as Hdiv.
  revert Hend Hdiv. generalize ((last - first) / W). intros q Hend Hdiv.
  rewrite (store_path_mem lhs first last q).
  - rewrite Hrem. rewrite N.max_r by lia. reflexivity.
  - rewrite Hend. lia.
  - rewrite Hend. lia.
  - rewrite Hend. lia.
Qed.

End PlainPathFacts.

(** X7.  With the remainder tail compiled in and a lane count that is a
    power of two, the vectorized assign on [first, last) leaves the element
    of the source at every index of the range and keeps every other element,
    on the streaming and on the cached path alike; on [0, size) it leaves the
    memory that the scalar [Assign] leaves. *)
Theorem VectorizedAssign_writes_source :
  forall (T : Type) (cfg : Functors.config) (tr : Functors.operand_traits)
         (lhs : Functors.dest T) (rhs : Functors.reader T) (alias : bool)
         (first last k : N),
    Functors.remainder cfg tr = true ->
    Functors.W tr = 2 ^ k ->
    first <= last ->
    forall j,
      Functors.mem (Functors.VectorizedAssign cfg tr lhs rhs alias first last) j
      = (if (first <=? j) && (j <? last) then rhs j else Functors.mem lhs j)
      /\ Functors.mem (Functors.VectorizedAssign cfg tr lhs rhs alias 0 last) j
         = Functors.mem (Functors.Assign cfg lhs rhs last) j.
Proof.
  intros T cfg tr lhs rhs alias first last k Hrem HW Hle j. split.
  - now apply (VectorizedAssign_mem T cfg tr rhs lhs alias first last k j).
  - rewrite (VectorizedAssign_mem T cfg tr rhs lhs alias 0 last k j) by (assumption || lia).
    rewrite Assign_mem. by_cases.
Qed.

Lemma VectorizedAssign_writes_source_witness :
  Functors.remainder tiny_cache four_lanes = true
  /\ Functors.W four_lanes = 2 ^ 2
  /\ 1 <= 11
  /\ Functors.mem (Functors.VectorizedAssign tiny_cache four_lanes zeros ones false 1 11) 10
     = (if (1 <=? 10) && (10 <? 11) then ones 10 else Functors.mem zeros 10).
Proof.
  split; [ reflexivity | ]. split; [ reflexivity | ]. split; [ discriminate | ].
  apply (proj1 (VectorizedAssign_writes_source N tiny_cache four_lanes zeros ones false
                  1 11 2 eq_refl eq_refl ltac:(discriminate) 10)).
Defined.

(** X8.  The streaming path and the cached path of the vectorized assign
    leave the same memory on every range, for every lane count and with or
    without the remainder tail: the loop of single vectors of the streaming
    path covers the lanes that the loop of four vectors and the loop of
    single vectors of the cached path cover together. *)
Theorem stream_and_store_paths_same_memory :
  forall (T : Type) (cfg : Functors.config) (tr : Functors.operand_traits)
         (lhs : Functors.dest T) (rhs : Functors.reader T) (first last : N),
    first <= last ->
    forall j,
      Functors.mem (Functors.VectorizedAssign_stream cfg tr lhs rhs first last) j
      = Functors.mem (Functors.VectorizedAssign_store cfg tr lhs rhs first last) j.
Proof.
  intros T cfg tr lhs rhs first last Hle j.
  now apply stream_store_same_mem.
Qed.

Lemma stream_and_store_paths_same_memory_witness :
  0 <= 23
  /\ Functors.mem (Functors.VectorizedAssign_stream padded_build four_lanes zeros ones 0 23) 22
     = Functors.mem (Functors.VectorizedAssign_store padded_build four_lanes zeros ones 0 23) 22.
Proof.
  split; [ discriminate | ].
  apply (stream_and_store_paths_same_memory N padded_build four_lanes zeros ones 0 23).
  discriminate.
Defined.

(** * Further properties of the selectors *)

(** X9.  [select_vector_mode] returns a mode other than [NONE] exactly when
    [are_vectorizable] holds; the mode it returns is enabled in the build
    and vectorizes the pair of types; and no enabled mode that vectorizes the
    pair is wider than the one returned. *)
Theorem select_vector_mode_widest_enabled :
  forall (cfg : build) (E R : etl_traits),
    (Selectors.are_vectorizable cfg E R = true
     <-> Selectors.select_vector_mode cfg E R <> NONE)
    /\ (Selectors.select_vector_mode cfg E R <> NONE ->
        mode_enabled cfg (Selectors.select_vector_mode cfg E R) = true
        /\ Selectors.are_vectorizable_select cfg
             (Selectors.select_vector_mode cfg E R) E R = true)
    /\ (forall V, mode_enabled cfg V = true ->
                  Selectors.are_vectorizable_select cfg V E R = true ->
                  mode_width V <= mode_width (Selectors.select_vector_mode cfg E R)).
Proof.
  intros cfg E R.
  unfold Selectors.are_vectorizable, Selectors.select_vector_mode.
  destruct (avx512_enabled cfg && Selectors.are_vectorizable_select cfg AVX512 E R) eqn:A;
    [ | destruct (avx_enabled cfg && Selectors.are_vectorizable_select cfg AVX E R) eqn:B;
        [ | destruct (sse3_enabled cfg && Selectors.are_vectorizable_select cfg SSE3 E R) eqn:C ] ];
    simpl.
  - apply andb_prop in A. destruct A as [A1 A2].
    split; [ split; [ discriminate | reflexivity ] | ].
    split; [ intros _; now split | ].
    intros V HV HS. destruct V; simpl; lia.
  - apply andb_prop in B. destruct B as [B1 B2].
    split; [ split; [ discriminate | reflexivity ] | ].
    split; [ intros _; now split | ].
    intros V HV HS. destruct V; simpl in HV |- *; try lia.
    rewrite HV, HS in A. discriminate A.
  - apply andb_prop in C. destruct C as [C1 C2].
    split; [ split; [ discriminate | reflexivity ] | ].
    split; [ intros _; now split | ].
    intros V HV HS. destruct V; simpl in HV |- *; try lia.
    + rewrite HV, HS in B. discriminate B.
    + rewrite HV, HS in A. discriminate A.
  - split; [ split; [ discriminate | intros H; now contradiction H ] | ].
    split; [ intros H; now contradiction H | ].
    intros V HV HS. destruct V; simpl in HV |- *; try lia.
    + rewrite HV, HS in C. discriminate C.
    + rewrite HV, HS in B. discriminate B.
    + rewrite HV, HS in A. discriminate A.
Qed.

(** Two float matrices in the AVX build: AVX is selected, SSE3 is narrower. *)
Lemma select_vector_mode_widest_enabled_witness :
  Selectors.select_vector_mode avx_build (dense_matrix float_t RowMajor)
    (dense_matrix float_t RowMajor) = AVX
  /\ mode_enabled avx_build SSE3 = true
  /\ mode_width SSE3
     <= mode_width (Selectors.select_vector_mode avx_build (dense_matrix float_t RowMajor)
                      (dense_matrix float_t RowMajor)).
Proof.
  split; [ reflexivity | ]. split; [ reflexivity | ].
  apply (proj2 (proj2 (select_vector_mode_widest_enabled avx_build
                         (dense_matrix float_t RowMajor) (dense_matrix float_t RowMajor)))
           SSE3); reflexivity.
Defined.

(** X10.  Operands of different storage orders are never vectorized, and
    nothing is vectorized in a build that does not vectorize expressions:
    then [are_vectorizable] fails, no vector mode is selected, and none of
    the vectorized selectors (plain assign, compound, compound div) holds. *)
Theorem no_vectorization_across_orders :
  forall (cfg : build) (E R : etl_traits),
    vectorize_expr cfg = false \/ storage_order E <> storage_order R ->
    Selectors.are_vectorizable cfg E R = false
    /\ Selectors.select_vector_mode cfg E R = NONE
    /\ Selectors.vectorized_assign cfg E R = false
    /\ Selectors.vectorized_compound cfg E R = false
    /\ Selectors.vectorized_compound_div cfg E R = false.
Proof.
  intros cfg E R H.
  assert (Hsel : forall V, Selectors.are_vectorizable_select cfg V E R = false).
  { intros V. unfold Selectors.are_vectorizable_select. destruct H as [H | H].
    - now rewrite H.
    - destruct (order_eqb (storage_order E) (storage_order R)) eqn:Eo.
      + apply order_eqb_eq in Eo. contradiction.
      + now rewrite !andb_false_r. }
  assert (Hv : Selectors.are_vectorizable cfg E R = false).
  { unfold Selectors.are_vectorizable. now rewrite !Hsel, !andb_false_r. }
  split; [ exact Hv | ].
  split; [ unfold Selectors.select_vector_mode; now rewrite !Hsel, !andb_false_r | ].
  unfold Selectors.vectorized_assign, Selectors.vectorized_compound,
    Selectors.vectorized_compound_div.
  rewrite Hv, !andb_false_r. now repeat split.
Qed.

Lemma no_vectorization_across_orders_witness :
  (vectorize_expr avx_build = false
   \/ storage_order (dense_matrix float_t ColumnMajor)
      <> storage_order (dense_matrix float_t RowMajor))
  /\ Selectors.are_vectorizable avx_build (dense_matrix float_t ColumnMajor)
       (dense_matrix float_t RowMajor) = false.
Proof.
  split; [ right; discriminate | ].
  apply (no_vectorization_across_orders avx_build (dense_matrix float_t ColumnMajor)
           (dense_matrix float_t RowMajor)).
  right. discriminate.
Defined.

(** X11.  In a build without the GPU overloads, every compound operation
    has exactly one enabled overload.  [add_evaluate] (and [sub_evaluate],
    which has the same selectors) and [mul_evaluate] run the vectorized
    implementation when the operands are vectorizable together, else the
    direct one when the destination has direct memory access, else the
    standard one; [div_evaluate] does the same with its vectorized selector,
    which also asks for a floating-point or complex element type. *)
Theorem compound_dispatch_is_unique :
  forall (cfg : build) (gpu_compound gpu_compound_div : etl_traits -> etl_traits -> bool)
         (E R : etl_traits),
    ETL_CUBLAS_MODE cfg = false ->
    ETL_EGBLAS_MODE cfg = false ->
    Dispatch.add_evaluate cfg gpu_compound E R
    = Some (if Selectors.are_vectorizable cfg E R then Dispatch.vectorized_impl
            else if has_direct_access R then Dispatch.direct_impl
                 else Dispatch.standard_impl)
    /\ Dispatch.mul_evaluate cfg gpu_compound E R
       = Some (if Selectors.are_vectorizable cfg E R then Dispatch.vectorized_impl
               else if has_direct_access R then Dispatch.direct_impl
                    else Dispatch.standard_impl)
    /\ Dispatch.div_evaluate cfg gpu_compound_div E R
       = Some (if (is_floating_t (value_t E) || is_complex_t (value_t E))
                  && Selectors.are_vectorizable cfg E R
               then Dispatch.vectorized_impl
               else if has_direct_access R then Dispatch.direct_impl
                    else Dispatch.standard_impl).
Proof.
  intros cfg g gd E R Hc He.
  unfold Dispatch.add_evaluate, Dispatch.mul_evaluate, Dispatch.div_evaluate,
    Dispatch.div_overloads, resolve,
    Selectors.standard_compound, Selectors.direct_compound, Selectors.vectorized_compound,
    Selectors.standard_compound_div, Selectors.direct_compound_div,
    Selectors.vectorized_compound_div.
  rewrite Hc, He. simpl.
  destruct (Selectors.are_vectorizable cfg E R), (has_direct_access R),
    (is_floating_t (value_t E) || is_complex_t (value_t E)); simpl; now repeat split.
Qed.

Lemma compound_dispatch_is_unique_witness :
  ETL_CUBLAS_MODE avx_build = false
  /\ ETL_EGBLAS_MODE avx_build = false
  /\ Dispatch.add_evaluate avx_build (fun _ _ => false)
       (dense_matrix float_t RowMajor) (dense_matrix float_t RowMajor)
     = Some Dispatch.vectorized_impl.
Proof.
  split; [ reflexivity | ]. split; [ reflexivity | ].
  apply (proj1 (compound_dispatch_is_unique avx_build (fun _ _ => false) (fun _ _ => false)
                  (dense_matrix float_t RowMajor) (dense_matrix float_t RowMajor)
                  eq_refl eq_refl)).
Defined.

(** X12.  Away from the overlap of the fast and the vectorized selector, a
    plain assignment into a destination with direct memory access has exactly
    one enabled overload of [assign_evaluate_impl]: the full fast copy for a
    source with direct memory access and the same element type, the
    converting fast copy for another element type; for a source without
    direct memory access the GPU implementation when both operands are
    accelerator-computable, else the vectorized one when they are
    vectorizable together, else the direct one.  A destination without
    direct memory access whose operands are neither accelerator-computable
    together nor vectorizable together gets the standard implementation. *)
Theorem plain_assign_dispatch_by_precedence :
  forall (cfg : build) (E R : etl_traits),
    has_direct_access E && Selectors.are_vectorizable cfg E R = false ->
    (has_direct_access R = true ->
     Dispatch.assign_evaluate_impl cfg E R
     = Some (if has_direct_access E
             then (if same_value_t E R then Dispatch.fast_impl_full else Dispatch.fast_impl)
             else if all_gpu_computable E R then Dispatch.gpu_impl
                  else if Selectors.are_vectorizable cfg E R then Dispatch.vectorized_impl
                       else Dispatch.direct_impl))
    /\ (has_direct_access R = false ->
        all_gpu_computable E R = false ->
        Selectors.are_vectorizable cfg E R = false ->
        Dispatch.assign_evaluate_impl cfg E R = Some Dispatch.standard_impl).
Proof.
  intros cfg E R Hov.
  unfold Dispatch.assign_evaluate_impl, resolve,
    Selectors.standard_assign, Selectors.direct_assign, Selectors.vectorized_assign,
    Selectors.gpu_assign, Selectors.fast_assign, all_dma.
  split.
  - intros HR. rewrite HR.
    destruct (has_direct_access E), (same_value_t E R), (all_gpu_computable E R),
      (Selectors.are_vectorizable cfg E R); simpl in *; try discriminate; reflexivity.
  - intros HR Hg Hv. rewrite HR, Hg, Hv.
    destruct (has_direct_access E), (same_value_t E R); reflexivity.
Qed.

Lemma plain_assign_dispatch_by_precedence_witness :
  has_direct_access (dense_matrix float_t RowMajor)
  && Selectors.are_vectorizable avx_build (dense_matrix float_t RowMajor)
       (dense_matrix int_t RowMajor) = false
  /\ has_direct_access (dense_matrix int_t RowMajor) = true
  /\ Dispatch.assign_evaluate_impl avx_build (dense_matrix float_t RowMajor)
       (dense_matrix int_t RowMajor)
     = Some Dispatch.fast_impl.
Proof.
  split; [ reflexivity | ]. split; [ reflexivity | ].
  apply (proj1 (plain_assign_dispatch_by_precedence avx_build
                  (dense_matrix float_t RowMajor) (dense_matrix int_t RowMajor) eq_refl)).
  reflexivity.
Defined.

(** * Further properties of the evaluator *)

Section EvaluatorFacts.
Variable T : Type.
Variable fcfg : Functors.config.
Variable tr : Functors.operand_traits.

Lemma ensure_size (r : Evaluator.container T) :
  Evaluator.size (Evaluator.safe_ensure_cpu_up_to_date r) = Evaluator.size r.
Proof.
  unfold Evaluator.safe_ensure_cpu_up_to_date, Evaluator.ensure_cpu_up_to_date.
  now destruct (Evaluator.cpu_up_to_date r).
Qed.

Lemma ensure_gpu_memory (r : Evaluator.container T) :
  Evaluator.gpu_memory (Evaluator.safe_ensure_cpu_up_to_date r) = Evaluator.gpu_memory r.
Proof.
  unfold Evaluator.safe_ensure_cpu_up_to_date, Evaluator.ensure_cpu_up_to_date.
  now destruct (Evaluator.cpu_up_to_date r).
Qed.

Lemma ensure_up_to_date (r : Evaluator.container T) :
  Evaluator.cpu_up_to_date r = true -> Evaluator.safe_ensure_cpu_up_to_date r = r.
Proof.
  intros H. unfold Evaluator.safe_ensure_cpu_up_to_date, Evaluator.ensure_cpu_up_to_date.
  now rewrite H.
Qed.

Lemma standard_loop_mem (op : T -> T -> T) (rhs : Functors.reader T)
      (r : Evaluator.container T) (j : N) :
  Evaluator.cpu_memory (Evaluator.standard_loop (Functors.modify op) rhs r) j
  = combined op rhs 0 (Evaluator.size r) (Evaluator.cpu_memory r) j.
Proof.
  unfold Evaluator.standard_loop, Evaluator.on_cpu. simpl.
  apply (tail_loop T op rhs (Evaluator.cpu_memory r) 0
           (Evaluator.size r) 0).
  - lia.
  - lia.
  - unfold fuel_for. lia.
  - intros k. unfold combined. by_cases.
Qed.

Lemma standard_compound_impl_mem (op : T -> T -> T) (e : Evaluator.expression T)
      (r : Evaluator.container T) (j : N) :
  Evaluator.cpu_memory (Evaluator.standard_compound_impl op e r) j
  = combined op (Evaluator.read e) 0 (Evaluator.size r)
      (Evaluator.cpu_memory (Evaluator.safe_ensure_cpu_up_to_date r)) j.
Proof.
  transitivity (Evaluator.cpu_memory
                  (Evaluator.standard_loop (Functors.modify op) (Evaluator.read e)
                     (Evaluator.safe_ensure_cpu_up_to_date r)) j); [ reflexivity | ].
  rewrite standard_loop_mem, ensure_size. reflexivity.
Qed.

Lemma standard_compound_add_impl_mem (add : T -> T -> T) (e : Evaluator.expression T)
      (r : Evaluator.container T) (j : N) :
  Evaluator.cpu_memory (Evaluator.standard_compound_add_impl add e r) j
  = combined add (Evaluator.read_unsynced e) 0 (Evaluator.size r) (Evaluator.cpu_memory r) j.
Proof.
  transitivity (Evaluator.cpu_memory
                  (Evaluator.standard_loop (Functors.modify add) (Evaluator.read_unsynced e) r) j);
    [ reflexivity | ].
  apply standard_loop_mem.
Qed.

Lemma direct_compound_impl_mem (op : T -> T -> T) (e : Evaluator.expression T)
      (r : Evaluator.container T) (j : N) :
  Evaluator.cpu_memory (Evaluator.direct_compound_impl fcfg op e r) j
  = combined op (Evaluator.read e) 0 (Evaluator.size r)
      (Evaluator.cpu_memory (Evaluator.safe_ensure_cpu_up_to_date r)) j.
Proof.
  transitivity (Functors.mem
                  (Functors.scalar_compound fcfg op
                     {| Functors.mem := Evaluator.cpu_memory (Evaluator.safe_ensure_cpu_up_to_date r);
                        Functors.writes := [] |}
                     (Evaluator.read e) 0
                     (Evaluator.size (Evaluator.safe_ensure_cpu_up_to_date r))) j);
    [ reflexivity | ].
  rewrite scalar_compound_mem by lia. rewrite ensure_size. reflexivity.
Qed.

Lemma vectorized_compound_impl_mem (op : T -> T -> T) (e : Evaluator.expression T)
      (r : Evaluator.container T) (j : N) :
  Functors.remainder fcfg tr = true ->
  Evaluator.cpu_memory (Evaluator.vectorized_compound_impl fcfg tr op e r) j
  = combined op (Evaluator.read e) 0 (Evaluator.size r)
      (Evaluator.cpu_memory (Evaluator.safe_ensure_cpu_up_to_date r)) j.
Proof.
  intros Hrem.
  transitivity (Functors.mem
                  (Functors.vectorized_compound fcfg tr op
                     {| Functors.mem := Evaluator.cpu_memory (Evaluator.safe_ensure_cpu_up_to_date r);
                        Functors.writes := [] |}
                     (Evaluator.read e) 0
                     (Evaluator.size (Evaluator.safe_ensure_cpu_up_to_date r))) j);
    [ reflexivity | ].
  rewrite vectorized_compound_mem by (assumption || lia). rewrite ensure_size. reflexivity.
Qed.

Lemma vectorized_assign_impl_mem (e : Evaluator.expression T) (r : Evaluator.container T)
      (k j : N) :
  Functors.remainder fcfg tr = true ->
  Functors.W tr = 2 ^ k ->
  Evaluator.cpu_memory (Evaluator.vectorized_assign_impl fcfg tr e r) j
  = if j <? Evaluator.size r then Evaluator.read e j
    else Evaluator.cpu_memory (Evaluator.safe_ensure_cpu_up_to_date r) j.
Proof.
  intros Hrem HW.
  transitivity (Functors.mem
                  (Functors.VectorizedAssign fcfg tr
                     {| Functors.mem := Evaluator.cpu_memory (Evaluator.safe_ensure_cpu_up_to_date r);
                        Functors.writes := [] |}
                     (Evaluator.read e) (Evaluator.alias e) 0
                     (Evaluator.size (Evaluator.safe_ensure_cpu_up_to_date r))) j);
    [ reflexivity | ].
  rewrite (VectorizedAssign_mem T fcfg tr (Evaluator.read e) _ (Evaluator.alias e) 0 _ k j Hrem HW)
    by lia.
  rewrite ensure_size. cbn [Functors.mem]. by_cases.
Qed.

End EvaluatorFacts.

(** X13.  The implementations of the compound operations that bring the
    destination to the host first compute the same destination: the standard
    implementation of sub, mul and div and the modulo, the direct
    implementation of add, sub, mul and div, and (with the remainder tail
    compiled in) the vectorized implementation of add, sub, mul and div
    combine every element below the size of the destination with the element
    of the source at the same index, where the old element is the one of the
    host memory after [safe_ensure_cpu_up_to_date(result)]; the elements from
    the size on, the device memory and the size are left as they were.  The
    standard implementation of add is not one of them. *)
Theorem compound_implementations_agree :
  forall (T : Type) (fcfg : Functors.config) (tr : Functors.operand_traits)
         (add sub mul div modulo : T -> T -> T)
         (e : Evaluator.expression T) (r : Evaluator.container T),
    let host := Evaluator.cpu_memory (Evaluator.safe_ensure_cpu_up_to_date r) in
    let expected := fun (op : T -> T -> T) j =>
                      if j <? Evaluator.size r
                      then op (host j) (Evaluator.read e j) else host j in
    let scalar := [ (sub, Evaluator.standard_compound_sub_impl sub);
                    (mul, Evaluator.standard_compound_mul_impl mul);
                    (div, Evaluator.standard_compound_div_impl div);
                    (modulo, Evaluator.mod_evaluate modulo);
                    (add, Evaluator.direct_compound_add_impl fcfg add);
                    (sub, Evaluator.direct_compound_sub_impl fcfg sub);
                    (mul, Evaluator.direct_compound_mul_impl fcfg mul);
                    (div, Evaluator.direct_compound_div_impl fcfg div) ] in
    let vectorized := [ (add, Evaluator.vectorized_compound_add_impl fcfg tr add);
                        (sub, Evaluator.vectorized_compound_sub_impl fcfg tr sub);
                        (mul, Evaluator.vectorized_compound_mul_impl fcfg tr mul);
                        (div, Evaluator.vectorized_compound_div_impl fcfg tr div) ] in
    (forall p, In p scalar ->
       forall j, Evaluator.cpu_memory (snd p e r) j = expected (fst p) j)
    /\ (Functors.remainder fcfg tr = true ->
        forall p, In p vectorized ->
          forall j, Evaluator.cpu_memory (snd p e r) j = expected (fst p) j)
    /\ (forall p, In p (scalar ++ vectorized) ->
          Evaluator.gpu_memory (snd p e r) = Evaluator.gpu_memory r
          /\ Evaluator.size (snd p e r) = Evaluator.size r).
Proof.
  intros T fcfg tr add sub mul div modulo e r host expected scalar vectorized.
  assert (Hc : forall op j,
             combined op (Evaluator.read e) 0 (Evaluator.size r) host j = expected op j).
  { intros op j. unfold combined, expected. by_cases. }
  assert (Hs : forall op j,
             Evaluator.cpu_memory (Evaluator.standard_compound_impl op e r) j = expected op j).
  { intros op j. rewrite standard_compound_impl_mem. apply Hc. }
  assert (Hd : forall op j,
             Evaluator.cpu_memory (Evaluator.direct_compound_impl fcfg op e r) j
             = expected op j).
  { intros op j. rewrite direct_compound_impl_mem. apply Hc. }
  assert (Hg : forall f0 : Functors.dest T -> Functors.dest T,
             Evaluator.gpu_memory
               (Evaluator.on_cpu f0 (Evaluator.safe_ensure_cpu_up_to_date r))
             = Evaluator.gpu_memory r
             /\ Evaluator.size
                  (Evaluator.on_cpu f0 (Evaluator.safe_ensure_cpu_up_to_date r))
                = Evaluator.size r).
  { intros f0. split; [ exact (ensure_gpu_memory T r) | exact (ensure_size T r) ]. }
  split; [ | split ].
  - intros p Hp. unfold scalar in Hp. cbn [In] in Hp.
    destruct Hp as [<- | [<- | [<- | [<- | [<- | [<- | [<- | [<- | []]]]]]]]];
      cbn [fst snd]; first [ apply Hs | apply Hd ].
  - intros Hrem p Hp. unfold vectorized in Hp. cbn [In] in Hp.
    assert (Hv : forall op j,
               Evaluator.cpu_memory (Evaluator.vectorized_compound_impl fcfg tr op e r) j
               = expected op j).
    { intros op j. rewrite vectorized_compound_impl_mem by assumption. apply Hc. }
    destruct Hp as [<- | [<- | [<- | [<- | []]]]]; cbn [fst snd]; apply Hv.
  - intros p Hp. unfold scalar, vectorized in Hp. cbn [In app] in Hp.
    destruct Hp as [<- | [<- | [<- | [<- | [<- | [<- | [<- | [<- |
                   [<- | [<- | [<- | [<- | []]]]]]]]]]]]];
      cbn [fst snd]; apply Hg.
Qed.

Lemma compound_implementations_agree_witness :
  Functors.remainder plain_build four_lanes = true
  /\ map (Evaluator.cpu_memory
            (Evaluator.vectorized_compound_sub_impl plain_build four_lanes N.sub
               synced_source device_only)) [0; 1; 2; 3; 4]
     = [6; 5; 4; 3; 7]
  /\ map (Evaluator.cpu_memory
            (Evaluator.standard_compound_sub_impl N.sub synced_source device_only))
         [0; 1; 2; 3; 4]
     = [6; 5; 4; 3; 7].
Proof.
  split; [ reflexivity | ].
  destruct (compound_implementations_agree N plain_build four_lanes
              N.add N.sub N.mul N.div N.modulo synced_source device_only) as [Hs [Hv _]].
  cbv zeta in Hs, Hv. split.
  - pose proof (Hv eq_refl
                  (N.sub, Evaluator.vectorized_compound_sub_impl plain_build four_lanes N.sub)
                  (or_intror (or_introl eq_refl))) as H.
    cbn [fst snd] in H. unfold map. rewrite !H. reflexivity.
  - pose proof (Hs (N.sub, Evaluator.standard_compound_sub_impl N.sub)
                  (or_introl eq_refl)) as H.
    cbn [fst snd] in H. unfold map. rewrite !H. reflexivity.
Defined.

(** X14.  [standard_compound_add_impl] makes no call of
    [safe_ensure_cpu_up_to_date], neither of the destination nor of the
    source: it adds the source, read on the host as it is, to the host memory
    of the destination as it is, whatever the flags say.  When the host
    memory of the destination is up to date and the source reads on the host
    as it reads after a synchronisation, it leaves the elements that
    [direct_compound_add_impl] leaves. *)
Theorem standard_compound_add_reads_host_memory_as_is :
  forall (T : Type) (fcfg : Functors.config) (add : T -> T -> T)
         (e : Evaluator.expression T) (r : Evaluator.container T),
    (forall j, Evaluator.cpu_memory (Evaluator.standard_compound_add_impl add e r) j
               = if j <? Evaluator.size r
                 then add (Evaluator.cpu_memory r j) (Evaluator.read_unsynced e j)
                 else Evaluator.cpu_memory r j)
    /\ (Evaluator.cpu_up_to_date r = true ->
        (forall j, j < Evaluator.size r -> Evaluator.read_unsynced e j = Evaluator.read e j) ->
        forall j, Evaluator.cpu_memory (Evaluator.standard_compound_add_impl add e r) j
                  = Evaluator.cpu_memory (Evaluator.direct_compound_add_impl fcfg add e r) j).
Proof.
  intros T fcfg add e r. split.
  - intros j. rewrite standard_compound_add_impl_mem. unfold combined. by_cases.
  - intros Hup Hrd j. rewrite standard_compound_add_impl_mem.
    unfold Evaluator.direct_compound_add_impl.
    rewrite direct_compound_impl_mem, (ensure_up_to_date T r Hup).
    unfold combined.
    destruct ((0 <=? j) && (j <? Evaluator.size r)) eqn:E; [ | reflexivity ].
    apply andb_prop in E. destruct E as [_ E]. apply N.ltb_lt in E.
    now rewrite (Hrd j E).
Qed.

Lemma standard_compound_add_reads_host_memory_as_is_witness :
  Evaluator.cpu_up_to_date blank = true
  /\ (forall j, j < Evaluator.size blank ->
                Evaluator.read_unsynced synced_source j = Evaluator.read synced_source j)
  /\ forall j, Evaluator.cpu_memory (Evaluator.standard_compound_add_impl N.add synced_source blank) j
               = Evaluator.cpu_memory
                   (Evaluator.direct_compound_add_impl plain_build N.add synced_source blank) j.
Proof.
  split; [ reflexivity | ]. split; [ reflexivity | ].
  apply (proj2 (standard_compound_add_reads_host_memory_as_is N plain_build N.add
                  synced_source blank)).
  - reflexivity.
  - reflexivity.
Defined.

(** Where the two differ.  On a destination valid on the device only, the
    standard add works on the stale host memory (zeros) and the direct add on
    the device data; from a source valid on the device only, the standard add
    reads the stale host memory of the source (zeros) and the direct add its
    device data. *)
Example standard_add_without_synchronisation :
  map (Evaluator.cpu_memory (Evaluator.standard_compound_add_impl N.add synced_source device_only))
      [0; 1; 2; 3]
  = [1; 2; 3; 4]
  /\ map (Evaluator.cpu_memory
            (Evaluator.direct_compound_add_impl plain_build N.add synced_source device_only))
         [0; 1; 2; 3]
     = [8; 9; 10; 11]
  /\ map (Evaluator.cpu_memory (Evaluator.standard_compound_add_impl N.add device_source blank))
         [0; 1; 2; 3]
     = [0; 0; 0; 0]
  /\ map (Evaluator.cpu_memory
            (Evaluator.direct_compound_add_impl plain_build N.add device_source blank))
         [0; 1; 2; 3]
     = [1; 2; 3; 4].
Proof. repeat split. Qed.

(** X15.  Below the size of the destination, [standard_assign_impl] leaves
    the element of the source as it reads on the host without a
    synchronisation (the function makes no call of
    [safe_ensure_cpu_up_to_date]); [direct_assign_impl] and (with the
    remainder tail compiled in and a lane count that is a power of two)
    [vectorized_assign_impl] leave the element of the source as it reads
    after the synchronisation.  For a source that reads the same on the host
    the three implementations leave the same element. *)
Theorem plain_assign_implementations_agree :
  forall (T : Type) (fcfg : Functors.config) (tr : Functors.operand_traits)
         (e : Evaluator.expression T) (r : Evaluator.container T) (j : N),
    j < Evaluator.size r ->
    Evaluator.cpu_memory (Evaluator.standard_assign_impl e r) j = Evaluator.read_unsynced e j
    /\ Evaluator.cpu_memory (Evaluator.direct_assign_impl fcfg e r) j = Evaluator.read e j
    /\ (Functors.remainder fcfg tr = true ->
        (exists k, Functors.W tr = 2 ^ k) ->
        Evaluator.cpu_memory (Evaluator.vectorized_assign_impl fcfg tr e r) j
        = Evaluator.read e j)
    /\ (Evaluator.read_unsynced e j = Evaluator.read e j ->
        Evaluator.cpu_memory (Evaluator.standard_assign_impl e r) j = Evaluator.read e j
        /\ Evaluator.cpu_memory (Evaluator.standard_assign_impl e r) j
           = Evaluator.cpu_memory (Evaluator.direct_assign_impl fcfg e r) j).
Proof.
  intros T fcfg tr e r j Hj.
  assert (Hb : (j <? Evaluator.size r) = true) by now apply N.ltb_lt.
  assert (H1 : Evaluator.cpu_memory (Evaluator.standard_assign_impl e r) j
               = Evaluator.read_unsynced e j).
  { rewrite standard_assign_impl_mem. now rewrite Hb. }
  assert (H2 : Evaluator.cpu_memory (Evaluator.direct_assign_impl fcfg e r) j
               = Evaluator.read e j) by now apply direct_assign_impl_mem.
  split; [ exact H1 | ]. split; [ exact H2 | ]. split.
  - intros Hrem [k HW]. rewrite (vectorized_assign_impl_mem T fcfg tr e r k j Hrem HW).
    now rewrite Hb.
  - intros Hrd. rewrite H1, H2. now split.
Qed.

Lemma plain_assign_implementations_agree_witness :
  2 < Evaluator.size blank
  /\ Evaluator.cpu_memory (Evaluator.standard_assign_impl synced_source blank) 2 = 3
  /\ Evaluator.cpu_memory (Evaluator.direct_assign_impl plain_build synced_source blank) 2 = 3
  /\ Evaluator.cpu_memory
       (Evaluator.vectorized_assign_impl plain_build four_lanes synced_source blank) 2 = 3.
Proof.
  split; [ reflexivity | ].
  destruct (plain_assign_implementations_agree N plain_build four_lanes synced_source blank 2
              eq_refl) as [H1 [H2 [H3 _]]].
  split; [ exact H1 | ]. split; [ exact H2 | ].
  apply H3; [ reflexivity | exists 2; reflexivity ].
Defined.

(** X16.  After the same-type fast copy of a CUDA build, every side of the
    destination that is flagged valid holds the data of the source: the host
    memory, when valid, holds the elements of the host memory of the source
    (and the elements beyond the size of the source are untouched); the
    device memory, when valid, is allocated and is the device memory of the
    source.  A side on which the source is stale is not written at all.
    Without CUDA the copy writes the host elements and nothing else. *)
Theorem fast_copy_valid_sides_hold_source :
  forall (T : Type) (e : Evaluator.expression T) (r : Evaluator.container T),
    let src := Evaluator.store e in
    let out := Evaluator.fast_assign_impl_full true e r in
    (Evaluator.cpu_up_to_date out = true ->
     forall j, Evaluator.cpu_memory out j
               = if j <? Evaluator.size src then Evaluator.cpu_memory src j
                 else Evaluator.cpu_memory r j)
    /\ (Evaluator.gpu_up_to_date out = true ->
        Evaluator.gpu_allocated out = true
        /\ Evaluator.gpu_memory out = Evaluator.gpu_memory src)
    /\ (Evaluator.cpu_up_to_date src = false ->
        Evaluator.cpu_memory out = Evaluator.cpu_memory r)
    /\ (Evaluator.gpu_up_to_date src = false ->
        Evaluator.gpu_memory out = Evaluator.gpu_memory r
        /\ Evaluator.gpu_allocated out = Evaluator.gpu_allocated r)
    /\ (forall j, Evaluator.cpu_memory (Evaluator.fast_assign_impl_full false e r) j
                  = if j <? Evaluator.size src then Evaluator.cpu_memory src j
                    else Evaluator.cpu_memory r j)
    /\ Evaluator.gpu_memory (Evaluator.fast_assign_impl_full false e r) = Evaluator.gpu_memory r.
Proof.
  intros T e r src out. subst out. unfold Evaluator.fast_assign_impl_full. fold src.
  destruct (Evaluator.cpu_up_to_date src) eqn:Ec, (Evaluator.gpu_up_to_date src) eqn:Eg;
    cbn; repeat split; intros; try discriminate; reflexivity.
Qed.

Lemma fast_copy_valid_sides_hold_source_witness :
  Evaluator.cpu_up_to_date (Evaluator.fast_assign_impl_full true synced_source blank) = true
  /\ map (Evaluator.cpu_memory (Evaluator.fast_assign_impl_full true synced_source blank))
         [0; 1; 2; 3; 4]
     = [1; 2; 3; 4; 0].
Proof.
  split; [ reflexivity | ].
  pose proof (proj1 (fast_copy_valid_sides_hold_source N synced_source blank) eq_refl) as H.
  unfold map. rewrite !H. reflexivity.
Defined.

Section CompoundTranspositionFacts.
Variable T : Type.
Variable cfg : build.
Variable fcfg : Functors.config.
Variable tr : Functors.operand_traits.
Variable ops : StandardEvaluator.operations T.
Variable libs : StandardEvaluator.libraries T.
Variables gpu_compound gpu_compound_div : etl_traits -> etl_traits -> bool.

(** In a build without the accelerator overloads, the overload of a compound
    operation that is enabled for the transposition of a source of the other
    storage order: the direct one for a destination with direct memory
    access, the standard one otherwise. *)
Lemma transposed_compound_dispatch (E R : etl_traits) :
  ETL_CUBLAS_MODE cfg = false -> ETL_EGBLAS_MODE cfg = false ->
  storage_order E <> storage_order R ->
  let chosen := Some (if has_direct_access R
                      then Dispatch.direct_impl else Dispatch.standard_impl) in
  Dispatch.add_evaluate cfg gpu_compound (Transposition.transposed_traits E) R = chosen
  /\ Dispatch.mul_evaluate cfg gpu_compound (Transposition.transposed_traits E) R = chosen
  /\ Dispatch.div_evaluate cfg gpu_compound_div (Transposition.transposed_traits E) R = chosen.
Proof.
  intros Hc He Ho.
  assert (Hv : Selectors.are_vectorizable cfg (Transposition.transposed_traits E) R = false)
    by now apply order_mismatch_not_vectorizable.
  unfold Dispatch.add_evaluate, Dispatch.mul_evaluate, Dispatch.div_evaluate,
    Dispatch.div_overloads, resolve,
    Selectors.standard_compound, Selectors.direct_compound, Selectors.vectorized_compound,
    Selectors.standard_compound_div, Selectors.direct_compound_div,
    Selectors.vectorized_compound_div.
  rewrite Hc, He, Hv, andb_false_r. cbn.
  destruct (has_direct_access R); cbn; repeat split.
Qed.

Lemma compound_evaluate_transposed (o : StandardEvaluator.compound) (E R : etl_traits)
      (e : Evaluator.expression T) (r : Evaluator.container T) :
  ETL_CUBLAS_MODE cfg = false -> ETL_EGBLAS_MODE cfg = false ->
  storage_order E <> storage_order R ->
  StandardEvaluator.compound_evaluate cfg fcfg tr ops libs gpu_compound gpu_compound_div
    o (Transposition.transposed_traits E) R e r
  = Some (match o with
          | StandardEvaluator.Add =>
              if has_direct_access R
              then Evaluator.direct_compound_add_impl fcfg (StandardEvaluator.add ops) e r
              else Evaluator.standard_compound_add_impl (StandardEvaluator.add ops) e r
          | StandardEvaluator.Sub =>
              if has_direct_access R
              then Evaluator.direct_compound_sub_impl fcfg (StandardEvaluator.sub ops) e r
              else Evaluator.standard_compound_sub_impl (StandardEvaluator.sub ops) e r
          | StandardEvaluator.Mul =>
              if has_direct_access R
              then Evaluator.direct_compound_mul_impl fcfg (StandardEvaluator.mul ops) e r
              else Evaluator.standard_compound_mul_impl (StandardEvaluator.mul ops) e r
          | StandardEvaluator.Div =>
              if has_direct_access R
              then Evaluator.direct_compound_div_impl fcfg (StandardEvaluator.div ops) e r
              else Evaluator.standard_compound_div_impl (StandardEvaluator.div ops) e r
          | StandardEvaluator.Mod =>
              Evaluator.mod_evaluate (StandardEvaluator.modulo ops) e r
          end).
Proof.
  intros Hc He Ho.
  destruct (transposed_compound_dispatch E R Hc He Ho) as [Ha [Hm Hd]]. cbv zeta in Ha, Hm, Hd.
  unfold StandardEvaluator.compound_evaluate.
  destruct o; try rewrite Ha; try rewrite Hm; try rewrite Hd;
    try (destruct (has_direct_access R)); reflexivity.
Qed.

End CompoundTranspositionFacts.

(** X17.  The compound evaluations ([std_add_evaluate],
    [std_sub_evaluate], [std_mul_evaluate], [std_div_evaluate],
    [std_mod_evaluate]) run the operation of the evaluator on the source as it
    is when the source is a generator, or has the storage order of the
    destination, or both operands have one dimension, and on the
    transposition of the source otherwise.  For two matrices of different
    storage orders, in a build without the accelerator overloads, the call
    has exactly one enabled overload (the direct implementation for a
    destination with direct memory access, the standard one otherwise) and
    the cell [(i, j)] of the destination is combined with the element
    [(i, j)] of the source.  The old value of the cell is the host memory of
    the destination after [safe_ensure_cpu_up_to_date(result)], except for
    the standard implementation of add, which makes no such call and works on
    the host memory as it is. *)
Theorem std_compound_evaluate_transposes_on_order_mismatch :
  forall (T : Type) (cfg : build) (fcfg : Functors.config) (tr : Functors.operand_traits)
         (ops : StandardEvaluator.operations T) (libs : StandardEvaluator.libraries T)
         (gpu_compound gpu_compound_div : etl_traits -> etl_traits -> bool)
         (o : StandardEvaluator.compound)
         (Rt : etl_traits) (e : Transposition.expr T) (result : Evaluator.container T),
    let run := Transposition.std_compound_evaluate cfg fcfg tr ops libs
                 gpu_compound gpu_compound_div o Rt e result in
    (is_generator (Transposition.traits e) = true
     \/ storage_order (Transposition.traits e) = storage_order Rt
     \/ all_1d (Transposition.traits e) Rt = true ->
     run = StandardEvaluator.compound_evaluate cfg fcfg tr ops libs gpu_compound gpu_compound_div
             o (Transposition.traits e) Rt (Transposition.node e) result)
    /\ (is_generator (Transposition.traits e) = false ->
        storage_order (Transposition.traits e) <> storage_order Rt ->
        all_2d (Transposition.traits e) Rt = true ->
        run = StandardEvaluator.compound_evaluate cfg fcfg tr ops libs
                gpu_compound gpu_compound_div o
                (Transposition.traits (Transposition.transpose e)) Rt
                (Transposition.node (Transposition.transpose e)) result
        /\ (ETL_CUBLAS_MODE cfg = false -> ETL_EGBLAS_MODE cfg = false ->
            exists out,
              run = Some out
              /\ (Evaluator.size result = Transposition.rows e * Transposition.cols e ->
                  forall i j, i < Transposition.rows e -> j < Transposition.cols e ->
                    let cell := flat_index (storage_order Rt) (Transposition.rows e)
                                  (Transposition.cols e) i j in
                    let old :=
                      match o with
                      | StandardEvaluator.Add =>
                          if has_direct_access Rt
                          then Evaluator.cpu_memory
                                 (Evaluator.safe_ensure_cpu_up_to_date result) cell
                          else Evaluator.cpu_memory result cell
                      | _ => Evaluator.cpu_memory
                               (Evaluator.safe_ensure_cpu_up_to_date result) cell
                      end in
                    Evaluator.cpu_memory out cell
                    = StandardEvaluator.operator ops o old (Transposition.at2 e i j)))).
Proof.
  intros T cfg fcfg tr ops libs gpu_compound gpu_compound_div o Rt e result run.
  subst run. split.
  - intros H. unfold Transposition.std_compound_evaluate, Dispatch.direct_assign_compatible.
    destruct H as [H | [H | H]].
    + now rewrite H.
    + apply order_eqb_eq in H. rewrite H. now rewrite orb_true_r.
    + rewrite H. now rewrite orb_true_r.
  - intros Hg Ho H2.
    assert (Hstd : Transposition.std_compound_evaluate cfg fcfg tr ops libs
                     gpu_compound gpu_compound_div o Rt e result
                   = StandardEvaluator.compound_evaluate cfg fcfg tr ops libs
                       gpu_compound gpu_compound_div o
                       (Transposition.traits (Transposition.transpose e)) Rt
                       (Transposition.node (Transposition.transpose e)) result).
    { unfold Transposition.std_compound_evaluate, Dispatch.direct_assign_compatible.
      rewrite Hg, (all_2d_not_1d _ _ H2).
      destruct (order_eqb (storage_order (Transposition.traits e)) (storage_order Rt)) eqn:E;
        [ apply order_eqb_eq in E; contradiction | reflexivity ]. }
    split; [ exact Hstd | ].
    intros Hc He. rewrite Hstd.
    change (Transposition.traits (Transposition.transpose e))
      with (Transposition.transposed_traits (Transposition.traits e)).
    rewrite (compound_evaluate_transposed T cfg fcfg tr ops libs gpu_compound gpu_compound_div
               o _ _ _ _ Hc He Ho).
    eexists. split; [ reflexivity | ].
    intros Hsize i j Hi Hj cell old.
    assert (Hk : (0 <=? cell) && (cell <? Evaluator.size result) = true).
    { apply andb_true_intro. split; [ apply N.leb_le; lia | ].
      apply N.ltb_lt. rewrite Hsize. unfold cell, flat_index.
      destruct (storage_order Rt); nia. }
    rewrite <- (transpose_read T e (storage_order Rt) i j Ho Hi Hj). fold cell.
    subst old.
    destruct o, (has_direct_access Rt); cbn [StandardEvaluator.operator];
      first [ rewrite standard_compound_add_impl_mem
            | unfold Evaluator.direct_compound_add_impl, Evaluator.direct_compound_sub_impl,
                Evaluator.direct_compound_mul_impl, Evaluator.direct_compound_div_impl;
              rewrite direct_compound_impl_mem
            | unfold Evaluator.standard_compound_sub_impl, Evaluator.standard_compound_mul_impl,
                Evaluator.standard_compound_div_impl, Evaluator.mod_evaluate;
              rewrite standard_compound_impl_mem ];
      unfold combined; rewrite Hk; reflexivity.
Qed.

(** The column-major matrix added to a row-major destination without direct
    memory access: the standard add runs on the transposition. *)
Lemma std_compound_evaluate_transposes_on_order_mismatch_witness :
  is_generator (Transposition.traits column_major_2x3) = false
  /\ storage_order (Transposition.traits column_major_2x3)
     <> storage_order (lazy_matrix float_t RowMajor)
  /\ all_2d (Transposition.traits column_major_2x3) (lazy_matrix float_t RowMajor) = true
  /\ ETL_CUBLAS_MODE avx_build = false /\ ETL_EGBLAS_MODE avx_build = false
  /\ exists out,
       Transposition.std_compound_evaluate avx_build plain_build four_lanes
         natural_numbers no_libraries (fun _ _ => false) (fun _ _ => false)
         StandardEvaluator.Add (lazy_matrix float_t RowMajor) column_major_2x3 six_zeros
       = Some out
       /\ Evaluator.cpu_memory out (flat_index RowMajor 2 3 1 2) = 0 + 6.
Proof.
  split; [ reflexivity | ]. split; [ discriminate | ]. split; [ reflexivity | ].
  split; [ reflexivity | ]. split; [ reflexivity | ].
  destruct (proj2 (proj2 (std_compound_evaluate_transposes_on_order_mismatch N avx_build
                            plain_build four_lanes natural_numbers no_libraries
                            (fun _ _ => false) (fun _ _ => false) StandardEvaluator.Add
                            (lazy_matrix float_t RowMajor) column_major_2x3 six_zeros)
                     eq_refl ltac:(discriminate) eq_refl) eq_refl eq_refl) as [out [Hout Hval]].
  exists out. split; [ exact Hout | ].
  apply (Hval eq_refl 1 2); reflexivity.
Defined.

(** The column-major matrix [[1, 2, 3], [4, 5, 6]] subtracted from a
    row-major destination of tens. *)
Example compound_transposition_scenario :
  option_map (fun r => map (Evaluator.cpu_memory r) [0; 1; 2; 3; 4; 5])
    (Transposition.std_compound_evaluate avx_build plain_build four_lanes
       natural_numbers no_libraries (fun _ _ => false) (fun _ _ => false)
       StandardEvaluator.Sub (dense_matrix float_t RowMajor) column_major_2x3
       (Evaluator.set_cpu_memory (fun _ => 10) six_zeros))
  = Some [9; 8; 7; 6; 5; 4].
Proof. reflexivity. Qed.

(** * Further properties of the gemm selectors *)

(** X18.  Whatever the local context forces, the implementation that
    [select_gemm_impl] of impl/mmul.hpp returns can run on the operands:
    CUBLAS only in a build with cublas and on operands with direct memory
    access, BLAS only in a build with cblas and on such operands, EBLAS only
    on such operands and for an element type that is not complex; operands
    without direct memory access always get the standard implementation.
    A line is written on the error channel exactly when the context forces an
    implementation that is not possible. *)
Theorem selected_gemm_can_run :
  forall (cfg : Mmul.config) (DMA is_complex : bool) (ctx : Mmul.gemm_selector)
         (n1 n2 n3 : N),
    let sel := Mmul.select_gemm_impl cfg DMA is_complex ctx n1 n2 n3 in
    (chosen sel = Mmul.CUBLAS -> Mmul.is_cublas_enabled cfg = true /\ DMA = true)
    /\ (chosen sel = Mmul.BLAS -> Mmul.is_cblas_enabled cfg = true /\ DMA = true)
    /\ (chosen sel = Mmul.FAST -> DMA = true /\ is_complex = false)
    /\ (DMA = false -> chosen sel = Mmul.STD)
    /\ (diagnostics sel <> []
        <-> Mmul.forced ctx = true
            /\ Mmul.not_possible cfg DMA is_complex (Mmul.impl ctx) = true).
Proof.
  intros cfg DMA cx [f i] n1 n2 n3.
  unfold Mmul.select_gemm_impl, Mmul.select_default_gemm_impl, Mmul.not_possible.
  cbn [Mmul.forced Mmul.impl].
  destruct (n1 * n3 <? Mmul.gemm_cublas_min cfg), (n1 * n3 <? Mmul.gemm_std_max cfg),
    (Mmul.is_cblas_enabled cfg), (Mmul.is_cublas_enabled cfg), DMA, cx, f, i;
    cbn; repeat split; intros; try discriminate; try reflexivity;
    try (exfalso; congruence); try (destruct H; discriminate).
Qed.

Lemma selected_gemm_can_run_witness :
  chosen (Mmul.select_gemm_impl cblas_only true true
            {| Mmul.forced := true; Mmul.impl := Mmul.FAST |} 100 100 100) = Mmul.BLAS
  /\ Mmul.is_cblas_enabled cblas_only = true /\ true = true.
Proof.
  split; [ reflexivity | ].
  apply (proj1 (proj2 (selected_gemm_can_run cblas_only true true
                         {| Mmul.forced := true; Mmul.impl := Mmul.FAST |} 100 100 100))).
  reflexivity.
Defined.

(** X19.  The default selection of impl/mmul.hpp returns EBLAS only in a
    build without cblas, and the forced selection accepts EBLAS only in a
    build with cblas: whenever the default selection picks EBLAS for the
    operands, forcing EBLAS writes a line on the error channel and returns
    EBLAS through the default selection. *)
Theorem forcing_default_eblas_is_diagnosed :
  forall (cfg : Mmul.config) (DMA is_complex : bool) (n1 n2 n3 : N),
    Mmul.select_default_gemm_impl cfg DMA is_complex n1 n2 n3 = Mmul.FAST ->
    Mmul.is_cblas_enabled cfg = false
    /\ Mmul.not_possible cfg DMA is_complex Mmul.FAST = true
    /\ chosen (Mmul.select_gemm_impl cfg DMA is_complex
                 {| Mmul.forced := true; Mmul.impl := Mmul.FAST |} n1 n2 n3) = Mmul.FAST
    /\ List.length (diagnostics (Mmul.select_gemm_impl cfg DMA is_complex
                              {| Mmul.forced := true; Mmul.impl := Mmul.FAST |} n1 n2 n3)) = 1%nat.
Proof.
  intros cfg DMA cx n1 n2 n3.
  unfold Mmul.select_gemm_impl, Mmul.select_default_gemm_impl, Mmul.not_possible.
  cbn [Mmul.forced Mmul.impl].
  destruct (n1 * n3 <? Mmul.gemm_cublas_min cfg), (n1 * n3 <? Mmul.gemm_std_max cfg),
    (Mmul.is_cblas_enabled cfg), (Mmul.is_cublas_enabled cfg), DMA, cx;
    cbn; intros H; try discriminate H; repeat split.
Qed.

Lemma forcing_default_eblas_is_diagnosed_witness :
  Mmul.select_default_gemm_impl
    {| Mmul.is_cblas_enabled := false; Mmul.is_cublas_enabled := false;
       Mmul.gemm_cublas_min := 0; Mmul.gemm_std_max := 0 |} true false 8 8 8 = Mmul.FAST
  /\ List.length (diagnostics
               (Mmul.select_gemm_impl
                  {| Mmul.is_cblas_enabled := false; Mmul.is_cublas_enabled := false;
                     Mmul.gemm_cublas_min := 0; Mmul.gemm_std_max := 0 |} true false
                  {| Mmul.forced := true; Mmul.impl := Mmul.FAST |} 8 8 8)) = 1%nat.
Proof.
  split; [ reflexivity | ].
  apply (forcing_default_eblas_is_diagnosed
           {| Mmul.is_cblas_enabled := false; Mmul.is_cublas_enabled := false;
              Mmul.gemm_cublas_min := 0; Mmul.gemm_std_max := 0 |} true false 8 8 8).
  reflexivity.
Defined.

(** X20.  [select_gemv_impl] and [select_gevm_impl] never return EBLAS, so
    [mv_mul_impl::apply] and [vm_mul_impl::apply], which have no branch for
    it, always run a kernel; forcing EBLAS always writes a line on the error
    channel; the two selectors choose the same implementation for the same
    operands; and the implementation chosen can run (CUBLAS only with cublas
    and direct memory access, BLAS only with cblas and direct memory access,
    the standard one for operands without direct memory access). *)
Theorem gemv_and_gevm_always_run_a_kernel :
  forall (cfg : Mmul.config) (DMA is_complex_single : bool) (ctx : Mmul.gemm_selector)
         (n1 n2 : N),
    let mv := Mmul.select_gemv_impl cfg DMA is_complex_single ctx n1 n2 in
    let vm := Mmul.select_gevm_impl cfg DMA is_complex_single ctx n1 n2 in
    chosen mv <> Mmul.FAST
    /\ Mmul.mv_mul_kernel (chosen mv) <> None
    /\ Mmul.vm_mul_kernel (chosen vm) <> None
    /\ chosen vm = chosen mv
    /\ (Mmul.forced ctx = true -> Mmul.impl ctx = Mmul.FAST ->
        List.length (diagnostics mv) = 1%nat /\ List.length (diagnostics vm) = 1%nat)
    /\ (chosen mv = Mmul.CUBLAS -> Mmul.is_cublas_enabled cfg = true /\ DMA = true)
    /\ (chosen mv = Mmul.BLAS -> Mmul.is_cblas_enabled cfg = true /\ DMA = true)
    /\ (DMA = false -> chosen mv = Mmul.STD).
Proof.
  intros cfg DMA cs [f i] n1 n2.
  unfold Mmul.select_gemv_impl, Mmul.select_gevm_impl,
    Mmul.select_default_gemv_impl, Mmul.select_default_gevm_impl.
  cbn [Mmul.forced Mmul.impl].
  destruct (1000 * 1000 <? n1 * n2), (Mmul.is_cblas_enabled cfg),
    (Mmul.is_cublas_enabled cfg), DMA, cs, f, i;
    cbn; repeat split; intros; try discriminate; try reflexivity.
Qed.

Lemma gemv_and_gevm_always_run_a_kernel_witness :
  Mmul.forced {| Mmul.forced := true; Mmul.impl := Mmul.FAST |} = true
  /\ Mmul.impl {| Mmul.forced := true; Mmul.impl := Mmul.FAST |} = Mmul.FAST
  /\ List.length (diagnostics (Mmul.select_gemv_impl cblas_only true false
                            {| Mmul.forced := true; Mmul.impl := Mmul.FAST |} 10 10)) = 1%nat
  /\ List.length (diagnostics (Mmul.select_gevm_impl cblas_only true false
                            {| Mmul.forced := true; Mmul.impl := Mmul.FAST |} 10 10)) = 1%nat.
Proof.
  split; [ reflexivity | ]. split; [ reflexivity | ].
  apply (proj1 (proj2 (proj2 (proj2 (proj2
           (gemv_and_gevm_always_run_a_kernel cblas_only true false
              {| Mmul.forced := true; Mmul.impl := Mmul.FAST |} 10 10))))));
    reflexivity.
Defined.

(** X21.  In expr/gemm_expr.hpp the default selection returns the first
    implementation, in the order CUBLAS, BLAS, VEC, STD, that the forced
    selection would accept; the implementation that [select_gemm_impl]
    returns is always one it accepts (CUBLAS and BLAS only in a build that
    has them and on homogeneous operands, VEC only in a build that
    vectorizes and on homogeneous operands vectorizable together); and a line
    is written on the error channel exactly when the context forces an
    implementation that is not possible. *)
Theorem gemm_expr_selects_first_possible :
  forall (cfg : GemmExpr.config) (homogeneous vectorizable : bool)
         (ctx : GemmExpr.gemm_selector) (n1 n2 n3 : N),
    let sel := GemmExpr.select_gemm_impl cfg homogeneous vectorizable ctx n1 n2 n3 in
    find (fun i => negb (GemmExpr.not_possible cfg homogeneous vectorizable i))
         [GemmExpr.CUBLAS; GemmExpr.BLAS; GemmExpr.VEC; GemmExpr.STD]
    = Some (GemmExpr.select_default_gemm_impl cfg homogeneous vectorizable n1 n2 n3)
    /\ GemmExpr.not_possible cfg homogeneous vectorizable (chosen sel) = false
    /\ (diagnostics sel <> []
        <-> GemmExpr.forced ctx = true
            /\ GemmExpr.not_possible cfg homogeneous vectorizable (GemmExpr.impl ctx) = true).
Proof.
  intros cfg homo vect [f i] n1 n2 n3.
  unfold GemmExpr.select_gemm_impl, GemmExpr.select_default_gemm_impl, GemmExpr.not_possible.
  cbn [GemmExpr.forced GemmExpr.impl].
  destruct (GemmExpr.cblas_enabled cfg), (GemmExpr.cublas_enabled cfg),
    (GemmExpr.vec_enabled cfg), homo, vect, f, i;
    cbn; repeat split; intros; try discriminate; try reflexivity;
    try (exfalso; congruence); try (destruct H; discriminate).
Qed.

(** * Further properties of the 2-D sub matrix view *)

Section SubMatrixBounds.
Import SubMatrix2d.

Lemma sub_index_cell (v : sub_matrix_2d) (j : N) :
  j < m v * n v ->
  exists r c, r < m v /\ c < n v
              /\ j = flat_index (storage_order v) (m v) (n v) r c
              /\ sub_index v j
                 = flat_index (storage_order v) (base_m v) (base_n v)
                     (base_i v + r) (base_j v + c).
Proof.
  intros Hj. destruct (window_nonzero v j Hj) as [Hm Hn].
  unfold sub_index, flat_index. destruct (storage_order v).
  - exists (j / n v), (j mod n v). split; [ | split; [ | split ] ].
    + apply N.Div0.div_lt_upper_bound. lia.
    + now apply N.mod_lt.
    + rewrite (N.div_mod j (n v)) at 1 by assumption. lia.
    + reflexivity.
  - exists (j mod m v), (j / m v). split; [ | split; [ | split ] ].
    + now apply N.mod_lt.
    + apply N.Div0.div_lt_upper_bound. lia.
    + rewrite (N.div_mod j (m v)) at 1 by assumption. lia.
    + reflexivity.
Qed.

Lemma flat_index_bound (o : order) (rows cols r c : N) :
  r < rows -> c < cols -> flat_index o rows cols r c < rows * cols.
Proof. intros Hr Hc. unfold flat_index. destruct o; nia. Qed.

Lemma flat_index_injective (o : order) (rows cols r1 c1 r2 c2 : N) :
  r1 < rows -> c1 < cols -> r2 < rows -> c2 < cols ->
  flat_index o rows cols r1 c1 = flat_index o rows cols r2 c2 ->
  r1 = r2 /\ c1 = c2.
Proof.
  intros Hr1 Hc1 Hr2 Hc2. unfold flat_index. destruct o; intros H.
  - apply (N.div_mod_unique cols r1 r2 c1 c2); try assumption. lia.
  - assert (H' : c1 = c2 /\ r1 = r2)
      by (apply (N.div_mod_unique rows c1 c2 r1 r2); try assumption; lia).
    now destruct H'.
Qed.

End SubMatrixBounds.

(** X22.  The flat accessors and the 2-D accessor of a sub_matrix_2d view
    read the same elements: [operator[]] and [read_flat] at the flat position
    of the window cell [(i, jj)] read what [operator()(i, jj)] reads, every
    flat index below the size of the view is the position of one cell of the
    window, and the size of the view is the product of its two dimensions. *)
Theorem sub_matrix_2d_flat_and_2d_access_agree :
  forall (T : Type) (v : SubMatrix2d.sub_matrix_2d) (sub_expr : N -> T),
    (forall i jj, i < SubMatrix2d.m v -> jj < SubMatrix2d.n v ->
       let k := flat_index (SubMatrix2d.storage_order v)
                  (SubMatrix2d.m v) (SubMatrix2d.n v) i jj in
       k < SubMatrix2d.size v
       /\ SubMatrix2d.index v sub_expr k = SubMatrix2d.call v sub_expr i jj
       /\ SubMatrix2d.read_flat v sub_expr k = SubMatrix2d.call v sub_expr i jj)
    /\ (forall j, j < SubMatrix2d.size v ->
          exists i jj, i < SubMatrix2d.m v /\ jj < SubMatrix2d.n v
                       /\ j = flat_index (SubMatrix2d.storage_order v)
                                (SubMatrix2d.m v) (SubMatrix2d.n v) i jj
                       /\ SubMatrix2d.index v sub_expr j = SubMatrix2d.call v sub_expr i jj)
    /\ SubMatrix2d.size v = SubMatrix2d.dim v 0 * SubMatrix2d.dim v 1.
Proof.
  intros T v sub_expr. split; [ | split ].
  - intros i jj Hi Hj k. split; [ | split ].
    + now apply flat_index_bound.
    + now apply index_call.
    + change (SubMatrix2d.read_flat v sub_expr k) with (SubMatrix2d.index v sub_expr k).
      now apply index_call.
  - intros j Hj. destruct (sub_index_cell v j Hj) as [r [c [Hr [Hc [E1 E2]]]]].
    exists r, c. repeat split; try assumption.
    unfold SubMatrix2d.index, SubMatrix2d.call. now rewrite E2.
  - reflexivity.
Qed.

Lemma sub_matrix_2d_flat_and_2d_access_agree_witness :
  1 < SubMatrix2d.m window_2x3 /\ 2 < SubMatrix2d.n window_2x3
  /\ SubMatrix2d.index window_2x3 (fun k => k) 5
     = SubMatrix2d.call window_2x3 (fun k => k) 1 2.
Proof.
  split; [ reflexivity | ]. split; [ reflexivity | ].
  apply (proj1 (sub_matrix_2d_flat_and_2d_access_agree N window_2x3 (fun k => k)) 1 2);
    reflexivity.
Defined.

(** X23.  A window that fits in the expression it is made on
    ([base_i + m <= base_m] and [base_j + n <= base_n]) never reads outside
    of it and never reads an element twice: for every flat index below the
    size of the view the index read in the sub expression is below
    [base_m * base_n], and two different flat indices of the view read two
    different elements of the sub expression. *)
Theorem sub_matrix_2d_reads_inside_base_once :
  forall (v : SubMatrix2d.sub_matrix_2d),
    SubMatrix2d.base_i v + SubMatrix2d.m v <= SubMatrix2d.base_m v ->
    SubMatrix2d.base_j v + SubMatrix2d.n v <= SubMatrix2d.base_n v ->
    (forall j, j < SubMatrix2d.size v ->
       SubMatrix2d.sub_index v j < SubMatrix2d.base_m v * SubMatrix2d.base_n v)
    /\ (forall j1 j2, j1 < SubMatrix2d.size v -> j2 < SubMatrix2d.size v ->
          SubMatrix2d.sub_index v j1 = SubMatrix2d.sub_index v j2 -> j1 = j2).
Proof.
  intros v Hm Hn. split.
  - intros j Hj. destruct (sub_index_cell v j Hj) as [r [c [Hr [Hc [_ E]]]]].
    rewrite E. apply flat_index_bound; lia.
  - intros j1 j2 H1 H2 E.
    destruct (sub_index_cell v j1 H1) as [r1 [c1 [Hr1 [Hc1 [P1 E1]]]]].
    destruct (sub_index_cell v j2 H2) as [r2 [c2 [Hr2 [Hc2 [P2 E2]]]]].
    rewrite E1, E2 in E.
    apply flat_index_injective in E; try lia.
    destruct E as [Er Ec].
    assert (r1 = r2) by lia. assert (c1 = c2) by lia. subst. reflexivity.
Qed.

Lemma sub_matrix_2d_reads_inside_base_once_witness :
  SubMatrix2d.base_i window_2x3 + SubMatrix2d.m window_2x3 <= SubMatrix2d.base_m window_2x3
  /\ SubMatrix2d.base_j window_2x3 + SubMatrix2d.n window_2x3 <= SubMatrix2d.base_n window_2x3
  /\ SubMatrix2d.sub_index window_2x3 5 < 4 * 6.
Proof.
  split; [ vm_compute; discriminate | ]. split; [ vm_compute; discriminate | ].
  apply (proj1 (sub_matrix_2d_reads_inside_base_once window_2x3
                  ltac:(vm_compute; discriminate) ltac:(vm_compute; discriminate)) 5).
  reflexivity.
Defined.

(** * The dimensions of the valid convolution *)

Section ConvFacts.
Import DynConv2dValid.

Lemma valid_dim_exact (a b p s : N) :
  0 < s -> 1 <= b -> b <= a + 2 * p -> a + 2 * p < 2 ^ 64 ->
  valid_dim a b p s = Some ((a + 2 * p - b) / s + 1).
Proof.
  intros Hs Hb Hfit Hrange.
  unfold valid_dim, div64, add64, sub64, mul64, wrap.
  assert (Hs0 : (s =? 0) = false) by (apply N.eqb_neq; lia).
  rewrite Hs0. cbn [option_map]. f_equal.
  assert (Hnum : ((a + 2 ^ 64 - b mod 2 ^ 64) mod 2 ^ 64 + (2 * p) mod 2 ^ 64) mod 2 ^ 64
                 = a + 2 * p - b).
  { rewrite (N.mod_small b) by lia.
    rewrite (N.mod_small (2 * p)) by lia.
    rewrite N.Div0.add_mod_idemp_l.
    replace (a + 2 ^ 64 - b + 2 * p) with (a + 2 * p - b + 1 * 2 ^ 64) by lia.
    rewrite N.Div0.mod_add. apply N.mod_small. lia. }
  rewrite Hnum.
  assert (Hq : (a + 2 * p - b) / s <= a + 2 * p - b).
  { apply N.Div0.div_le_upper_bound. nia. }
  apply N.mod_small. lia.
Qed.

End ConvFacts.

(** X24.  For a kernel of at least one row and one column that fits in the
    padded input, with strides that are not zero and a padded input size that
    fits in [std::size_t], the dimensions of the valid convolution are the
    number of positions of the kernel, [(a + 2 p - b) / s + 1], also when the
    kernel is larger than the input without its padding and the subtraction
    [a - b] wraps around; each dimension is at least one; [check] accepts a
    destination of these dimensions and no other; and [size] is their
    product. *)
Theorem conv_valid_dims_count_kernel_positions :
  forall (e : DynConv2dValid.dyn_conv_2d_valid_expr),
    let a0 := DynConv2dValid.a_dim0 e in
    let a1 := DynConv2dValid.a_dim1 e in
    let b0 := DynConv2dValid.b_dim0 e in
    let b1 := DynConv2dValid.b_dim1 e in
    let d0 := (a0 + 2 * DynConv2dValid.p1 e - b0) / DynConv2dValid.s1 e + 1 in
    let d1 := (a1 + 2 * DynConv2dValid.p2 e - b1) / DynConv2dValid.s2 e + 1 in
    0 < DynConv2dValid.s1 e -> 0 < DynConv2dValid.s2 e ->
    1 <= b0 -> 1 <= b1 ->
    b0 <= a0 + 2 * DynConv2dValid.p1 e -> b1 <= a1 + 2 * DynConv2dValid.p2 e ->
    a0 + 2 * DynConv2dValid.p1 e < 2 ^ 64 -> a1 + 2 * DynConv2dValid.p2 e < 2 ^ 64 ->
    DynConv2dValid.dim e 0 = Some d0
    /\ (forall d, d <> 0 -> DynConv2dValid.dim e d = Some d1)
    /\ 1 <= d0 /\ 1 <= d1
    /\ (forall c0 c1, DynConv2dValid.check e c0 c1 = Some true <-> c0 = d0 /\ c1 = d1)
    /\ DynConv2dValid.size e = Some ((d0 * d1) mod 2 ^ 64).
Proof.
  intros e a0 a1 b0 b1 d0 d1 Hs1 Hs2 Hb0 Hb1 Hf0 Hf1 Hr0 Hr1.
  pose proof (valid_dim_exact a0 b0 (DynConv2dValid.p1 e) (DynConv2dValid.s1 e)
                Hs1 Hb0 Hf0 Hr0) as E0.
  pose proof (valid_dim_exact a1 b1 (DynConv2dValid.p2 e) (DynConv2dValid.s2 e)
                Hs2 Hb1 Hf1 Hr1) as E1.
  fold d0 in E0. fold d1 in E1.
  unfold DynConv2dValid.dim, DynConv2dValid.check, DynConv2dValid.size.
  fold a0 a1 b0 b1. rewrite E0, E1.
  split; [ reflexivity | ].
  split; [ intros d Hd; apply N.eqb_neq in Hd; now rewrite Hd | ].
  split; [ unfold d0; apply N.le_add_l | ].
  split; [ unfold d1; apply N.le_add_l | ].
  split; [ | reflexivity ].
  intros c0 c1. split.
  - intros H. injection H as H. apply andb_prop in H. destruct H as [H0 H1].
    apply N.eqb_eq in H0, H1. now split.
  - intros [-> ->]. now rewrite !N.eqb_refl.
Qed.

Lemma conv_valid_dims_count_kernel_positions_witness :
  DynConv2dValid.a_dim0 padded_conv < DynConv2dValid.b_dim0 padded_conv
  /\ DynConv2dValid.dim padded_conv 0 = Some 1
  /\ DynConv2dValid.dim padded_conv 1 = Some 2
  /\ DynConv2dValid.size padded_conv = Some 2.
Proof.
  split; [ reflexivity | ].
  destruct (conv_valid_dims_count_kernel_positions padded_conv
              ltac:(reflexivity) ltac:(reflexivity)
              ltac:(vm_compute; discriminate) ltac:(vm_compute; discriminate)
              ltac:(vm_compute; discriminate) ltac:(vm_compute; discriminate)
              ltac:(reflexivity) ltac:(reflexivity)) as [H0 [H1 [_ [_ [_ H2]]]]].
  split; [ exact H0 | ]. split; [ apply H1; discriminate | exact H2 ].
Defined.

(** * The dimensions of the matrix product *)

(** X25.  A destination that passes [check] of gemm_expr has the
    dimensions that the traits of the expression report, and as many
    elements as its [size]; the inner dimensions of the operands agree; and
    [check] rejects every destination of other dimensions. *)
Theorem gemm_check_fixes_destination_dimensions :
  forall (e : GemmExpr.gemm_expr) (c_dim0 c_dim1 : N),
    (GemmExpr.check e c_dim0 c_dim1 = true ->
     c_dim0 = GemmExpr.dim e 0
     /\ (forall d, d <> 0 -> c_dim1 = GemmExpr.dim e d)
     /\ c_dim0 * c_dim1 = GemmExpr.size e
     /\ GemmExpr.a_dim1 e = GemmExpr.b_dim0 e)
    /\ (c_dim0 <> GemmExpr.dim e 0 \/ c_dim1 <> GemmExpr.dim e 1 ->
        GemmExpr.check e c_dim0 c_dim1 = false).
Proof.
  intros e c0 c1. unfold GemmExpr.check, GemmExpr.dim, GemmExpr.size. split.
  - intros H. apply andb_prop in H. destruct H as [H H2].
    apply andb_prop in H. destruct H as [H0 H1].
    apply N.eqb_eq in H0, H1, H2. subst c0 c1.
    split; [ reflexivity | ]. split; [ | split; [ reflexivity | exact H0 ] ].
    intros d Hd. apply N.eqb_neq in Hd. now rewrite Hd.
  - cbn. intros [H | H].
    + assert (E : (GemmExpr.a_dim0 e =? c0) = false) by (apply N.eqb_neq; congruence).
      rewrite E. now rewrite andb_false_r.
    + assert (E : (GemmExpr.b_dim1 e =? c1) = false) by (apply N.eqb_neq; congruence).
      rewrite E. now rewrite andb_false_r.
Qed.

Lemma gemm_check_fixes_destination_dimensions_witness :
  GemmExpr.check {| GemmExpr.a_dim0 := 2; GemmExpr.a_dim1 := 3;
                    GemmExpr.b_dim0 := 3; GemmExpr.b_dim1 := 4 |} 2 4 = true
  /\ 2 * 4 = GemmExpr.size {| GemmExpr.a_dim0 := 2; GemmExpr.a_dim1 := 3;
                              GemmExpr.b_dim0 := 3; GemmExpr.b_dim1 := 4 |}.
Proof.
  split; [ reflexivity | ].
  apply (proj1 (gemm_check_fixes_destination_dimensions
                  {| GemmExpr.a_dim0 := 2; GemmExpr.a_dim1 := 3;
                     GemmExpr.b_dim0 := 3; GemmExpr.b_dim1 := 4 |} 2 4)).
  reflexivity.
Defined.
